(** * Protontricks: Steam metadata resolution (steam.py)

    A shallow embedding of [src/protontricks/steam.py]: the application
    record, the install-root locator, the library enumerator, the
    application inventory, the appinfo.vdf reader and the Proton resolver,
    together with the properties stated about them.

    Conventions.
    - A Python [str] is a list of Unicode code points ([pystr]); a Python
      [bytes] is a [list byte].
    - A Python [dict] is an association list in iteration (insertion)
      order with unique keys ([dict_set] keeps the position of a key that is
      already present, as CPython does).
    - A Python exception is a constructor of [exn]; a computation that can
      raise returns [res].  Computations that touch the file system, the
      environment or the logger run in the writer monad [M], whose second
      component is the list of effects performed, in order.
    - The [vdf] package, the file system and the environment are outside the
      module: they are the fields of [World]. *)

From Stdlib Require Import List ZArith NArith Lia Bool String Ascii.
From Stdlib Require Import Sorting.Sorted Sorting.Permutation.
From Stdlib Require Init.Byte Strings.Byte Numbers.DecimalString.
Import ListNotations.

Local Open Scope Z_scope.

(* ================================================================== *)
(** ** Python values: strings, bytes, exceptions *)

Definition pystr := list N.
Definition pybytes := list Byte.byte.

(** A literal of the source, read as code points (all literals of steam.py
    are ASCII). *)
Definition lit (s : string) : pystr :=
  map N_of_ascii (list_ascii_of_string s).

Definition str_eqb (a b : pystr) : bool :=
  if list_eq_dec N.eq_dec a b then true else false.

Inductive exn : Type :=
| KeyError | ValueError | TypeError | AttributeError | IndexError
| SyntaxError | UnicodeDecodeError | UnicodeEncodeError
| OSError | UnboundLocalError | StructError.

Definition exn_eqb (a b : exn) : bool :=
  match a, b with
  | KeyError, KeyError | ValueError, ValueError | TypeError, TypeError
  | AttributeError, AttributeError | IndexError, IndexError
  | SyntaxError, SyntaxError | UnicodeDecodeError, UnicodeDecodeError
  | UnicodeEncodeError, UnicodeEncodeError | OSError, OSError
  | UnboundLocalError, UnboundLocalError | StructError, StructError => true
  | _, _ => false
  end.

Inductive res (A : Type) : Type :=
| Ok (a : A)
| Raise (e : exn).
Arguments Ok {A} a.
Arguments Raise {A} e.

Definition rbind {A B} (r : res A) (f : A -> res B) : res B :=
  match r with
  | Ok a => f a
  | Raise e => Raise e
  end.

Declare Scope res_scope.
Delimit Scope res_scope with res.
Notation "'let?' x ':=' r 'in' k" := (rbind r (fun x => k))
  (at level 10, x pattern, r at level 100, k at level 200) : res_scope.

(* ================================================================== *)
(** ** [str.encode("utf-8")] *)

Definition byte_of_N (n : N) : Byte.byte :=
  match Byte.of_N n with
  | Some b => b
  | None => Byte.x00
  end.

(** The UTF-8 encoding of one code point.  CPython refuses surrogates
    (U+D800..U+DFFF) with UnicodeEncodeError; a [str] holds no code point
    above U+10FFFF, so the last case is never reached by a Python value. *)
Definition utf8_encode_cp (c : N) : res pybytes :=
  (if c <? 0x80 then Ok [byte_of_N c]
   else if c <? 0x800 then
     Ok [byte_of_N (N.lor 0xC0 (N.shiftr c 6));
         byte_of_N (N.lor 0x80 (N.land c 0x3F))]
   else if c <? 0x10000 then
     if (0xD800 <=? c) && (c <? 0xE000) then Raise UnicodeEncodeError
     else
       Ok [byte_of_N (N.lor 0xE0 (N.shiftr c 12));
           byte_of_N (N.lor 0x80 (N.land (N.shiftr c 6) 0x3F));
           byte_of_N (N.lor 0x80 (N.land c 0x3F))]
   else if c <? 0x110000 then
     Ok [byte_of_N (N.lor 0xF0 (N.shiftr c 18));
         byte_of_N (N.lor 0x80 (N.land (N.shiftr c 12) 0x3F));
         byte_of_N (N.lor 0x80 (N.land (N.shiftr c 6) 0x3F));
         byte_of_N (N.lor 0x80 (N.land c 0x3F))]
   else Raise UnicodeEncodeError)%N.

Fixpoint str_encode_utf8 (s : pystr) : res pybytes :=
  match s with
  | [] => Ok []
  | c :: s' =>
      match utf8_encode_cp c with
      | Ok bs =>
          match str_encode_utf8 s' with
          | Ok rest => Ok (bs ++ rest)
          | Raise e => Raise e
          end
      | Raise e => Raise e
      end
  end.

(** A Unicode scalar value: a code point that is not a surrogate. *)
Definition is_scalar (c : N) : bool :=
  ((c <? 0xD800) || ((0xE000 <=? c) && (c <? 0x110000)))%N.

(* ================================================================== *)
(** ** [zlib.crc32] *)

(** The CRC-32 of zlib (ISO-HDLC): reflected polynomial 0xEDB88320, initial
    register 0xFFFFFFFF, final complement. *)
Definition crc32_poly : Z := 0xEDB88320.

Definition crc32_shift (c : Z) : Z :=
  if Z.testbit c 0 then Z.lxor (Z.shiftr c 1) crc32_poly else Z.shiftr c 1.

Definition crc32_byte (c : Z) (b : Byte.byte) : Z :=
  let c0 := Z.lxor c (Z.of_N (Byte.to_N b)) in
  crc32_shift (crc32_shift (crc32_shift (crc32_shift
    (crc32_shift (crc32_shift (crc32_shift (crc32_shift c0))))))).

Definition crc32 (data : pybytes) : Z :=
  Z.lxor (fold_left crc32_byte data 0xFFFFFFFF) 0xFFFFFFFF.

(* ================================================================== *)
(** ** [get_appid_from_shortcut] *)

(** The 64-bit screenshot id Steam uses for a shortcut. *)
Definition screenshot_id (data : pybytes) : Z :=
  let result := Z.land (crc32 data) 0xffffffff in
  let result := Z.lor result 0x80000000 in
  Z.lor (Z.shiftl result 32) 0x02000000.

Definition get_appid_from_shortcut (target name : pystr) : res Z :=
  (let? t := str_encode_utf8 target in
   let? n := str_encode_utf8 name in
   let data := t ++ n in
   let result := Z.land (crc32 data) 0xffffffff in
   let result := Z.lor result 0x80000000 in
   let result := Z.lor (Z.shiftl result 32) 0x02000000 in
   Ok (Z.shiftr result 32))%res.

(* ================================================================== *)
(** ** Built-ins of [str] *)

Definition is_ascii_digit (c : N) : bool := ((48 <=? c) && (c <=? 57))%N.

(** [str.isdigit()]: non-empty and every character a digit.  This is
    [str.isdigit] on strings of ASCII characters; beyond ASCII, CPython
    also takes the digits of other scripts and the superscript digits for
    digits, so what is stated of digit-string keys is stated of mappings
    with ASCII keys ([ascii_keys]). *)
Definition isdigit (s : pystr) : bool :=
  match s with
  | [] => false
  | _ => forallb is_ascii_digit s
  end.

(** [str.lower()], on the ASCII letters (other code points are left as they
    are; the field names of a VDF file are ASCII). *)
Definition lower_cp (c : N) : N :=
  (if (65 <=? c) && (c <=? 90) then c + 32 else c)%N.

Definition lower (s : pystr) : pystr := map lower_cp s.

(** [str(n)] for an integer. *)
Definition str_of_int (n : Z) : pystr :=
  lit (DecimalString.NilZero.string_of_int (Z.to_int n)).

(** [str(x)] for an optional integer: [str(None)] is ["None"]. *)
Definition str_of_opt_int (x : option Z) : pystr :=
  match x with
  | Some n => str_of_int n
  | None => lit "None"
  end.

Definition is_ascii_space (c : N) : bool :=
  ((c =? 32) || ((9 <=? c) && (c <=? 13)))%N.

Fixpoint lstrip (p : N -> bool) (s : pystr) : pystr :=
  match s with
  | c :: s' => if p c then lstrip p s' else s
  | [] => []
  end.

Definition rstrip (p : N -> bool) (s : pystr) : pystr :=
  rev (lstrip p (rev s)).

(** [s.strip(chars)] for a set of characters given as a predicate. *)
Definition strip (p : N -> bool) (s : pystr) : pystr :=
  rstrip p (lstrip p s).

(** The digits of an integer literal: decimal digits, single underscores
    allowed between two digits. *)
Fixpoint digits_val (acc : Z) (prev_digit : bool) (s : pystr) : option Z :=
  match s with
  | [] => if prev_digit then Some acc else None
  | c :: s' =>
      if is_ascii_digit c then
        digits_val (10 * acc + (Z.of_N c - 48)) true s'
      else if (c =? 95)%N && prev_digit then digits_val acc false s'
      else None
  end.

(** [int(s)] for a string: surrounding white space, an optional sign, then
    digits; ValueError otherwise (ASCII white space and digits only). *)
Definition int_of_str (s : pystr) : res Z :=
  match strip is_ascii_space s with
  | 43%N :: ds =>
      match digits_val 0 false ds with Some n => Ok n | None => Raise ValueError end
  | 45%N :: ds =>
      match digits_val 0 false ds with Some n => Ok (- n) | None => Raise ValueError end
  | ds =>
      match digits_val 0 false ds with Some n => Ok n | None => Raise ValueError end
  end.

(** [a in b] for two strings: [a] occurs in [b] as a substring. *)
Fixpoint is_prefix (a b : pystr) : bool :=
  match a, b with
  | [], _ => true
  | x :: a', y :: b' => (x =? y)%N && is_prefix a' b'
  | _ :: _, [] => false
  end.

Fixpoint str_contains (a b : pystr) : bool :=
  is_prefix a b ||
  match b with
  | [] => false
  | _ :: b' => str_contains a b'
  end.

(** [a < b] and [a <= b] on strings: lexicographic on code points. *)
Fixpoint str_ltb (a b : pystr) : bool :=
  match a, b with
  | _, [] => false
  | [], _ :: _ => true
  | x :: a', y :: b' => (x <? y)%N || ((x =? y)%N && str_ltb a' b')
  end.

Definition str_leb (a b : pystr) : bool := negb (str_ltb b a).

(* ================================================================== *)
(** ** [os.path] *)

Definition slash : N := 47%N.

Definition ends_with_slash (p : pystr) : bool :=
  match rev p with
  | c :: _ => (c =? slash)%N
  | [] => false
  end.

Definition starts_with_slash (p : pystr) : bool :=
  match p with
  | c :: _ => (c =? slash)%N
  | [] => false
  end.

(** One step of [posixpath.join]: an absolute component replaces what came
    before; otherwise it is appended, after a separator unless the path is
    empty or already ends with one. *)
Definition join2 (path b : pystr) : pystr :=
  if starts_with_slash b then b
  else if match path with [] => true | _ => ends_with_slash path end
       then path ++ b
       else path ++ slash :: b.

Definition os_path_join (a : pystr) (ps : list pystr) : pystr :=
  fold_left join2 ps a.

(** The head of [posixpath.split] (also [os.path.dirname]): everything up to
    and including the last separator, with trailing separators removed
    unless the head consists of separators only. *)
Fixpoint split_head_rev (r : pystr) : pystr :=
  match r with
  | [] => []
  | c :: r' => if (c =? slash)%N then r else split_head_rev r'
  end.

Definition os_path_dirname (p : pystr) : pystr :=
  let head := rev (split_head_rev (rev p)) in
  if forallb (fun c => (c =? slash)%N) head then head
  else rstrip (fun c => (c =? slash)%N) head.

(* ================================================================== *)
(** ** [pathlib] *)

(** [s.split("/")] *)
Fixpoint split_slash (cur : pystr) (s : pystr) : list pystr :=
  match s with
  | [] => [rev cur]
  | c :: s' =>
      if (c =? slash)%N then rev cur :: split_slash [] s'
      else split_slash (c :: cur) s'
  end.

(** The root of a POSIX path: "//" for exactly two leading slashes, "/" for
    one or for three and more, nothing otherwise. *)
Definition path_root (s : pystr) : pystr :=
  match s with
  | 47%N :: 47%N :: 47%N :: _ => [slash]
  | 47%N :: 47%N :: _ => [slash; slash]
  | 47%N :: _ => [slash]
  | _ => []
  end.

(** The parts of a path after its root: empty components and "." are
    dropped. *)
Definition path_parts (s : pystr) : list pystr :=
  filter (fun x => negb (str_eqb x []) && negb (str_eqb x (lit ".")))
         (split_slash [] s).

(** ["/".join(parts)] *)
Fixpoint join_slash (parts : list pystr) : pystr :=
  match parts with
  | [] => []
  | [x] => x
  | x :: rest => x ++ slash :: join_slash rest
  end.

(** [str(Path(s))] *)
Definition path_str (s : pystr) : pystr :=
  match path_root s, path_parts s with
  | [], [] => lit "."
  | root, parts => root ++ join_slash parts
  end.

(** [str(Path(p) / child)] *)
Definition path_div (p child : pystr) : pystr :=
  path_str (os_path_join p [child]).

(* ================================================================== *)
(** ** VDF documents *)

(** What [vdf.loads] and [vdf.binary_loads] return: strings, integers (binary
    VDF only) and nested mappings; [VList] is the Python list that
    [get_proton_appid] allows for an "aliases" field. *)
#[warnings="-register-all"] Inductive value : Type :=
| VStr (s : pystr)
| VInt (n : Z)
| VDict (d : list (pystr * value))
| VList (l : list value).

Definition dict := list (pystr * value).

Fixpoint dict_get {A} (d : list (pystr * A)) (k : pystr) : option A :=
  match d with
  | [] => None
  | (k', v) :: d' => if str_eqb k' k then Some v else dict_get d' k
  end.

(** [d[k] = v]: a key that is present keeps its position. *)
Fixpoint dict_set {A} (d : list (pystr * A)) (k : pystr) (v : A)
  : list (pystr * A) :=
  match d with
  | [] => [(k, v)]
  | (k', v') :: d' =>
      if str_eqb k' k then (k', v) :: d' else (k', v') :: dict_set d' k v
  end.

(** [{k.lower(): v for k, v in d.items()}] *)
Definition lower_keys {A} (d : list (pystr * A)) : list (pystr * A) :=
  fold_left (fun acc kv => dict_set acc (lower (fst kv)) (snd kv)) d [].

(** Truth value of a Python object. *)
Definition truthy (v : value) : bool :=
  match v with
  | VStr [] => false
  | VInt 0 => false
  | VDict [] => false
  | VList [] => false
  | _ => true
  end.

Definition truthy_opt (v : option value) : bool :=
  match v with
  | Some v => truthy v
  | None => false
  end.

(** [a == b]: mappings are compared without regard to order. *)
Fixpoint value_eqb (a b : value) : bool :=
  match a, b with
  | VStr s, VStr t => str_eqb s t
  | VInt n, VInt m => n =? m
  | VDict d, VDict e =>
      (List.length d =? List.length e)%nat &&
      forallb (fun kv =>
                 match dict_get e (fst kv) with
                 | Some w => value_eqb (snd kv) w
                 | None => false
                 end) d
  | VList l, VList m =>
      (fix all2 (l : list value) (m : list value) {struct l} : bool :=
         match l, m with
         | [], [] => true
         | x :: l', y :: m' => value_eqb x y && all2 l' m'
         | _, _ => false
         end) l m
  | _, _ => false
  end.

(** [v[k]] with a string key: KeyError on a mapping without the key,
    TypeError on a string, an integer or a list. *)
Definition subscript (v : value) (k : pystr) : res value :=
  match v with
  | VDict d =>
      match dict_get d k with
      | Some x => Ok x
      | None => Raise KeyError
      end
  | _ => Raise TypeError
  end.

(** [v.get(k, default)]: AttributeError on anything but a mapping. *)
Definition get_default (v : value) (k : pystr) (default : option value)
  : res (option value) :=
  match v with
  | VDict d =>
      match dict_get d k with
      | Some x => Ok (Some x)
      | None => Ok default
      end
  | _ => Raise AttributeError
  end.

(** [v.items()] *)
Definition items (v : value) : res dict :=
  match v with
  | VDict d => Ok d
  | _ => Raise AttributeError
  end.

(** A value used where the code needs a [str]. *)
Definition as_str (v : value) (e : exn) : res pystr :=
  match v with
  | VStr s => Ok s
  | _ => Raise e
  end.

(* ================================================================== *)
(** ** The world outside the module, and the effects performed on it *)

Record World : Type := {
  (** [os.environ.get(name)] *)
  environ : pystr -> option pystr;
  (** [os.path.expanduser("~")]; [Path.home()] is the path made of it *)
  home : pystr;
  (** [os.path.isdir] and [os.path.exists] *)
  isdir : pystr -> bool;
  exists_ : pystr -> bool;
  (** [open(p, "r")] followed by [read()]: OSError when the file cannot be
      opened, UnicodeDecodeError when its content is not valid text *)
  read_text : pystr -> res pystr;
  (** [open(p, "rb")] followed by [read()] *)
  read_bytes : pystr -> res pybytes;
  (** [glob.glob(pattern)] *)
  glob : pystr -> list pystr;
  (** [vdf.loads] and [vdf.binary_loads] *)
  vdf_loads : pystr -> res value;
  vdf_binary_loads : pybytes -> res value
}.

Inductive level : Type := Info | Warning | Error.

(** One effect: a look at the environment or at the file system, or a
    record handed to the logger (its format string; arguments are not
    kept). *)
Inductive event : Type :=
| EvEnviron (name : pystr)
| EvIsdir (p : pystr)
| EvExists (p : pystr)
| EvOpen (p : pystr)
| EvGlob (pattern : pystr)
| EvLog (l : level) (msg : string).

Definition M (A : Type) : Type := (res A * list event)%type.

Definition ret {A} (a : A) : M A := (Ok a, []).

Definition raise {A} (e : exn) : M A := (Raise e, []).

Definition bind {A B} (m : M A) (f : A -> M B) : M B :=
  match m with
  | (Ok a, t) => let (r, t') := f a in (r, t ++ t')
  | (Raise e, t) => (Raise e, t)
  end.

(** A pure computation that may raise, run inside [M]. *)
Definition lift {A} (r : res A) : M A := (r, []).

(** [try: m except E: h] for the exceptions [E] on which [handles] holds. *)
Definition try_except {A} (m : M A) (handles : exn -> bool) (h : M A) : M A :=
  match m with
  | (Raise e, t) => if handles e then let (r, t') := h in (r, t ++ t') else m
  | _ => m
  end.

(** [try: x = m except E: ...] where the handler leaves the function: the
    value of [m], or [None] when it raised an exception on which [handles]
    holds. *)
Definition catch {A} (m : M A) (handles : exn -> bool) : M (option A) :=
  match m with
  | (Ok a, t) => (Ok (Some a), t)
  | (Raise e, t) => if handles e then (Ok None, t) else (Raise e, t)
  end.

Declare Scope monad_scope.
Delimit Scope monad_scope with monad.
Notation "x <- m ;; k" := (bind m (fun x => k))
  (at level 61, m at next level, right associativity) : monad_scope.
Notation "m ;;; k" := (bind m (fun _ => k))
  (at level 61, right associativity) : monad_scope.

Definition result {A} (m : M A) : res A := fst m.
Definition effects {A} (m : M A) : list event := snd m.

Section Effects.
Variable w : World.

Definition os_environ_get (name : pystr) : M (option pystr) :=
  (Ok (environ w name), [EvEnviron name]).

Definition os_path_isdir (p : pystr) : M bool :=
  (Ok (isdir w p), [EvIsdir p]).

Definition os_path_exists (p : pystr) : M bool :=
  (Ok (exists_ w p), [EvExists p]).

Definition open_read (p : pystr) : M pystr :=
  (read_text w p, [EvOpen p]).

Definition open_read_bytes (p : pystr) : M pybytes :=
  (read_bytes w p, [EvOpen p]).

Definition glob_glob (pattern : pystr) : M (list pystr) :=
  (Ok (glob w pattern), [EvGlob pattern]).
End Effects.

Definition log (l : level) (msg : string) : M unit := (Ok tt, [EvLog l msg]).

(** [for x in xs: body], threading an accumulator. *)
Fixpoint for_each {A S} (xs : list A) (body : S -> A -> M S) (s : S) : M S :=
  match xs with
  | [] => ret s
  | x :: xs' => bind (body s x) (for_each xs' body)
  end.

(** The truth value of an optional string: [None] and [""] are false. *)
Definition nonempty (s : option pystr) : bool :=
  match s with
  | Some (_ :: _) => true
  | _ => false
  end.

(* ================================================================== *)
(** ** [SteamApp] *)

Record SteamApp : Type := {
  appid : option Z;
  name : pystr;
  prefix_path : option pystr;
  install_path : pystr
}.

(** [SteamApp.__init__].  Every caller passes an integer or nothing for
    [appid]; [int(appid) if appid else None] turns the integer 0 into
    [None]. *)
Definition SteamApp_init (name install_path : pystr)
    (prefix_path : option pystr) (appid : option Z) : SteamApp :=
  {| appid := match appid with
              | Some n => if n =? 0 then None else Some n
              | None => None
              end;
     name := name;
     prefix_path := prefix_path;
     install_path := install_path |}.

Section Steam.
Variable w : World.
Local Open Scope monad_scope.

(** [SteamApp.prefix_path_exists] *)
Definition prefix_path_exists (app : SteamApp) : M bool :=
  match prefix_path app with
  | Some ((_ :: _) as p) =>
      a <- os_path_exists w p ;;
      if a then os_path_exists w (os_path_join p [lit ".."; lit "pfx.lock"])
      else ret false
  | _ => ret false
  end.

(** [SteamApp.is_proton] *)
Definition is_proton (app : SteamApp) : M bool :=
  os_path_exists w (os_path_join (install_path app) [lit "proton"]).

(** [find_appid_proton_prefix].  The library paths are the values that
    [get_steam_lib_paths] returns; [os.path.join] raises TypeError on one
    that is not a string. *)
Fixpoint find_appid_proton_prefix (appid : Z) (steam_lib_paths : list value)
  : M (option pystr) :=
  match steam_lib_paths with
  | [] => ret None
  | path :: rest =>
      path <- lift (as_str path TypeError) ;;
      let p1 := os_path_join path
                  [lit "steamapps"; lit "compatdata"; str_of_int appid; lit "pfx"] in
      let p2 := os_path_join path
                  [lit "SteamApps"; lit "compatdata"; str_of_int appid; lit "pfx"] in
      a <- os_path_isdir w p1 ;;
      if a then ret (Some p1)
      else
        b <- os_path_isdir w p2 ;;
        if b then ret (Some p2)
        else find_appid_proton_prefix appid rest
  end.

(** [int(x)] for a value of a document. *)
Definition int_of_value (v : value) : res Z :=
  match v with
  | VStr s => int_of_str s
  | VInt n => Ok n
  | _ => Raise TypeError
  end.

(** [SteamApp.from_appmanifest].  The subtree is looked up under the key
    "AppState" as spelled; the keys inside it are lower-cased.  A record
    holds a string for its name: a "name" that is a nested mapping, which
    the source stores as it is (so that sorting the inventory fails later,
    if the record is compared), ends the call here with TypeError.  What is
    stated of an inventory that is returned is therefore stated of
    manifests whose names are strings ([string_names]). *)
Definition from_appmanifest (path : pystr) (steam_lib_paths : list value)
  : M (option SteamApp) :=
  content <- catch (open_read w path) (exn_eqb UnicodeDecodeError) ;;
  match content with
  | None => log Warning "Skipping malformed appmanifest {}" ;;; ret None
  | Some content =>
  vdf_data <- catch (lift (vdf_loads w content)) (exn_eqb SyntaxError) ;;
  match vdf_data with
  | None => log Warning "Skipping malformed appmanifest {}" ;;; ret None
  | Some vdf_data =>
  app_state <- catch (lift (subscript vdf_data (lit "AppState")))
                     (exn_eqb KeyError) ;;
  match app_state with
  | None => log Info "Skipping empty appmanifest {}" ;;; ret None
  | Some app_state =>
      app_state <- lift (items app_state) ;;
      let app_state := VDict (lower_keys app_state) in
      appid_v <- lift (subscript app_state (lit "appid")) ;;
      appid <- lift (int_of_value appid_v) ;;
      name_v <- lift (subscript app_state (lit "name")) ;;
      name <- lift (as_str name_v TypeError) ;;
      prefix_path <- find_appid_proton_prefix appid steam_lib_paths ;;
      installdir_v <- lift (subscript app_state (lit "installdir")) ;;
      installdir <- lift (as_str installdir_v TypeError) ;;
      let install_path :=
        os_path_join (os_path_dirname path) [lit "common"; installdir] in
      ret (Some (SteamApp_init name install_path prefix_path (Some appid)))
  end end end.

(** [COMMON_STEAM_DIRS] *)
Definition COMMON_STEAM_DIRS : list pystr :=
  [os_path_join (lit ".steam") [lit "steam"];
   os_path_join (lit ".local") [lit "share"; lit "Steam"]].

Definition has_steamapps_dir (path : pystr) : M bool :=
  a <- os_path_isdir w (os_path_join path [lit "steamapps"]) ;;
  if a then ret true
  else os_path_isdir w (os_path_join path [lit "SteamApps"]).

Definition has_runtime_dir (path : pystr) : M bool :=
  os_path_isdir w (os_path_join path [lit "ubuntu12_32"]).

(** The loop of [find_steam_path] over the common directories.
    [Path.home() / steam_path] is a path of [pathlib]: what is probed and
    returned is its normalised form. *)
Fixpoint probe_common_dirs (dirs : list pystr) (steam_root : option pystr)
  : M (option pystr * option pystr) :=
  match dirs with
  | [] => ret (None, None)
  | d :: rest =>
      let steam_path := path_div (home w) d in
      a <- has_steamapps_dir steam_path ;;
      if a then
        log Info "Found Steam directory at {}. You can also define Steam directory manually using $STEAM_DIR" ;;;
        let steam_root :=
          if nonempty steam_root then steam_root else Some steam_path in
        ret (Some steam_path, steam_root)
      else probe_common_dirs rest steam_root
  end.

(** [find_steam_path] *)
Definition find_steam_path : M (option pystr * option pystr) :=
  let steam_root := os_path_join (home w) [lit ".steam"; lit "root"] in
  r <- os_path_isdir w (os_path_join steam_root [lit "ubuntu12_32"]) ;;
  let steam_root := if r then Some steam_root else None in
  e <- os_environ_get w (lit "STEAM_DIR") ;;
  if nonempty e then
    e <- os_environ_get w (lit "STEAM_DIR") ;;
    match e with
    | Some steam_path =>
        a <- has_steamapps_dir steam_path ;;
        b <- (if a then has_runtime_dir steam_path else ret false) ;;
        if b then
          log Info "Found a valid Steam installation at %s." ;;;
          ret (Some steam_path, Some steam_path)
        else
          log Error "$STEAM_DIR was provided but didn't point to a valid Steam installation." ;;;
          ret (None, None)
    | None => raise TypeError
    end
  else probe_common_dirs COMMON_STEAM_DIRS steam_root.

(** [find_steam_runtime_path] *)
Definition find_steam_runtime_path (steam_root : pystr) : M (option pystr) :=
  e <- os_environ_get w (lit "STEAM_RUNTIME") ;;
  let env_steam_runtime := match e with Some s => s | None => [] end in
  if str_eqb env_steam_runtime (lit "0") then
    log Info "STEAM_RUNTIME is 0. Disabling Steam Runtime." ;;; ret None
  else
    d <- os_path_isdir w env_steam_runtime ;;
    if d then
      log Info "Using custom Steam Runtime at %s" ;;;
      ret (Some env_steam_runtime)
    else if str_eqb env_steam_runtime (lit "1")
            || str_eqb env_steam_runtime [] then
      let steam_runtime_path :=
        os_path_join steam_root [lit "ubuntu12_32"; lit "steam-runtime"] in
      log Info "Using default Steam Runtime at %s" ;;;
      ret (Some steam_runtime_path)
    else
      log Error "Path in STEAM_RUNTIME doesn't point to a valid Steam Runtime!" ;;;
      ret None.

(* ---------------------------------------------------------------- *)
(** *** appinfo.vdf *)

(** [data[i:j]] *)
Definition slice {A} (data : list A) (i j : Z) : list A :=
  let len := Z.of_nat (List.length data) in
  let norm k := if k <? 0 then Z.max 0 (k + len) else Z.min k len in
  let i := norm i in
  let j := norm j in
  firstn (Z.to_nat (j - i)) (skipn (Z.to_nat i) data).

(** An unsigned little-endian integer, as [struct] reads "<L" and "<Q". *)
Definition le_decode (bs : pybytes) : Z :=
  fold_right (fun b acc => Z.of_N (Byte.to_N b) + 256 * acc) 0 bs.

(** [APPINFO_STRUCT_HEADER = "<4sL"]: 8 bytes. *)
Definition header_size : Z := 8.

Definition unpack_header (bs : pybytes) : res (pybytes * Z) :=
  if (List.length bs =? 8)%nat
  then Ok (firstn 4 bs, le_decode (slice bs 4 8))
  else Raise StructError.

(** [APPINFO_STRUCT_SECTION = "<LLLLQ20sL"]: 48 bytes. *)
Definition section_size : Z := 48.

Record section_fields : Type := {
  sec_appid : Z;
  entry_size : Z;
  infostate : Z;
  last_updated : Z;
  access_token : Z;
  sha_hash : pybytes;
  change_number : Z
}.

Definition unpack_section (bs : pybytes) : res section_fields :=
  if (List.length bs =? 48)%nat
  then Ok {| sec_appid := le_decode (slice bs 0 4);
             entry_size := le_decode (slice bs 4 8);
             infostate := le_decode (slice bs 8 12);
             last_updated := le_decode (slice bs 12 16);
             access_token := le_decode (slice bs 16 24);
             sha_hash := slice bs 24 44;
             change_number := le_decode (slice bs 44 48) |}
  else Raise StructError.

(** The magic number [b"'DV\x07"]. *)
Definition appinfo_magic : pybytes :=
  [Byte.x27; Byte.x44; Byte.x56; Byte.x07].

Definition bytes_eqb (a b : pybytes) : bool :=
  if list_eq_dec Byte.byte_eq_dec a b then true else false.

(** One turn of the [while True] loop of [get_appinfo_sections], from
    cursor [i] with the sections read so far: where the cursor stands
    afterwards, and the sections. *)
Definition read_section (data : pybytes) (i : Z) (sections : list value)
  : res (Z * list value) :=
  (let? f := unpack_section (slice data i (i + section_size)) in
   let vdf_section_size := entry_size f - 40 in
   let i := i + section_size in
   let? sections :=
     match vdf_binary_loads w (slice data i (i + vdf_section_size)) with
     | Ok vdf_d => Ok (sections ++ [vdf_d])
     | Raise UnicodeDecodeError => Ok sections
     | Raise e => Raise e
     end in
   let i := i + vdf_section_size in
   Ok (i, sections))%res.

(** The loop itself.  Every turn moves the cursor forward by at least 8
    bytes and a turn that starts less than 48 bytes before the end
    raises, so [length data] turns are never used up
    ([sections_loop_fuel]); [None] stands for fuel running out. *)
Fixpoint sections_loop (fuel : nat) (data : pybytes) (i : Z)
    (sections : list value) : option (res (list value)) :=
  match fuel with
  | O => None
  | S fuel' =>
      match read_section data i sections with
      | Raise e => Some (Raise e)
      | Ok (i', sections') =>
          if i' =? Z.of_nat (List.length data) - 4
          then Some (Ok sections')
          else sections_loop fuel' data i' sections'
      end
  end.

(** The body of [get_appinfo_sections] on the bytes of the file. *)
Definition parse_appinfo (data : pybytes) : res (list value) :=
  (let i := 0 in
   let? hdr := unpack_header (slice data 0 header_size) in
   let '(magic, universe) := hdr in
   let i := i + header_size in
   if negb (bytes_eqb magic appinfo_magic) then Raise SyntaxError
   else
     match sections_loop (S (List.length data)) data i [] with
     | Some r => r
     | None => Raise StructError
     end)%res.

(** [get_appinfo_sections] *)
Definition get_appinfo_sections (path : pystr) : M (list value) :=
  data <- open_read_bytes w path ;;
  lift (parse_appinfo data).

(** [x in entry] for the string "aliases". *)
Definition contains_key (entry : value) (k : pystr) : res bool :=
  match entry with
  | VDict d => Ok (match dict_get d k with Some _ => true | None => false end)
  | VStr s => Ok (str_contains k s)
  | VList l => Ok (existsb (value_eqb (VStr k)) l)
  | VInt _ => Raise TypeError
  end.

(** The names under which one entry of "compat_tools" is known. *)
Definition entry_aliases (default_name : pystr) (entry : value)
  : res (list value) :=
  (let aliases := [VStr default_name] in
   let? has := contains_key entry (lit "aliases") in
   if has then
     let? a := subscript entry (lit "aliases") in
     match a with
     | VStr _ => Ok (aliases ++ [a])
     | VList l => Ok (aliases ++ l)
     | _ => Raise TypeError
     end
   else Ok aliases)%res.

(** The inner loop of [get_proton_appid]: [Some v] when it returns [v]. *)
Fixpoint search_compat_tools (compat_tool_name : value) (compat_tools : dict)
  : res (option value) :=
  match compat_tools with
  | [] => Ok None
  | (default_name, entry) :: rest =>
      (let? aliases := entry_aliases default_name entry in
       if existsb (value_eqb compat_tool_name) aliases then
         let? r := subscript entry (lit "appid") in Ok (Some r)
       else search_compat_tools compat_tool_name rest)%res
  end.

Definition get_or_empty (v : value) (k : pystr) : res value :=
  (let? r := get_default v k (Some (VDict [])) in
   match r with
   | Some x => Ok x
   | None => Ok (VDict [])
   end)%res.

(** The outer loop of [get_proton_appid]. *)
Fixpoint search_sections (compat_tool_name : value) (vdf_sections : list value)
  : res (option value) :=
  match vdf_sections with
  | [] => Ok None
  | section :: rest =>
      (let? a := get_or_empty section (lit "appinfo") in
       let? e := get_or_empty a (lit "extended") in
       let? c := get_default e (lit "compat_tools") None in
       if negb (truthy_opt c) then search_sections compat_tool_name rest
       else
         let? a := subscript section (lit "appinfo") in
         let? e := subscript a (lit "extended") in
         let? compat_tools := subscript e (lit "compat_tools") in
         let? its := items compat_tools in
         let? r := search_compat_tools compat_tool_name its in
         match r with
         | Some v => Ok (Some v)
         | None => search_sections compat_tool_name rest
         end)%res
  end.

(** [get_proton_appid] *)
Definition get_proton_appid (compat_tool_name : value) (appinfo_path : pystr)
  : M (option value) :=
  vdf_sections <- get_appinfo_sections appinfo_path ;;
  r <- lift (search_sections compat_tool_name vdf_sections) ;;
  match r with
  | Some v => ret (Some v)
  | None =>
      log Error "Could not find the Steam Play manifest in appinfo.vdf" ;;;
      ret None
  end.

(* ---------------------------------------------------------------- *)
(** *** The Proton installation in use *)

(** [next(app for app in steam_apps if p(app))], [None] on StopIteration. *)
Definition first_app (p : SteamApp -> bool) (steam_apps : list SteamApp)
  : option SteamApp := find p steam_apps.

(** [app.name == x] for a value of a document. *)
Definition name_is (x : value) (app : SteamApp) : bool :=
  match x with
  | VStr s => str_eqb (name app) s
  | _ => false
  end.

(** [app.appid == x] for a value of a document. *)
Definition appid_is (x : value) (app : SteamApp) : bool :=
  match x, appid app with
  | VInt n, Some m => m =? n
  | _, _ => false
  end.

(** [vdf_data["InstallConfigStore"]["Software"]["Valve"]["Steam"][key]],
    an empty mapping on KeyError. *)
Definition steam_mapping (vdf_data : value) (key : pystr) : res value :=
  let r :=
    (let? a := subscript vdf_data (lit "InstallConfigStore") in
     let? b := subscript a (lit "Software") in
     let? c := subscript b (lit "Valve") in
     let? d := subscript c (lit "Steam") in
     subscript d key)%res in
  match r with
  | Raise KeyError => Ok (VDict [])
  | _ => r
  end.

(** [mapping.get(key, {}).get("name", None)] *)
Definition mapping_name (mapping : value) (key : pystr) : res (option value) :=
  (let? e := get_or_empty mapping key in
   get_default e (lit "name") None)%res.

(** [potential_names]: the names in order of priority. *)
Definition potential_names (compat_tool_mapping tool_mapping : value)
    (appid : option Z) : res (list (option value)) :=
  (let? n1 := mapping_name compat_tool_mapping (str_of_opt_int appid) in
   let? n2 := mapping_name compat_tool_mapping (lit "0") in
   let? n3 := mapping_name tool_mapping (str_of_opt_int appid) in
   let? n4 := mapping_name tool_mapping (lit "0") in
   Ok [n1; n2; n3; n4])%res.

(** [next(name for name in potential_names if name)] *)
Definition first_valid (names : list (option value)) : option value :=
  match find truthy_opt names with
  | Some (Some v) => Some v
  | _ => None
  end.

(** The second half of [find_steam_proton_app], once [compat_tool_name]
    is known: the app of that name, or else the app whose id appinfo.vdf
    gives for the name. *)
Definition find_by_compat_tool_name (steam_path : pystr)
    (steam_apps : list SteamApp) (compat_tool_name : value)
  : M (option SteamApp) :=
  match first_app (name_is compat_tool_name) steam_apps with
  | Some app =>
      log Info "Found active custom Proton installation: {}" ;;;
      ret (Some app)
  | None =>
      let appinfo_path :=
        os_path_join steam_path [lit "appcache"; lit "appinfo.vdf"] in
      proton_appid <- get_proton_appid compat_tool_name appinfo_path ;;
      if negb (truthy_opt proton_appid) then
        log Error "Could not find Proton's App ID from appinfo.vdf" ;;;
        ret None
      else
        match proton_appid with
        | Some proton_appid =>
            match first_app (appid_is proton_appid) steam_apps with
            | Some app =>
                log Info "Found active Proton installation: {}" ;;;
                ret (Some app)
            | None => ret None
            end
        | None => ret None
        end
  end.

(** [find_steam_proton_app] *)
Definition find_steam_proton_app (steam_path : pystr)
    (steam_apps : list SteamApp) (appid : option Z) : M (option SteamApp) :=
  let config_vdf_path :=
    os_path_join steam_path [lit "config"; lit "config.vdf"] in
  content <- open_read w config_vdf_path ;;
  vdf_data <- lift (vdf_loads w content) ;;
  tool_mapping <- lift (steam_mapping vdf_data (lit "ToolMapping")) ;;
  compat_tool_mapping <- lift (steam_mapping vdf_data (lit "CompatToolMapping")) ;;
  names <- lift (potential_names compat_tool_mapping tool_mapping appid) ;;
  match first_valid names with
  | None =>
      log Error "No Proton installation found in config.vdf" ;;; ret None
  | Some compat_tool_name =>
      find_by_compat_tool_name steam_path steam_apps compat_tool_name
  end.

(** [find_proton_app] *)
Definition find_proton_app (steam_path : pystr) (steam_apps : list SteamApp)
    (appid : option Z) : M (option SteamApp) :=
  e <- os_environ_get w (lit "PROTON_VERSION") ;;
  if nonempty e then
    proton_version <- os_environ_get w (lit "PROTON_VERSION") ;;
    match first_app (fun app =>
                       match proton_version with
                       | Some v => str_eqb (name app) v
                       | None => false
                       end) steam_apps with
    | Some proton_app =>
        log Info "Found requested Proton version: {}" ;;;
        ret (Some proton_app)
    | None =>
        log Error "$PROTON_VERSION was set but matching Proton installation could not be found." ;;;
        ret None
    end
  else
    proton_app <- find_steam_proton_app steam_path steam_apps appid ;;
    match proton_app with
    | Some _ => ret proton_app
    | None =>
        log Error "Active Proton installation could not be found automatically." ;;;
        ret proton_app
    end.

(* ---------------------------------------------------------------- *)
(** *** Library folders *)

(** [parse_library_folders]: the values of the keys that are digit
    strings, in the order in which the mapping yields them. *)
Definition parse_library_folders (data : pystr) : M (list value) :=
  vdf_data <- lift (vdf_loads w data) ;;
  lf <- lift (subscript vdf_data (lit "LibraryFolders")) ;;
  its <- lift (items lf) ;;
  let library_folders :=
    map snd (filter (fun kv => isdigit (fst kv)) its) in
  log Info "Found {} Steam library folders" ;;;
  log Info "Steam library folders: %s" ;;;
  ret library_folders.

(** [get_steam_lib_paths].  [folders_vdf_path] is bound only when one of
    the two directories exists; reading it unbound raises
    UnboundLocalError, which [except OSError] does not catch. *)
Definition get_steam_lib_paths (steam_path : pystr) : M (list value) :=
  a <- os_path_isdir w (os_path_join steam_path [lit "steamapps"]) ;;
  folders_vdf_path <-
    (if a then
       ret (Some (os_path_join steam_path
                    [lit "steamapps"; lit "libraryfolders.vdf"]))
     else
       b <- os_path_isdir w (os_path_join steam_path [lit "SteamApps"]) ;;
       if b then
         ret (Some (os_path_join steam_path
                      [lit "SteamApps"; lit "libraryfolders.vdf"]))
       else ret None) ;;
  library_folders <-
    try_except
      (match folders_vdf_path with
       | Some p => data <- open_read w p ;; parse_library_folders data
       | None => raise UnboundLocalError
       end)
      (exn_eqb OSError)
      (ret []) ;;
  ret (VStr steam_path :: library_folders).

(* ---------------------------------------------------------------- *)
(** *** Custom Proton installations and non-Steam shortcuts *)

(** [list(d.keys())[0]] *)
Definition first_key (v : value) : res pystr :=
  match v with
  | VDict ((k, _) :: _) => Ok k
  | VDict [] => Raise IndexError
  | _ => Raise AttributeError
  end.

(** The body of the loop of [get_custom_proton_installations] for one
    compatibilitytool.vdf: the app it describes, if it is a tool from
    Windows to Linux. *)
Definition custom_proton_app (comp_root vdf_path : pystr)
  : M (option SteamApp) :=
  content <- open_read w vdf_path ;;
  vdf_data <- lift (vdf_loads w content) ;;
  ct <- lift (subscript vdf_data (lit "compatibilitytools")) ;;
  tools <- lift (subscript ct (lit "compat_tools")) ;;
  internal_name <- lift (first_key tools) ;;
  tool_info <- lift (subscript tools internal_name) ;;
  install_path <- lift (subscript tool_info (lit "install_path")) ;;
  from_oslist <- lift (subscript tool_info (lit "from_oslist")) ;;
  to_oslist <- lift (subscript tool_info (lit "to_oslist")) ;;
  if negb (value_eqb from_oslist (VStr (lit "windows")))
     || negb (value_eqb to_oslist (VStr (lit "linux")))
  then ret None
  else
    install_path <-
      (if value_eqb install_path (VStr (lit "."))
       then ret (os_path_dirname vdf_path)
       else
         p <- lift (as_str install_path TypeError) ;;
         ret (os_path_join comp_root [p])) ;;
    ret (Some (SteamApp_init internal_name install_path None None)).

(** [get_custom_proton_installations] *)
Definition get_custom_proton_installations (steam_root : pystr)
  : M (list SteamApp) :=
  let comp_root := os_path_join steam_root [lit "compatibilitytools.d"] in
  d <- os_path_isdir w comp_root ;;
  if negb d then ret []
  else
    f1 <- glob_glob w (os_path_join comp_root [lit "*"; lit "compatibilitytool.vdf"]) ;;
    f2 <- glob_glob w (os_path_join comp_root [lit "compatibilitytool.vdf"]) ;;
    for_each (f1 ++ f2)
      (fun custom_proton_apps vdf_path =>
         r <- custom_proton_app comp_root vdf_path ;;
         match r with
         | Some app => ret (custom_proton_apps ++ [app])
         | None => ret custom_proton_apps
         end)
      [].

(** [a > b] on two values used as sort keys: strings with strings and
    integers with integers; TypeError for a mapping or for two values of
    different types.  (Two lists are not compared here: neither
    [vdf.loads] nor [dict.get] produces one.) *)
Definition value_gtb (a b : value) : res bool :=
  match a, b with
  | VStr s, VStr t => Ok (str_ltb t s)
  | VInt n, VInt m => Ok (m <? n)
  | _, _ => Raise TypeError
  end.

(** [max(users, key=lambda u: u["timestamp"])]: the first user with the
    greatest timestamp.  A user is its (steamid3, account_name,
    timestamp). *)
Fixpoint max_by_timestamp (best : Z * value * value)
    (users : list (Z * value * value)) : res (Z * value * value) :=
  match users with
  | [] => Ok best
  | u :: rest =>
      (let? g := value_gtb (snd u) (snd best) in
       max_by_timestamp (if g then u else best) rest)%res
  end.

Definition to_steamid3 (steamid64 : pystr) : res Z :=
  (let? n := int_of_str steamid64 in Ok (Z.land n 0xffffffff))%res.

(** The list comprehension of [find_current_steamid3]. *)
Fixpoint login_users (its : dict) : res (list (Z * value * value)) :=
  match its with
  | [] => Ok []
  | (user_id, user_data) :: rest =>
      (let? steamid3 := to_steamid3 user_id in
       let? account_name := subscript user_data (lit "AccountName") in
       let? timestamp := get_default user_data (lit "Timestamp") (Some (VInt 0)) in
       let timestamp := match timestamp with Some t => t | None => VInt 0 end in
       let? users := login_users rest in
       Ok ((steamid3, account_name, timestamp) :: users))%res
  end.

(** [find_current_steamid3] *)
Definition find_current_steamid3 (steam_path : pystr) : M (option Z) :=
  let loginusers_path :=
    os_path_join steam_path [lit "config"; lit "loginusers.vdf"] in
  vdf_data <- catch (content <- open_read w loginusers_path ;;
                     lift (vdf_loads w content))
                    (exn_eqb OSError) ;;
  match vdf_data with
  | None => ret None
  | Some vdf_data =>
      us <- lift (subscript vdf_data (lit "users")) ;;
      its <- lift (items us) ;;
      users <- lift (login_users its) ;;
      match users with
      | [] => ret None
      | u :: rest =>
          user <- lift (max_by_timestamp u rest) ;;
          log Info "Currently logged-in Steam user: %s" ;;;
          ret (Some (fst (fst user)))
      end
  end.

Definition is_quote (c : N) : bool := (c =? 34)%N.

(** The body of the loop of [get_custom_windows_shortcuts] for one
    shortcut. *)
Definition shortcut_app (steam_path shortcut_id : pystr) (shortcut_data : value)
  : M (option SteamApp) :=
  its <- lift (items shortcut_data) ;;
  let shortcut_data := VDict (lower_keys its) in
  shortcut_id <- lift (int_of_str shortcut_id) ;;
  exe <- lift (subscript shortcut_data (lit "exe")) ;;
  appname <- lift (subscript shortcut_data (lit "appname")) ;;
  target <- lift (as_str exe AttributeError) ;;
  name <- lift (as_str appname AttributeError) ;;
  appid <- lift (get_appid_from_shortcut target name) ;;
  let prefix_path :=
    os_path_join steam_path
      [lit "steamapps"; lit "compatdata"; str_of_int appid; lit "pfx"] in
  startdir <- lift (subscript shortcut_data (lit "startdir")) ;;
  startdir <- lift (as_str startdir AttributeError) ;;
  let install_path := strip is_quote startdir in
  d <- os_path_isdir w prefix_path ;;
  if negb d then ret None
  else
    ret (Some (SteamApp_init (lit "Non-Steam shortcut: " ++ name)
                 install_path (Some prefix_path) (Some appid))).

(** [get_custom_windows_shortcuts] *)
Definition get_custom_windows_shortcuts (steam_path : pystr)
  : M (list SteamApp) :=
  steamid3 <- find_current_steamid3 steam_path ;;
  let shortcuts_path :=
    os_path_join steam_path
      [lit "userdata"; str_of_opt_int steamid3; lit "config"; lit "shortcuts.vdf"] in
  vdf_data <- catch (content <- open_read_bytes w shortcuts_path ;;
                     lift (vdf_binary_loads w content))
                    (exn_eqb OSError) ;;
  match vdf_data with
  | None =>
      log Info "Couldn't find custom shortcuts. Maybe none have been created yet?" ;;;
      ret []
  | Some vdf_data =>
      sc <- lift (subscript vdf_data (lit "shortcuts")) ;;
      its <- lift (items sc) ;;
      steam_apps <-
        for_each its
          (fun steam_apps kv =>
             r <- shortcut_app steam_path (fst kv) (snd kv) ;;
             match r with
             | Some app => ret (steam_apps ++ [app])
             | None => ret steam_apps
             end)
          [] ;;
      log Info "Found %d Steam shortcuts running under Proton" ;;;
      ret steam_apps
  end.

(* ---------------------------------------------------------------- *)
(** *** The inventory *)

(** The inner loop of [get_steam_apps] over the manifests of a library. *)
Definition scan_manifests (steam_lib_paths : list value)
    (appmanifest_paths : list pystr) (steam_apps : list SteamApp)
  : M (list SteamApp) :=
  for_each appmanifest_paths
    (fun steam_apps manifest_path =>
       log Info "Checking appmanifest %s" ;;;
       steam_app <- from_appmanifest manifest_path steam_lib_paths ;;
       match steam_app with
       | Some app =>
           _ <- prefix_path_exists app ;;
           log Info "Found app %s. Has prefix: %s." ;;;
           ret (steam_apps ++ [app])
       | None => ret steam_apps
       end)
    steam_apps.

(** The outer loop of [get_steam_apps] over the libraries. *)
Definition scan_libraries (steam_lib_paths : list value)
  : M (list SteamApp) :=
  for_each steam_lib_paths
    (fun steam_apps path =>
       path <- lift (as_str path TypeError) ;;
       a <- os_path_isdir w (os_path_join path [lit "steamapps"]) ;;
       appmanifest_paths <-
         (if a then
            glob_glob w (os_path_join path [lit "steamapps"; lit "appmanifest_*.acf"])
          else
            b <- os_path_isdir w (os_path_join path [lit "SteamApps"]) ;;
            if b then
              glob_glob w (os_path_join path [lit "SteamApps"; lit "appmanifest_*.acf"])
            else ret []) ;;
       scan_manifests steam_lib_paths appmanifest_paths steam_apps)
    [].

(** [app.prefix_path_exists or app.is_proton] *)
Definition launched_or_proton (app : SteamApp) : M bool :=
  a <- prefix_path_exists app ;;
  if a then ret true else is_proton app.

(** [[app for app in steam_apps if app.prefix_path_exists or app.is_proton]] *)
Fixpoint keep_launched (steam_apps : list SteamApp) : M (list SteamApp) :=
  match steam_apps with
  | [] => ret []
  | app :: rest =>
      k <- launched_or_proton app ;;
      kept <- keep_launched rest ;;
      ret (if k then app :: kept else kept)
  end.

(** [steam_apps.sort(key=lambda app: app.name)]: a stable sort on the
    names.  (CPython's algorithm is another one; a stable sort has one
    result only.) *)
Fixpoint insert_by_name (app : SteamApp) (sorted : list SteamApp)
  : list SteamApp :=
  match sorted with
  | [] => [app]
  | b :: rest =>
      if str_leb (name app) (name b) then app :: sorted
      else b :: insert_by_name app rest
  end.

Definition sort_by_name (steam_apps : list SteamApp) : list SteamApp :=
  fold_right insert_by_name [] steam_apps.

(** [get_steam_apps] *)
Definition get_steam_apps (steam_root steam_path : pystr)
    (steam_lib_paths : list value) : M (list SteamApp) :=
  steam_apps <- scan_libraries steam_lib_paths ;;
  custom <- get_custom_proton_installations steam_root ;;
  let steam_apps := steam_apps ++ custom in
  shortcuts <- get_custom_windows_shortcuts steam_path ;;
  let steam_apps := steam_apps ++ shortcuts in
  steam_apps <- keep_launched steam_apps ;;
  let steam_apps := sort_by_name steam_apps in
  ret steam_apps.

End Steam.

(* ================================================================== *)
(** ** Notions used in the statements *)

(** The number a digit string denotes. *)
Definition key_value (k : pystr) : Z :=
  fold_left (fun acc c => 10 * acc + (Z.of_N c - 48)) k 0.

(** The entries of a mapping under digit-string keys. *)
Definition digit_entries (its : dict) : dict :=
  filter (fun kv => isdigit (fst kv)) its.

(** [str.isascii()] *)
Definition isascii (s : pystr) : bool := forallb (fun c => (c <? 128)%N) s.

(** Every key of the mapping is a string of ASCII characters. *)
Definition ascii_keys (its : dict) : bool :=
  forallb (fun kv => isascii (fst kv)) its.

Definition key_le (a b : pystr * value) : Prop :=
  key_value (fst a) <= key_value (fst b).

(** Entries put in ascending order of the number their key denotes (a
    stable insertion sort). *)
Fixpoint insert_by_key (e : pystr * value) (sorted : dict) : dict :=
  match sorted with
  | [] => [e]
  | b :: rest =>
      if key_value (fst e) <=? key_value (fst b) then e :: sorted
      else b :: insert_by_key e rest
  end.

Definition sort_by_key (its : dict) : dict :=
  fold_right insert_by_key [] its.

(** The library folders of a manifest in ascending order of their numeric
    key, whatever the order of the mapping. *)
Definition folders_by_numeric_key (its : dict) : list value :=
  map snd (sort_by_key (digit_entries its)).

(** The last entry of [its] whose key, lower-cased, is [k]: what a lookup
    that ignores the case of the keys finds. *)
Definition get_ignoring_case (its : dict) (k : pystr) : option value :=
  fold_left (fun acc kv => if str_eqb (lower (fst kv)) k then Some (snd kv) else acc)
            its None.

Definition is_str (v : value) : bool :=
  match v with
  | VStr _ => true
  | _ => false
  end.

(** ["name"] under a key of a mapping of mappings. *)
Definition candidate (mapping : dict) (key : pystr) : option value :=
  match dict_get mapping key with
  | Some (VDict e) => dict_get e (lit "name")
  | _ => None
  end.

Definition is_dict (v : value) : bool :=
  match v with
  | VDict _ => true
  | _ => false
  end.

(** A computation that returns, whatever it returns. *)
Definition returns {A} (r : res A) : Prop :=
  match r with
  | Ok _ => True
  | Raise _ => False
  end.

(** What is put in front of the effects of a computation. *)
Definition after {A} (t : list event) (m : M A) : M A :=
  (fst m, t ++ snd m).

(* ================================================================== *)
(** ** Example worlds *)

(** A machine with nothing on it, and a parser that accepts nothing. *)
Definition empty_world : World :=
  {| environ := fun _ => None;
     home := lit "/home/user";
     isdir := fun _ => false;
     exists_ := fun _ => false;
     read_text := fun _ => Raise OSError;
     read_bytes := fun _ => Raise OSError;
     glob := fun _ => [];
     vdf_loads := fun _ => Raise SyntaxError;
     vdf_binary_loads := fun _ => Raise SyntaxError |}.

(** The same machine, where the home directory is spelt with a doubled
    separator. *)
Definition world_home_slashes : World :=
  {| environ := fun _ => None;
     home := lit "/home//user";
     isdir := fun _ => false;
     exists_ := fun _ => false;
     read_text := fun _ => Raise OSError;
     read_bytes := fun _ => Raise OSError;
     glob := fun _ => [];
     vdf_loads := fun _ => Raise SyntaxError;
     vdf_binary_loads := fun _ => Raise SyntaxError |}.

(** [with_text w p c v]: the world [w] with one more text file, of path
    [p] and content [c], which [vdf.loads] decodes as [v]. *)
Definition with_text (w : World) (p c : pystr) (v : value) : World :=
  {| environ := environ w;
     home := home w;
     isdir := isdir w;
     exists_ := exists_ w;
     read_text := fun q => if str_eqb q p then Ok c else read_text w q;
     read_bytes := read_bytes w;
     glob := glob w;
     vdf_loads := fun s => if str_eqb s c then Ok v else vdf_loads w s;
     vdf_binary_loads := vdf_binary_loads w |}.

(** [with_dirs w ds]: the world [w] with the directories [ds] (which also
    exist). *)
Definition with_dirs (w : World) (ds : list pystr) : World :=
  {| environ := environ w;
     home := home w;
     isdir := fun q => existsb (str_eqb q) ds || isdir w q;
     exists_ := fun q => existsb (str_eqb q) ds || exists_ w q;
     read_text := read_text w;
     read_bytes := read_bytes w;
     glob := glob w;
     vdf_loads := vdf_loads w;
     vdf_binary_loads := vdf_binary_loads w |}.

(** [with_files w fs]: the world [w] where the paths [fs] exist too. *)
Definition with_files (w : World) (fs : list pystr) : World :=
  {| environ := environ w;
     home := home w;
     isdir := isdir w;
     exists_ := fun q => existsb (str_eqb q) fs || exists_ w q;
     read_text := read_text w;
     read_bytes := read_bytes w;
     glob := glob w;
     vdf_loads := vdf_loads w;
     vdf_binary_loads := vdf_binary_loads w |}.

(** [with_env w n v]: the world [w] with the variable [n] set to [v]. *)
Definition with_env (w : World) (n v : pystr) : World :=
  {| environ := fun q => if str_eqb q n then Some v else environ w q;
     home := home w;
     isdir := isdir w;
     exists_ := exists_ w;
     read_text := read_text w;
     read_bytes := read_bytes w;
     glob := glob w;
     vdf_loads := vdf_loads w;
     vdf_binary_loads := vdf_binary_loads w |}.

(** [with_glob w pat ps]: the world [w] where the pattern [pat] matches the
    paths [ps]. *)
Definition with_glob (w : World) (pat : pystr) (ps : list pystr) : World :=
  {| environ := environ w;
     home := home w;
     isdir := isdir w;
     exists_ := exists_ w;
     read_text := read_text w;
     read_bytes := read_bytes w;
     glob := fun q => if str_eqb q pat then ps else glob w q;
     vdf_loads := vdf_loads w;
     vdf_binary_loads := vdf_binary_loads w |}.

(** A libraryfolders.vdf whose mapping yields the key "1" before the key
    "0", and the same manifest with the two entries the other way round. *)
Definition folders_1_0 : value :=
  VDict [(lit "LibraryFolders",
          VDict [(lit "TimeNextStatsReport", VStr (lit "1561832478"));
                 (lit "1", VStr (lit "/mnt/b"));
                 (lit "0", VStr (lit "/mnt/a"))])].

Definition folders_0_1 : value :=
  VDict [(lit "LibraryFolders",
          VDict [(lit "TimeNextStatsReport", VStr (lit "1561832478"));
                 (lit "0", VStr (lit "/mnt/a"));
                 (lit "1", VStr (lit "/mnt/b"))])].

Definition world_folders_1_0 : World :=
  with_text empty_world (lit "/steam/steamapps/libraryfolders.vdf")
            (lit "<libraryfolders 1 0>") folders_1_0.

Definition world_folders_0_1 : World :=
  with_text empty_world (lit "/steam/steamapps/libraryfolders.vdf")
            (lit "<libraryfolders 0 1>") folders_0_1.

(** Two appmanifest files of the same app: one spells the top-level key
    "AppState" and its fields in mixed case, the other spells the top-level
    key in lower case. *)
Definition manifest_path : pystr := lit "/steam/steamapps/appmanifest_440.acf".

Definition manifest_AppState : value :=
  VDict [(lit "AppState",
          VDict [(lit "appID", VStr (lit "440"));
                 (lit "Name", VStr (lit "Team Fortress 2"));
                 (lit "InstallDir", VStr (lit "Team Fortress 2"))])].

Definition manifest_appstate : value :=
  VDict [(lit "appstate",
          VDict [(lit "appid", VStr (lit "440"));
                 (lit "name", VStr (lit "Team Fortress 2"));
                 (lit "installdir", VStr (lit "Team Fortress 2"))])].

Definition world_manifest (doc : value) : World :=
  with_dirs
    (with_text empty_world manifest_path (lit "<appmanifest 440>") doc)
    [lit "/steam/steamapps/compatdata/440/pfx"].

(** A library with three installed apps, of which "Zeta" and "Alpha" have
    been launched (prefix and lock file exist) and "Beta" has not; no custom
    Proton installation, nobody logged in, no shortcuts. *)
Definition app_manifest (id nm : string) : value :=
  VDict [(lit "AppState",
          VDict [(lit "appid", VStr (lit id));
                 (lit "name", VStr (lit nm));
                 (lit "installdir", VStr (lit nm))])].

Definition world_inventory : World :=
  with_files
    (with_dirs
       (with_glob
          (with_text
             (with_text
                (with_text empty_world
                   (lit "/steam/steamapps/appmanifest_20.acf")
                   (lit "<appmanifest 20>") (app_manifest "20" "Zeta"))
                (lit "/steam/steamapps/appmanifest_30.acf")
                (lit "<appmanifest 30>") (app_manifest "30" "Beta"))
             (lit "/steam/steamapps/appmanifest_10.acf")
             (lit "<appmanifest 10>") (app_manifest "10" "Alpha"))
          (lit "/steam/steamapps/appmanifest_*.acf")
          [lit "/steam/steamapps/appmanifest_20.acf";
           lit "/steam/steamapps/appmanifest_30.acf";
           lit "/steam/steamapps/appmanifest_10.acf"])
       [lit "/steam/steamapps";
        lit "/steam/steamapps/compatdata/20/pfx";
        lit "/steam/steamapps/compatdata/10/pfx"])
    [lit "/steam/steamapps/compatdata/20/pfx/../pfx.lock";
     lit "/steam/steamapps/compatdata/10/pfx/../pfx.lock"].

Definition app_alpha : SteamApp :=
  {| appid := Some 10;
     name := lit "Alpha";
     prefix_path := Some (lit "/steam/steamapps/compatdata/10/pfx");
     install_path := lit "/steam/steamapps/common/Alpha" |}.

Definition app_zeta : SteamApp :=
  {| appid := Some 20;
     name := lit "Zeta";
     prefix_path := Some (lit "/steam/steamapps/compatdata/20/pfx");
     install_path := lit "/steam/steamapps/common/Zeta" |}.

(** A library where two launched apps have the same name "Alpha", the
    app 20 being met before the app 10, with "Beta" between them. *)
Definition world_same_name : World :=
  with_files
    (with_dirs
       (with_glob
          (with_text
             (with_text
                (with_text empty_world
                   (lit "/steam/steamapps/appmanifest_20.acf")
                   (lit "<appmanifest 20>") (app_manifest "20" "Alpha"))
                (lit "/steam/steamapps/appmanifest_30.acf")
                (lit "<appmanifest 30>") (app_manifest "30" "Beta"))
             (lit "/steam/steamapps/appmanifest_10.acf")
             (lit "<appmanifest 10>") (app_manifest "10" "Alpha"))
          (lit "/steam/steamapps/appmanifest_*.acf")
          [lit "/steam/steamapps/appmanifest_20.acf";
           lit "/steam/steamapps/appmanifest_30.acf";
           lit "/steam/steamapps/appmanifest_10.acf"])
       [lit "/steam/steamapps";
        lit "/steam/steamapps/compatdata/20/pfx";
        lit "/steam/steamapps/compatdata/30/pfx";
        lit "/steam/steamapps/compatdata/10/pfx"])
    [lit "/steam/steamapps/compatdata/20/pfx/../pfx.lock";
     lit "/steam/steamapps/compatdata/30/pfx/../pfx.lock";
     lit "/steam/steamapps/compatdata/10/pfx/../pfx.lock"].

Definition launched_app (id : Z) (id_str nm : string) : SteamApp :=
  {| appid := Some id;
     name := lit nm;
     prefix_path :=
       Some (lit "/steam/steamapps/compatdata/" ++ lit id_str ++ lit "/pfx");
     install_path := lit "/steam/steamapps/common/" ++ lit nm |}.

(** The order of the inventory: by name, code point by code point. *)
Definition name_le (a b : SteamApp) : Prop :=
  str_leb (name a) (name b) = true.

(** A record that may stay in the inventory. *)
Definition launched_or_runtime (w : World) (app : SteamApp) : Prop :=
  result (prefix_path_exists w app) = Ok true \/
  result (is_proton w app) = Ok true.

(** The subtree of config.vdf that holds the two mappings. *)
Definition steam_subtree (vdf_data : value) : res value :=
  (let? a := subscript vdf_data (lit "InstallConfigStore") in
   let? b := subscript a (lit "Software") in
   let? c := subscript b (lit "Valve") in
   subscript c (lit "Steam"))%res.

(** A mapping of that subtree, empty when it is absent. *)
Definition mapping_or_empty (steam : dict) (key : pystr) : value :=
  match dict_get steam key with
  | Some v => v
  | None => VDict []
  end.

Definition entries_are_dicts (m : dict) : bool :=
  forallb (fun kv => is_dict (snd kv)) m.

(** The first candidate that is present and not empty. *)
Fixpoint first_nonempty (candidates : list (option value)) : option value :=
  match candidates with
  | [] => None
  | Some v :: rest => if truthy v then Some v else first_nonempty rest
  | None :: rest => first_nonempty rest
  end.

(** The candidates of [find_steam_proton_app], highest priority first. *)
Definition runtime_candidates (new_mapping legacy_mapping : dict)
    (appid : option Z) : list (option value) :=
  [candidate new_mapping (str_of_opt_int appid);
   candidate new_mapping (lit "0");
   candidate legacy_mapping (str_of_opt_int appid);
   candidate legacy_mapping (lit "0")].

(** A config.vdf with a "CompatToolMapping" (a default and an entry for the
    app 440) and no "ToolMapping", and one with neither. *)
Definition config_of (steam : dict) : value :=
  VDict [(lit "InstallConfigStore",
          VDict [(lit "Software",
                  VDict [(lit "Valve",
                          VDict [(lit "Steam", VDict steam)])])])].

Definition steam_with_mapping : dict :=
  [(lit "CompatToolMapping",
    VDict [(lit "0", VDict [(lit "name", VStr (lit "proton_411"));
                            (lit "config", VStr []);
                            (lit "Priority", VStr (lit "75"))]);
           (lit "440", VDict [(lit "name", VStr (lit "proton_7"));
                              (lit "config", VStr []);
                              (lit "Priority", VStr (lit "250"))])])].

Definition steam_without_mapping : dict :=
  [(lit "AutoUpdateWindowEnabled", VStr (lit "0"))].

Definition world_config (steam : dict) : World :=
  with_text empty_world (lit "/steam/config/config.vdf")
            (lit "<config>") (config_of steam).

Definition app_proton_7 : SteamApp :=
  {| appid := None;
     name := lit "proton_7";
     prefix_path := None;
     install_path := lit "/root/compatibilitytools.d/proton_7" |}.

(** The same machine with PROTON_VERSION set to the empty string. *)
Definition world_empty_override : World :=
  with_env (world_config steam_with_mapping) (lit "PROTON_VERSION") [].

(** A machine with Steam at ~/.steam/steam and STEAM_DIR set to the empty
    string. *)
Definition world_empty_steam_dir : World :=
  with_env
    (with_dirs empty_world [lit "/home/user/.steam/steam/steamapps"])
    (lit "STEAM_DIR") [].

(** A machine with a complete Steam installation at /opt/steam, named by
    STEAM_DIR, and another one at ~/.steam/steam. *)
Definition world_steam_dir : World :=
  with_env
    (with_dirs empty_world
       [lit "/opt/steam/SteamApps"; lit "/opt/steam/ubuntu12_32";
        lit "/home/user/.steam/steam/steamapps"])
    (lit "STEAM_DIR") (lit "/opt/steam").

(** The override of [find_steam_path] is acceptable. *)
Definition valid_steam_dir (w : World) (p : pystr) : bool :=
  (isdir w (os_path_join p [lit "steamapps"])
   || isdir w (os_path_join p [lit "SteamApps"]))
  && isdir w (os_path_join p [lit "ubuntu12_32"]).

(** What [find_steam_path] may look at and log when STEAM_DIR is [p]. *)
Definition override_effects (w : World) (p : pystr) : list event :=
  [EvIsdir (os_path_join (os_path_join (home w) [lit ".steam"; lit "root"])
                         [lit "ubuntu12_32"]);
   EvEnviron (lit "STEAM_DIR");
   EvIsdir (os_path_join p [lit "steamapps"]);
   EvIsdir (os_path_join p [lit "SteamApps"]);
   EvIsdir (os_path_join p [lit "ubuntu12_32"]);
   EvLog Info "Found a valid Steam installation at %s.";
   EvLog Error "$STEAM_DIR was provided but didn't point to a valid Steam installation."].

(* ---------------------------------------------------------------- *)
(** A catalog, as the statements about [get_appinfo_sections] take it
    apart: the magic number, four bytes of universe, records made of a
    48-byte header and a blob, and a trailer. *)

Definition record_bytes (r : pybytes * pybytes) : pybytes := fst r ++ snd r.

Definition catalog (universe : pybytes) (records : list (pybytes * pybytes))
    (trailer : pybytes) : pybytes :=
  appinfo_magic ++ universe ++ flat_map record_bytes records ++ trailer.

(** A record is aligned when its header has 48 bytes and its [entry_size]
    field is 40 more than the length of its blob. *)
Definition aligned_record (r : pybytes * pybytes) : Prop :=
  List.length (fst r) = 48%nat /\
  le_decode (slice (fst r) 4 8) = 40 + Z.of_nat (List.length (snd r)).

(** The blob of a record decodes, or fails with UnicodeDecodeError. *)
Definition decodes_or_bad_text (w : World) (r : pybytes * pybytes) : Prop :=
  match vdf_binary_loads w (snd r) with
  | Ok _ => True
  | Raise e => e = UnicodeDecodeError
  end.

(** The documents of the records whose blob decodes. *)
Definition decoded (w : World) (records : list (pybytes * pybytes))
  : list value :=
  flat_map (fun r => match vdf_binary_loads w (snd r) with
                     | Ok d => [d]
                     | Raise _ => []
                     end) records.

(** Where the record after [before] starts. *)
Definition offset_after (before : list (pybytes * pybytes)) : Z :=
  8 + Z.of_nat (List.length (flat_map record_bytes before)).

(** Unsigned little-endian bytes of a number. *)
Fixpoint le_encode (width : nat) (n : Z) : pybytes :=
  match width with
  | O => []
  | S k => byte_of_N (Z.to_N (n mod 256)) :: le_encode k (n / 256)
  end.

(** A record header for the app [id] and a blob of [len] bytes (the
    remaining fields zero). *)
Definition header_for (id : Z) (len : nat) : pybytes :=
  le_encode 4 id ++ le_encode 4 (40 + Z.of_nat len) ++ repeat Byte.x00 40.

(** A decoder for the examples: a blob that starts with 0xff holds invalid
    text, one that starts with 0xfe is malformed, any other non-empty blob
    is a document that records its length. *)
Definition example_binary_loads (blob : pybytes) : res value :=
  match blob with
  | [] => Raise SyntaxError
  | Byte.xff :: _ => Raise UnicodeDecodeError
  | Byte.xfe :: _ => Raise SyntaxError
  | _ => Ok (VDict [(lit "appinfo",
                     VDict [(lit "size", VInt (Z.of_nat (List.length blob)))])])
  end.

Definition blob_good_5 : pybytes :=
  [Byte.x00; Byte.x61; Byte.x00; Byte.x08; Byte.x08].
Definition blob_bad_text : pybytes := [Byte.xff; Byte.xfe; Byte.x08].
Definition blob_malformed : pybytes := [Byte.xfe; Byte.x08].
Definition blob_good_2 : pybytes := [Byte.x08; Byte.x08].

Definition example_universe : pybytes :=
  [Byte.x01; Byte.x00; Byte.x00; Byte.x00].
Definition example_trailer : pybytes :=
  [Byte.x00; Byte.x00; Byte.x00; Byte.x00].

Definition record_for (id : Z) (blob : pybytes) : pybytes * pybytes :=
  (header_for id (List.length blob), blob).

(** A catalog whose second record holds invalid text, and one whose second
    record is malformed. *)
Definition records_bad_text : list (pybytes * pybytes) :=
  [record_for 10 blob_good_5; record_for 20 blob_bad_text;
   record_for 30 blob_good_2].

Definition records_malformed : list (pybytes * pybytes) :=
  [record_for 10 blob_good_5; record_for 20 blob_malformed;
   record_for 30 blob_good_2].

Definition world_appinfo (records : list (pybytes * pybytes)) : World :=
  {| environ := fun _ => None;
     home := lit "/home/user";
     isdir := fun _ => false;
     exists_ := fun _ => false;
     read_text := fun _ => Raise OSError;
     read_bytes := fun q =>
       if str_eqb q (lit "/steam/appcache/appinfo.vdf")
       then Ok (catalog example_universe records example_trailer)
       else Raise OSError;
     glob := fun _ => [];
     vdf_loads := fun _ => Raise SyntaxError;
     vdf_binary_loads := example_binary_loads |}.

(** No record of the list has the id 0. *)
Definition nonzero_ids (apps : list SteamApp) : Prop :=
  Forall (fun app => appid app <> Some 0) apps.

(** An appinfo.vdf with one section, which gives the id [id] to the tool
    "proton_316", also known as "proton_316_beta". *)
Definition compat_tools_doc (id : value) : value :=
  VDict [(lit "appinfo",
          VDict [(lit "extended",
                  VDict [(lit "compat_tools",
                          VDict [(lit "proton_316",
                                  VDict [(lit "aliases", VStr (lit "proton_316_beta"));
                                         (lit "appid", id)])])])])].

Definition world_catalog_id (id : value) : World :=
  {| environ := fun _ => None;
     home := lit "/home/user";
     isdir := fun _ => false;
     exists_ := fun _ => false;
     read_text := fun _ => Raise OSError;
     read_bytes := fun q =>
       if str_eqb q (lit "/steam/appcache/appinfo.vdf")
       then Ok (catalog example_universe [record_for 858280 blob_good_2]
                        example_trailer)
       else Raise OSError;
     glob := fun _ => [];
     vdf_loads := fun _ => Raise SyntaxError;
     vdf_binary_loads := fun _ => Ok (compat_tools_doc id) |}.

(* ================================================================== *)
(** ** [SteamApp.name_contains] *)

Definition is_ascii_letter (c : N) : bool :=
  (((65 <=? c) && (c <=? 90)) || ((97 <=? c) && (c <=? 122)))%N.

(** Membership in [set(string.printable) - set(string.punctuation)]: the
    ASCII digits and letters and the white space of [string.whitespace]
    (space, tab, line feed, carriage return, vertical tab, form feed). *)
Definition in_printable (c : N) : bool :=
  is_ascii_digit c || is_ascii_letter c || is_ascii_space c.

(** [normalize_str]: keep the characters of [printable], lower-case them,
    remove the spaces.  (What reaches [lower()] is ASCII, where [lower] is
    exactly [str.lower].) *)
Definition normalize_str (s : pystr) : pystr :=
  let s := filter in_printable s in
  let s := lower s in
  filter (fun c => negb (c =? 32)%N) s.

(** [SteamApp.name_contains] *)
Definition name_contains (app : SteamApp) (s : pystr) : bool :=
  str_contains (normalize_str s) (normalize_str (name app)).

(* ================================================================== *)
(** ** More notions used in the statements *)

(** The places where [find_appid_proton_prefix] looks for the prefix of an
    app, in the order in which it looks. *)
Definition prefix_candidates (appid : Z) (libs : list pystr) : list pystr :=
  flat_map (fun lib =>
              [os_path_join lib [lit "steamapps"; lit "compatdata";
                                 str_of_int appid; lit "pfx"];
               os_path_join lib [lit "SteamApps"; lit "compatdata";
                                 str_of_int appid; lit "pfx"]]) libs.

(** A directory that holds a "steamapps" or a "SteamApps" directory. *)
Definition has_apps (w : World) (p : pystr) : bool :=
  isdir w (os_path_join p [lit "steamapps"])
  || isdir w (os_path_join p [lit "SteamApps"]).

(** The tool root that [find_steam_path] returns with an installation
    found at [p]: ~/.steam/root when it holds the runtime, else [p]. *)
Definition tool_root (w : World) (p : pystr) : pystr :=
  let root := os_path_join (home w) [lit ".steam"; lit "root"] in
  if isdir w (os_path_join root [lit "ubuntu12_32"]) then root else p.

(** A record passes the filter of the inventory. *)
Definition usable (w : World) (app : SteamApp) : bool :=
  match prefix_path app with
  | Some ((_ :: _) as p) =>
      exists_ w p && exists_ w (os_path_join p [lit ".."; lit "pfx.lock"])
  | _ => false
  end
  || exists_ w (os_path_join (install_path app) [lit "proton"]).

(** The entries of [section["appinfo"]["extended"]["compat_tools"]], none
    for a section without them; [None] for a section on which the lookups
    of [get_proton_appid] would raise. *)
Definition section_tools (section : value) : option dict :=
  match section with
  | VDict s =>
      match dict_get s (lit "appinfo") with
      | None => Some []
      | Some (VDict a) =>
          match dict_get a (lit "extended") with
          | None => Some []
          | Some (VDict e) =>
              match dict_get e (lit "compat_tools") with
              | None => Some []
              | Some (VDict t) => Some t
              | Some v => if truthy v then None else Some []
              end
          | Some _ => None
          end
      | Some _ => None
      end
  | _ => None
  end.

Fixpoint all_tools (sections : list value) : option dict :=
  match sections with
  | [] => Some []
  | s :: rest =>
      match section_tools s, all_tools rest with
      | Some t, Some ts => Some (t ++ ts)
      | _, _ => None
      end
  end.

(** An entry of "compat_tools" is a mapping with an "appid" whose
    "aliases", if any, is a string or a list. *)
Definition tool_ok (kv : pystr * value) : bool :=
  match snd kv with
  | VDict e =>
      match dict_get e (lit "appid") with
      | None => false
      | Some _ =>
          match dict_get e (lit "aliases") with
          | None | Some (VStr _) | Some (VList _) => true
          | Some _ => false
          end
      end
  | _ => false
  end.

(** The tool is known under the name [nm]: its key, its alias or one of
    its aliases. *)
Definition known_as (nm : value) (kv : pystr * value) : bool :=
  value_eqb nm (VStr (fst kv))
  || match snd kv with
     | VDict e =>
         match dict_get e (lit "aliases") with
         | Some (VStr a) => value_eqb nm (VStr a)
         | Some (VList l) => existsb (value_eqb nm) l
         | _ => false
         end
     | _ => false
     end.

Definition tool_appid (kv : pystr * value) : option value :=
  match snd kv with
  | VDict e => dict_get e (lit "appid")
  | _ => None
  end.

(** The timestamp of a user of [find_current_steamid3]. *)
Definition timestamp_of (u : Z * value * value) : pystr :=
  match snd u with
  | VStr t => t
  | _ => []
  end.

Definition has_str_timestamp (u : Z * value * value) : bool :=
  is_str (snd u).

(** A machine whose appinfo.vdf holds the bytes [data]. *)
Definition world_appinfo_bytes (data : pybytes) : World :=
  {| environ := fun _ => None;
     home := lit "/home/user";
     isdir := fun _ => false;
     exists_ := fun _ => false;
     read_text := fun _ => Raise OSError;
     read_bytes := fun q =>
       if str_eqb q (lit "/steam/appcache/appinfo.vdf")
       then Ok data else Raise OSError;
     glob := fun _ => [];
     vdf_loads := fun _ => Raise SyntaxError;
     vdf_binary_loads := example_binary_loads |}.

(** The app-storage directory of an installation that
    [get_steam_lib_paths] uses: "steamapps" if it exists, else
    "SteamApps". *)
Definition apps_dir (w : World) (steam_path : pystr) : pystr :=
  if isdir w (os_path_join steam_path [lit "steamapps"])
  then lit "steamapps" else lit "SteamApps".

Definition folders_vdf (w : World) (steam_path : pystr) : pystr :=
  os_path_join steam_path [apps_dir w steam_path; lit "libraryfolders.vdf"].

(** An installation whose libraryfolders.vdf does not parse. *)
Definition world_bad_folders : World :=
  {| environ := fun _ => None;
     home := lit "/home/user";
     isdir := fun q => str_eqb q (lit "/steam/SteamApps");
     exists_ := fun q => str_eqb q (lit "/steam/SteamApps");
     read_text := fun q =>
       if str_eqb q (lit "/steam/SteamApps/libraryfolders.vdf")
       then Ok (lit "{") else Raise OSError;
     read_bytes := fun _ => Raise OSError;
     glob := fun _ => [];
     vdf_loads := fun _ => Raise SyntaxError;
     vdf_binary_loads := fun _ => Raise SyntaxError |}.

(** A compatibilitytool.vdf that describes the tool [nm]. *)
Definition comptool_doc (nm : string) (install_path from_os to_os : string)
  : value :=
  VDict [(lit "compatibilitytools",
          VDict [(lit "compat_tools",
                  VDict [(lit nm,
                          VDict [(lit "install_path", VStr (lit install_path));
                                 (lit "display_name", VStr (lit nm));
                                 (lit "from_oslist", VStr (lit from_os));
                                 (lit "to_oslist", VStr (lit to_os))])])])].

(** A tool root with two custom tools: one from Windows to Linux in its own
    directory, one from Windows to Windows registered at the top. *)
Definition world_custom_tools : World :=
  with_dirs
    (with_glob
       (with_glob
          (with_text
             (with_text empty_world
                (lit "/root/compatibilitytools.d/proton_ge/compatibilitytool.vdf")
                (lit "<proton_ge>") (comptool_doc "proton_ge" "." "windows" "linux"))
             (lit "/root/compatibilitytools.d/compatibilitytool.vdf")
             (lit "<wine_native>")
             (comptool_doc "wine_native" "wine" "windows" "windows"))
          (lit "/root/compatibilitytools.d/*/compatibilitytool.vdf")
          [lit "/root/compatibilitytools.d/proton_ge/compatibilitytool.vdf"])
       (lit "/root/compatibilitytools.d/compatibilitytool.vdf")
       [lit "/root/compatibilitytools.d/compatibilitytool.vdf"])
    [lit "/root/compatibilitytools.d"].

(** The record of a custom tool. *)
Definition custom_app (nm install_path : pystr) : SteamApp :=
  {| appid := None; name := nm; prefix_path := None;
     install_path := install_path |}.

(** A loginusers.vdf with the given users (SteamID64, account name and,
    for some, a timestamp). *)
Definition login_user (id64 account : string) (timestamp : option string)
  : pystr * value :=
  (lit id64,
   VDict ((lit "AccountName", VStr (lit account))
          :: match timestamp with
             | Some t => [(lit "Timestamp", VStr (lit t))]
             | None => []
             end)).

Definition world_loginusers (users : dict) : World :=
  with_text empty_world (lit "/steam/config/loginusers.vdf")
            (lit "<loginusers>") (VDict [(lit "users", VDict users)]).

Definition users_two_logins : dict :=
  [login_user "76561198000000001" "alice" (Some "1561000000"%string);
   login_user "76561198000000002" "bob" (Some "1562000000"%string);
   login_user "76561198000000003" "carol" (Some "1562000000"%string)].

Definition users_one_without_timestamp : dict :=
  [login_user "76561198000000001" "alice" (Some "1561000000"%string);
   login_user "76561198000000002" "bob" None].

(** A machine with one shortcut whose prefix exists. *)
Definition shortcut_entry : value :=
  VDict [(lit "AppName", VStr (lit "Game"));
         (lit "Exe", VStr (lit "C:\game.exe"));
         (lit "StartDir", VStr (34%N :: lit "C:\games" ++ [34%N]));
         (lit "icon", VStr [])].

Definition world_shortcut : World :=
  with_dirs empty_world
    [lit "/steam/steamapps/compatdata/3094716427/pfx"].

(** A library whose only manifest has an "AppState" without "appid". *)
Definition world_manifest_no_appid : World :=
  with_dirs
    (with_glob
       (with_text empty_world
          (lit "/steam/steamapps/appmanifest_7.acf") (lit "<appmanifest 7>")
          (VDict [(lit "AppState",
                   VDict [(lit "name", VStr (lit "Seven"));
                          (lit "installdir", VStr (lit "Seven"))])]))
       (lit "/steam/steamapps/appmanifest_*.acf")
       [lit "/steam/steamapps/appmanifest_7.acf"])
    [lit "/steam/steamapps"].

(** The same name, as a test. *)
Definition named (n : pystr) (app : SteamApp) : bool := str_eqb (name app) n.

(** The manifests that [get_steam_apps] finds in a library. *)
Definition manifests_of (w : World) (lib : value) : list pystr :=
  match lib with
  | VStr path =>
      if isdir w (os_path_join path [lit "steamapps"]) then
        glob w (os_path_join path [lit "steamapps"; lit "appmanifest_*.acf"])
      else if isdir w (os_path_join path [lit "SteamApps"]) then
        glob w (os_path_join path [lit "SteamApps"; lit "appmanifest_*.acf"])
      else []
  | _ => []
  end.

(** The "name" of the manifest at [path] is a string, if the manifest can
    be read and has a name. *)
Definition name_is_str (w : World) (path : pystr) : bool :=
  match read_text w path with
  | Ok content =>
      match vdf_loads w content with
      | Ok vdf_data =>
          match subscript vdf_data (lit "AppState") with
          | Ok (VDict app_state) =>
              match dict_get (lower_keys app_state) (lit "name") with
              | Some (VStr _) | None => true
              | Some _ => false
              end
          | _ => true
          end
      | Raise _ => true
      end
  | Raise _ => true
  end.

(** The manifests of the libraries have strings for names. *)
Definition string_names (w : World) (libs : list value) : bool :=
  forallb (fun lib => forallb (name_is_str w) (manifests_of w lib)) libs.

(** The records that [get_steam_apps] collects before it filters them. *)
Definition collected (scanned custom shortcuts : list SteamApp)
  : list SteamApp := (scanned ++ custom) ++ shortcuts.

(** A character that [normalize_str] drops: one outside [printable], or a
    space. *)
Definition dropped (c : N) : bool := negb (in_printable c) || (c =? 32)%N.

Definition with_name (app : SteamApp) (n : pystr) : SteamApp :=
  {| appid := appid app; name := n; prefix_path := prefix_path app;
     install_path := install_path app |}.

(* ================================================================== *)
(** * util.py *)

(** ** [shlex] *)

(** [shlex.quote]: a string made of the characters of
    [a-zA-Z0-9_@%+=:,./-] is left as it is; another one is put between
    single quotes, each single quote in it written ['"'"']. *)
Definition shell_safe (c : N) : bool :=
  is_ascii_letter c || is_ascii_digit c
  || existsb (N.eqb c) (lit "_@%+=:,./-").

Definition shlex_quote (s : pystr) : pystr :=
  match s with
  | [] => lit "''"
  | _ =>
      if forallb shell_safe s then s
      else 39%N :: flat_map (fun c => if (c =? 39)%N
                                      then [39; 34; 39; 34; 39]%N
                                      else [c]) s ++ [39%N]
  end.

(* ================================================================== *)
(** ** The host of util.py: processes, the file system, the environment *)

(** Exceptions: the built-in ones and those of [subprocess]. *)
Inductive uexn : Type :=
| Builtin (e : exn)
| SubprocessError.

Inductive ures (A : Type) : Type :=
| UOk (a : A)
| URaise (e : uexn).
Arguments UOk {A} a.
Arguments URaise {A} e.

(** [os.environ], in the order of its keys. *)
Definition env := list (pystr * pystr).

Record Host : Type := {
  (** [str(check_output(argv), "utf-8")] *)
  check_output_text : list pystr -> ures pystr;
  (** the names of the entries of a directory, as [iterdir] yields them *)
  iterdir_names : pystr -> ures (list pystr);
  (** [tempfile.mkdtemp(prefix=...)] *)
  mkdtemp : pystr -> ures pystr;
  (** [open(p, "wb")] followed by [write] *)
  write_bytes : pystr -> pybytes -> ures unit;
  (** [Path(p).chmod(mode)] *)
  chmod : pystr -> Z -> ures unit;
  (** [subprocess.run(command, **kwargs)] under the environment given *)
  run : env -> ures unit;
  (** [shutil.rmtree] *)
  rmtree : pystr -> ures unit
}.

Inductive uevent : Type :=
| UCheckOutput (argv : list pystr)
| UIterdir (p : pystr)
| UMkdtemp (prefix : pystr)
| UWrite (p : pystr) (content : pybytes)
| UChmod (p : pystr) (mode : Z)
| URun (e : env)
| URmtree (p : pystr)
| ULog (l : level) (msg : string).

(** Computations on the host that leave the environment alone. *)
Definition HostM (A : Type) : Type := (ures A * list uevent)%type.

Definition hret {A} (a : A) : HostM A := (UOk a, []).

Definition hbind {A B} (m : HostM A) (f : A -> HostM B) : HostM B :=
  match m with
  | (UOk a, t) => let (r, t') := f a in (r, t ++ t')
  | (URaise e, t) => (URaise e, t)
  end.

(** Computations that read and write the environment. *)
Definition EnvM (A : Type) : Type := env -> (ures A * env * list uevent)%type.

Definition uret {A} (a : A) : EnvM A := fun e => (UOk a, e, []).

Definition uraise {A} (x : exn) : EnvM A := fun e => (URaise (Builtin x), e, []).

Definition ubind {A B} (m : EnvM A) (f : A -> EnvM B) : EnvM B :=
  fun e =>
    match m e with
    | (UOk a, e', t) =>
        match f a e' with
        | (r, e'', t') => (r, e'', t ++ t')
        end
    | (URaise x, e', t) => (URaise x, e', t)
    end.

Definition ulift {A} (m : HostM A) : EnvM A := fun e => (fst m, e, snd m).

Definition ulog (l : level) (msg : string) : EnvM unit :=
  fun e => (UOk tt, e, [ULog l msg]).

Declare Scope host_scope.
Delimit Scope host_scope with host.
Notation "x <~ m ;; k" := (hbind m (fun x => k))
  (at level 61, m at next level, right associativity) : host_scope.

Declare Scope env_scope.
Delimit Scope env_scope with env.
Notation "x <== m ;; k" := (ubind m (fun x => k))
  (at level 61, m at next level, right associativity) : env_scope.
Notation "m ;;;; k" := (ubind m (fun _ => k))
  (at level 61, right associativity) : env_scope.

(** [os.environ.get(k)] *)
Definition environ_get (k : pystr) : EnvM (option pystr) :=
  fun e => (UOk (dict_get e k), e, []).

(** [os.environ[k]] *)
Definition environ_item (k : pystr) : EnvM pystr :=
  fun e => match dict_get e k with
           | Some v => (UOk v, e, [])
           | None => (URaise (Builtin KeyError), e, [])
           end.

(** A code point that [os.fsencode] accepts (UTF-8, surrogateescape). *)
Definition fs_encodable (c : N) : bool :=
  (is_scalar c || ((0xDC80 <=? c) && (c <=? 0xDCFF)))%N.

(** [os.environ[k] = v] for a key of the module: TypeError when [v] is not
    a string, UnicodeEncodeError when it cannot be encoded, ValueError when
    it holds a null character. *)
Definition environ_set (k : pystr) (v : option pystr) : EnvM unit :=
  fun e =>
    match v with
    | None => (URaise (Builtin TypeError), e, [])
    | Some v =>
        if negb (forallb fs_encodable v)
        then (URaise (Builtin UnicodeEncodeError), e, [])
        else if existsb (N.eqb 0) v
        then (URaise (Builtin ValueError), e, [])
        else (UOk tt, dict_set e k v, [])
    end.

(** [os.environ.pop(k, "")] *)
Definition environ_pop (k : pystr) : EnvM unit :=
  fun e => (UOk tt, filter (fun kv => negb (str_eqb (fst kv) k)) e, []).

(** [os.environ.clear()] followed by [os.environ.update(saved)] *)
Definition environ_restore (saved : env) : EnvM unit :=
  fun _ => (UOk tt, saved, []).

(* ================================================================== *)
(** ** [create_wine_bin_dir] *)

Definition of_res {A} (r : res A) : HostM A :=
  match r with
  | Ok a => (UOk a, [])
  | Raise e => (URaise (Builtin e), [])
  end.

Definition colon : N := 58%N.
Definition newline : N := 10%N.

(** [get_runtime_library_path]: the library directories of Proton come
    first, then what [run.sh] prints. *)
Definition get_runtime_library_path (h : Host)
    (steam_runtime_path : pystr) (proton_app : SteamApp) : HostM pystr :=
  (let argv := [os_path_join steam_runtime_path [lit "run.sh"];
                lit "--print-steam-runtime-library-paths"] in
   steam_runtime_paths <~ (check_output_text h argv, [UCheckOutput argv]);;
   hret (os_path_join (install_path proton_app) [lit "dist"; lit "lib"]
         ++ colon ::
         os_path_join (install_path proton_app) [lit "dist"; lit "lib64"]
         ++ colon :: steam_runtime_paths))%host.

(** [TEMPLATE.format(ld_library_path=..., path=...)] *)
Definition TEMPLATE_format (ld_library_path path : pystr) : pystr :=
  lit "#!/bin/bash" ++ newline ::
  lit "# Helper script created by Protontricks to run Wine binaries using Steam Runtime"
  ++ newline ::
  lit "export LD_LIBRARY_PATH=" ++ ld_library_path ++ newline ::
  lit "exec " ++ path ++ lit " $@".

(** [0o700] *)
Definition mode_700 : Z := 7 * 64.

(** The body of [for binary in binaries]; [dir] is the directory listed and
    [binary_name] the name of one of its entries, so that [str(binary)] is
    [dir/binary_name]. *)
Definition write_script (h : Host) (ld_library_path dir bin_path : pystr)
    (binary_name : pystr) : HostM unit :=
  (content <~ of_res (str_encode_utf8
                (TEMPLATE_format (shlex_quote ld_library_path)
                   (shlex_quote (dir ++ slash :: binary_name))));;
   let script := path_div bin_path binary_name in
   _ <~ (write_bytes h script content, [UWrite script content]);;
   (chmod h script mode_700, [UChmod script mode_700]))%host.

Fixpoint write_scripts (h : Host) (ld_library_path dir bin_path : pystr)
    (binaries : list pystr) : HostM unit :=
  match binaries with
  | [] => hret tt
  | b :: rest =>
      (_ <~ write_script h ld_library_path dir bin_path b;;
       write_scripts h ld_library_path dir bin_path rest)%host
  end.

Definition create_wine_bin_dir (h : Host) (steam_runtime_path : pystr)
    (proton_app : SteamApp) : HostM pystr :=
  (ld_library_path <~ get_runtime_library_path h steam_runtime_path proton_app;;
   let dir := path_div (path_div (install_path proton_app) (lit "dist"))
                       (lit "bin") in
   binaries <~ (iterdir_names h dir, [UIterdir dir]);;
   tmp <~ (mkdtemp h (lit "protontricks_wine_"),
           [UMkdtemp (lit "protontricks_wine_")]);;
   let bin_path := path_str tmp in
   _ <~ (UOk tt,
         [ULog Info "Created temporary Wine binary directory at %s"]);;
   _ <~ write_scripts h ld_library_path dir bin_path binaries;;
   hret bin_path)%host.

(* ================================================================== *)
(** ** [run_command] *)

(** [not os.environ.get(k)] *)
Definition unset_or_empty (k : pystr) : EnvM bool :=
  (v <== environ_get k;; uret (negb (nonempty v)))%env.

(** The statements of [run_command] before its [try]: they change
    [os.environ] and give [wine_bin_dir]. *)
Definition prepare_environment (h : Host) (winetricks_path : pystr)
    (proton_app steam_app : SteamApp) (steam_runtime_path : option pystr)
  : EnvM (option pystr) :=
  (let install := install_path proton_app in
   no_wine <== unset_or_empty (lit "WINE");;
   (if no_wine then
      ulog Info "WINE environment variable is not available. Setting WINE environment variable to Proton bundled version";;;;
      environ_set (lit "WINE")
        (Some (os_path_join install [lit "dist"; lit "bin"; lit "wine"]))
    else uret tt);;;;
   no_wineserver <== unset_or_empty (lit "WINESERVER");;
   (if no_wineserver then
      ulog Info "WINESERVER environment variable is not available. Setting WINESERVER environment variable to Proton bundled version";;;;
      environ_set (lit "WINESERVER")
        (Some (os_path_join install
                 [lit "dist"; lit "bin"; lit "wineserver"]))
    else uret tt);;;;
   environ_set (lit "WINETRICKS") (Some winetricks_path);;;;
   environ_set (lit "WINEPREFIX") (prefix_path steam_app);;;;
   wine <== environ_item (lit "WINE");;
   environ_set (lit "WINELOADER") (Some wine);;;;
   environ_set (lit "WINEDLLPATH")
     (Some (os_path_join install [lit "dist"; lit "lib64"; lit "wine"]
            ++ colon ::
            os_path_join install [lit "dist"; lit "lib"; lit "wine"]));;;;
   path <== environ_item (lit "PATH");;
   environ_set (lit "PATH")
     (Some (os_path_join install [lit "dist"; lit "bin"]
            ++ colon :: path));;;;
   environ_pop (lit "WINEARCH");;;;
   wine_bin_dir <==
     (if nonempty steam_runtime_path then
        match steam_runtime_path with
        | Some srp =>
            d <== ulift (create_wine_bin_dir h srp proton_app);;
            path <== environ_item (lit "PATH");;
            environ_set (lit "PATH") (Some (d ++ colon :: path));;;;
            uret (Some d)
        | None => uret None
        end
      else uret None);;
   ulog Info "Attempting to run command %s";;;;
   uret wine_bin_dir)%env.

(** [try: body finally: final] *)
Definition try_finally {A} (body : EnvM A) (final : EnvM unit) : EnvM A :=
  fun e =>
    match body e with
    | (r, e', t) =>
        match final e' with
        | (UOk _, e'', t') => (r, e'', t ++ t')
        | (URaise x, e'', t') => (URaise x, e'', t ++ t')
        end
    end.

(** [run_command].  The command and the keyword arguments go to
    [subprocess.run] as they are: they are part of the host's [run], which
    sees the environment of the moment.  [steam_path] is not used by the
    function. *)
Definition run_command (h : Host) (winetricks_path : pystr)
    (proton_app steam_app : SteamApp) (steam_runtime_path : option pystr)
  : EnvM unit :=
  fun environ =>
    (let environ_copy := environ in
     wine_bin_dir <== prepare_environment h winetricks_path proton_app
                        steam_app steam_runtime_path;;
     try_finally
       (fun e => (run h e, e, [URun e]))
       (environ_restore environ_copy;;;;
        match wine_bin_dir with
        | Some d => ulift (rmtree h d, [URmtree d])
        | None => uret tt
        end))%env environ.

(** What a computation on the environment gives. *)
Definition outcome {A} (r : ures A * env * list uevent) : ures A :=
  fst (fst r).
Definition environ_after {A} (r : ures A * env * list uevent) : env :=
  snd (fst r).
Definition trace {A} (r : ures A * env * list uevent) : list uevent :=
  snd r.

(* ================================================================== *)
(** ** Notions used in the statements about util.py *)

(** The command was started. *)
Definition is_run (ev : uevent) : bool :=
  match ev with URun _ => true | _ => false end.

Definition command_ran (t : list uevent) : bool := existsb is_run t.

(** A directory was removed. *)
Definition is_rmtree (ev : uevent) : bool :=
  match ev with URmtree _ => true | _ => false end.

(** What only happens from the [try] on. *)
Definition late (ev : uevent) : bool := is_run ev || is_rmtree ev.

(** A computation that neither starts the command nor removes a
    directory. *)
Definition quiet {A} (m : EnvM A) : Prop :=
  forall e, existsb late (trace (m e)) = false.

(** A string that [os.environ] takes as a value. *)
Definition env_value_ok (v : pystr) : bool :=
  forallb fs_encodable v && negb (existsb (N.eqb 0) v).

(** The variables that [run_command] sets or removes. *)
Definition wine_variables : list pystr :=
  [lit "WINE"; lit "WINESERVER"; lit "WINETRICKS"; lit "WINEPREFIX";
   lit "WINELOADER"; lit "WINEDLLPATH"; lit "PATH"; lit "WINEARCH"].

(** [bin] of the Proton installation *)
Definition proton_bin (proton_app : SteamApp) : pystr :=
  os_path_join (install_path proton_app) [lit "dist"; lit "bin"].

(** [e] with [k] set to [v] unless [k] has a value that is not empty. *)
Definition with_default (e : env) (k v : pystr) : env :=
  if nonempty (dict_get e k) then e else dict_set e k v.

(** The contents of the helper script for the entry [binary_name] of
    [dir]. *)
Definition script_of (ld_library_path dir binary_name : pystr) : pystr :=
  TEMPLATE_format (shlex_quote ld_library_path)
    (shlex_quote (dir ++ slash :: binary_name)).

(** A host on which the Steam Runtime and Proton are installed, and the
    command fails. *)
Definition host_example : Host :=
  {| check_output_text := fun _ => UOk (lit "/rt/lib");
     iterdir_names := fun _ => UOk [lit "wine"; lit "wineserver"];
     mkdtemp := fun p => UOk (lit "/tmp/" ++ p ++ lit "x1");
     write_bytes := fun _ _ => UOk tt;
     chmod := fun _ _ => UOk tt;
     run := fun _ => URaise SubprocessError;
     rmtree := fun _ => UOk tt |}.

Definition environ_example : env :=
  [(lit "PATH", lit "/usr/bin"); (lit "WINEARCH", lit "win32");
   (lit "WINE", lit "/opt/wine"); (lit "HOME", lit "/home/u")].

Definition proton_example : SteamApp :=
  SteamApp_init (lit "Proton 4.2") (lit "/lib/common/Proton 4.2") None
    (Some 1054830).

Definition game_example : SteamApp :=
  SteamApp_init (lit "Game") (lit "/lib/common/Game")
    (Some (lit "/lib/compatdata/10/pfx")) (Some 10).

Definition game_without_prefix : SteamApp :=
  SteamApp_init (lit "Game") (lit "/lib/common/Game") None (Some 10).

(** The environment under which the command of the example is started. *)
Definition command_environ_example : env :=
  Eval vm_compute in
    match find is_run
            (trace (run_command host_example (lit "/usr/bin/winetricks")
                      proton_example game_example (Some (lit "/rt"))
                      environ_example)) with
    | Some (URun e) => e
    | _ => []
    end.

(* ================================================================== *)
(** * Properties *)

(** ** Strings and the two monads *)

Lemma str_eqb_eq a b : str_eqb a b = true <-> a = b.
Proof.
  unfold str_eqb. destruct (list_eq_dec N.eq_dec a b); split; congruence.
Qed.

Lemma str_eqb_refl a : str_eqb a a = true.
Proof. now apply str_eqb_eq. Qed.

Lemma str_eqb_neq a b : str_eqb a b = false <-> a <> b.
Proof.
  unfold str_eqb. destruct (list_eq_dec N.eq_dec a b); split; congruence.
Qed.

(** ** The model on known values *)

(** The check value of CRC-32: [zlib.crc32(b"123456789")]. *)
Example crc32_check_value :
  rbind (str_encode_utf8 (lit "123456789")) (fun b => Ok (crc32 b))
  = Ok 0xCBF43926.
Proof. reflexivity. Qed.

Example utf8_euro_sign :
  str_encode_utf8 [0x20AC%N] = Ok [Byte.xe2; Byte.x82; Byte.xac].
Proof. reflexivity. Qed.

Example utf8_surrogate : str_encode_utf8 [0xD800%N] = Raise UnicodeEncodeError.
Proof. reflexivity. Qed.

Example get_appid_from_shortcut_a_b :
  get_appid_from_shortcut (lit "a") (lit "b") = Ok 0x9E83486D.
Proof. reflexivity. Qed.

Example os_path_join_relative :
  os_path_join (lit "/steam") [lit "steamapps"; lit "compatdata"]
  = lit "/steam/steamapps/compatdata".
Proof. reflexivity. Qed.

Example os_path_join_absolute :
  os_path_join (lit "/steam/") [lit "a"; lit "/opt/tool"; lit "bin"]
  = lit "/opt/tool/bin".
Proof. reflexivity. Qed.

Example os_path_dirname_manifest :
  os_path_dirname (lit "/steam/steamapps/appmanifest_440.acf")
  = lit "/steam/steamapps".
Proof. reflexivity. Qed.

Example int_of_str_spaces : int_of_str (lit " 440 ") = Ok 440.
Proof. reflexivity. Qed.

Example int_of_str_underscore : int_of_str (lit "-4_40") = Ok (-440).
Proof. reflexivity. Qed.

Example int_of_str_hex : int_of_str (lit "0x1b8") = Raise ValueError.
Proof. reflexivity. Qed.

Example str_of_int_440 : str_of_int 440 = lit "440".
Proof. reflexivity. Qed.

Example str_of_none : str_of_opt_int None = lit "None".
Proof. reflexivity. Qed.

Example lower_appID : lower (lit "appID") = lit "appid".
Proof. reflexivity. Qed.

Example isdigit_examples :
  isdigit (lit "12") = true /\ isdigit (lit "") = false /\
  isdigit (lit "TimeNextStatsReport") = false.
Proof. repeat split. Qed.

(** A production Proton is found through appinfo.vdf, by an alias. *)
Example find_by_compat_tool_name_alias :
  result (find_by_compat_tool_name (world_catalog_id (VInt 858280))
            (lit "/steam")
            [app_alpha;
             {| appid := Some 858280; name := lit "Proton 3.16";
                prefix_path := None;
                install_path := lit "/steam/steamapps/common/Proton 3.16" |}]
            (VStr (lit "proton_316_beta")))
  = Ok (Some {| appid := Some 858280; name := lit "Proton 3.16";
                prefix_path := None;
                install_path := lit "/steam/steamapps/common/Proton 3.16" |}).
Proof. reflexivity. Qed.

(** ** The synthetic id of a shortcut *)

Lemma utf8_encode_cp_scalar c :
  is_scalar c = true -> exists bs, utf8_encode_cp c = Ok bs.
Proof.
  unfold is_scalar, utf8_encode_cp.
  destruct (N.ltb_spec c 0x80); [eauto|].
  destruct (N.ltb_spec c 0x800); [eauto|].
  destruct (N.ltb_spec c 0xD800); simpl.
  - intros _. destruct (N.ltb_spec c 0x10000); [|lia].
    destruct (N.leb_spec 0xD800 c); [lia|]. simpl. eauto.
  - destruct (N.leb_spec 0xE000 c); simpl; [|discriminate].
    destruct (N.ltb_spec c 0x110000); [|discriminate]. intros _.
    destruct (N.ltb_spec c 0x10000); [|eauto].
    destruct (N.leb_spec 0xD800 c); simpl; [|eauto].
    destruct (N.ltb_spec c 0xE000); [lia|]. eauto.
Qed.

(** Text without surrogates always has a UTF-8 encoding. *)
Lemma str_encode_utf8_scalar s :
  forallb is_scalar s = true -> exists bs, str_encode_utf8 s = Ok bs.
Proof.
  induction s as [|c s IH]; simpl; intros H.
  - eauto.
  - apply andb_prop in H as [Hc Hs].
    destruct (utf8_encode_cp_scalar c Hc) as [bs ->].
    destruct (IH Hs) as [rest ->]. eauto.
Qed.

Lemma lxor_below a b n :
  0 < n -> 0 <= a < 2 ^ n -> 0 <= b < 2 ^ n -> 0 <= Z.lxor a b < 2 ^ n.
Proof.
  intros Hn Ha Hb.
  assert (H0 : 0 <= Z.lxor a b) by (apply Z.lxor_nonneg; lia).
  split; [exact H0|].
  destruct (Z.eq_dec (Z.lxor a b) 0) as [->|Hne].
  - apply Z.pow_pos_nonneg; lia.
  - apply Z.log2_lt_pow2; [lia|].
    pose proof (Z.log2_lxor a b (proj1 Ha) (proj1 Hb)) as Hl.
    assert (La : Z.log2 a < n).
    { destruct (Z.eq_dec a 0) as [->|]; [simpl; lia|].
      apply Z.log2_lt_pow2; lia. }
    assert (Lb : Z.log2 b < n).
    { destruct (Z.eq_dec b 0) as [->|]; [simpl; lia|].
      apply Z.log2_lt_pow2; lia. }
    lia.
Qed.

Lemma crc32_shift_below c :
  0 <= c < 2 ^ 32 -> 0 <= crc32_shift c < 2 ^ 32.
Proof.
  intros Hc. unfold crc32_shift.
  assert (Hs : 0 <= Z.shiftr c 1 < 2 ^ 32).
  { rewrite Z.shiftr_div_pow2 by lia. change (2 ^ 1) with 2.
    split; [apply Z.div_pos; lia|].
    apply Z.div_lt_upper_bound; lia. }
  destruct (Z.testbit c 0); [|exact Hs].
  apply lxor_below; [lia|exact Hs|]. unfold crc32_poly. lia.
Qed.

Lemma crc32_byte_below c b :
  0 <= c < 2 ^ 32 -> 0 <= crc32_byte c b < 2 ^ 32.
Proof.
  intros Hc. unfold crc32_byte.
  do 8 apply crc32_shift_below.
  apply lxor_below; [lia|exact Hc|].
  pose proof (Byte.to_N_bounded b). lia.
Qed.

Lemma crc32_register_below data c :
  0 <= c < 2 ^ 32 -> 0 <= fold_left crc32_byte data c < 2 ^ 32.
Proof.
  revert c. induction data as [|b data IH]; simpl; intros c Hc.
  - exact Hc.
  - apply IH, crc32_byte_below, Hc.
Qed.

(** [zlib.crc32] returns an unsigned 32-bit value. *)
Lemma crc32_below data : 0 <= crc32 data < 2 ^ 32.
Proof.
  unfold crc32. apply lxor_below; [lia| |lia].
  apply crc32_register_below. lia.
Qed.

Lemma land_mask32 c : 0 <= c < 2 ^ 32 -> Z.land c 0xffffffff = c.
Proof.
  intros Hc. change 0xffffffff with (Z.ones 32).
  rewrite Z.land_ones by lia. apply Z.mod_small. exact Hc.
Qed.

Lemma high_bit_set c :
  0 <= c < 2 ^ 32 -> 2 ^ 31 <= Z.lor c 0x80000000 < 2 ^ 32.
Proof.
  intros Hc.
  assert (H0 : 0 <= Z.lor c 0x80000000) by (apply Z.lor_nonneg; lia).
  assert (Hb : Z.testbit (Z.lor c 0x80000000) 31 = true).
  { rewrite Z.lor_spec. change (Z.testbit 0x80000000 31) with true.
    apply orb_true_r. }
  split.
  - apply Z.testbit_true in Hb; [|lia].
    assert (0 < Z.lor c 0x80000000 / 2 ^ 31).
    { destruct (Z.eq_dec (Z.lor c 0x80000000 / 2 ^ 31) 0) as [E|E].
      - rewrite E in Hb. discriminate.
      - pose proof (Z.div_pos (Z.lor c 0x80000000) (2 ^ 31) H0). lia. }
    destruct (Z.lt_ge_cases (Z.lor c 0x80000000) (2 ^ 31)) as [L|L]; [|exact L].
    rewrite Z.div_small in H by lia. lia.
  - apply Z.log2_lt_pow2.
    + apply Z.testbit_true in Hb; [|lia].
      destruct (Z.eq_dec (Z.lor c 0x80000000) 0) as [E|E]; [|lia].
      rewrite E in Hb. discriminate.
    + pose proof (Z.log2_lor c 0x80000000 (proj1 Hc)) as Hl.
      assert (La : Z.log2 c < 32).
      { destruct (Z.eq_dec c 0) as [->|]; [simpl; lia|].
        apply Z.log2_lt_pow2; lia. }
      change (Z.log2 0x80000000) with 31 in Hl. lia.
Qed.

Lemma upper_half x :
  0 <= x -> Z.shiftr (Z.lor (Z.shiftl x 32) 0x02000000) 32 = x.
Proof.
  intros Hx. rewrite Z.shiftr_lor.
  rewrite Z.shiftr_shiftl_l by lia.
  change (Z.shiftr 0x02000000 32) with 0.
  rewrite Z.sub_diag, Z.shiftl_0_r. apply Z.lor_0_r.
Qed.

(** C3.  For every target and name of valid text, the id of the shortcut
    is the CRC-32 of the two UTF-8 encodings put end to end, masked to 32
    bits, with the high bit set; it is the upper half of the 64-bit
    screenshot id whose lower half is 0x02000000.  (Being the value of a
    function, it is the same for the same target and name.) *)
Theorem get_appid_from_shortcut_spec (target name : pystr) :
  forallb is_scalar target = true ->
  forallb is_scalar name = true ->
  exists bt bn,
    str_encode_utf8 target = Ok bt /\
    str_encode_utf8 name = Ok bn /\
    let id := Z.lor (Z.land (crc32 (bt ++ bn)) 0xffffffff) 0x80000000 in
    get_appid_from_shortcut target name = Ok id /\
    id = Z.lor (crc32 (bt ++ bn)) 0x80000000 /\
    screenshot_id (bt ++ bn) = Z.lor (Z.shiftl id 32) 0x02000000 /\
    id = Z.shiftr (screenshot_id (bt ++ bn)) 32 /\
    Z.land (screenshot_id (bt ++ bn)) 0xffffffff = 0x02000000 /\
    0 <= screenshot_id (bt ++ bn) < 2 ^ 64 /\
    2 ^ 31 <= id < 2 ^ 32.
Proof.
  intros Ht Hn.
  destruct (str_encode_utf8_scalar target Ht) as [bt Et].
  destruct (str_encode_utf8_scalar name Hn) as [bn En].
  exists bt, bn. split; [exact Et|]. split; [exact En|].
  cbv zeta.
  pose proof (crc32_below (bt ++ bn)) as Hc.
  rewrite (land_mask32 _ Hc).
  pose proof (high_bit_set _ Hc) as Hid.
  set (id := Z.lor (crc32 (bt ++ bn)) 0x80000000) in *.
  assert (Hs : screenshot_id (bt ++ bn) = Z.lor (Z.shiftl id 32) 0x02000000).
  { unfold screenshot_id. rewrite (land_mask32 _ Hc). reflexivity. }
  assert (Hadd : Z.lor (Z.shiftl id 32) 0x02000000 = id * 2 ^ 32 + 0x02000000).
  { rewrite <- Z.shiftl_mul_pow2 by lia.
    assert (Hz : Z.land (Z.shiftl id 32) 0x02000000 = 0); [|
      rewrite (Z.add_nocarry_lxor _ _ Hz); symmetry; apply Z.lxor_lor, Hz].
    apply Z.bits_inj'. intros k Hk.
    rewrite Z.land_spec, Z.bits_0.
    destruct (Z.ltb_spec k 32).
    - rewrite Z.shiftl_spec_low by lia. reflexivity.
    - replace (Z.testbit 0x02000000 k) with false; [apply andb_false_r|].
      symmetry. apply Z.bits_above_log2; [lia|].
      change (Z.log2 0x02000000) with 25. lia. }
  repeat split.
  - unfold get_appid_from_shortcut. rewrite Et, En. cbv beta iota zeta delta [rbind].
    rewrite (land_mask32 _ Hc). fold id.
    rewrite upper_half by lia. reflexivity.
  - exact Hs.
  - rewrite Hs. symmetry. apply upper_half. lia.
  - rewrite Hs, Hadd. change 0xffffffff with (Z.ones 32).
    rewrite Z.land_ones by lia.
    rewrite Z.add_comm, Z.mod_add by lia. reflexivity.
  - rewrite Hs, Hadd. lia.
  - rewrite Hs, Hadd. lia.
  - lia.
  - lia.
Qed.

Lemma get_appid_from_shortcut_spec_witness :
  exists bt bn,
    str_encode_utf8 (lit "C:\game.exe") = Ok bt /\
    str_encode_utf8 (lit "Game") = Ok bn /\
    get_appid_from_shortcut (lit "C:\game.exe") (lit "Game")
    = Ok (Z.lor (Z.land (crc32 (bt ++ bn)) 0xffffffff) 0x80000000).
Proof.
  destruct (get_appid_from_shortcut_spec (lit "C:\game.exe") (lit "Game")
              eq_refl eq_refl) as (bt & bn & Et & En & H & _).
  exists bt, bn. repeat split; assumption.
Defined.

(* ================================================================== *)
(** ** Library folders *)

Lemma parse_library_folders_ok w data doc its :
  vdf_loads w data = Ok doc ->
  subscript doc (lit "LibraryFolders") = Ok (VDict its) ->
  parse_library_folders w data
  = (Ok (map snd (digit_entries its)),
     [EvLog Info "Found {} Steam library folders";
      EvLog Info "Steam library folders: %s"]).
Proof.
  intros Hl Hs. unfold parse_library_folders, lift, bind.
  rewrite Hl, Hs. reflexivity.
Qed.

Lemma insert_by_key_head e l :
  HdRel key_le e l -> insert_by_key e l = e :: l.
Proof.
  destruct 1 as [|b l H]; simpl; [reflexivity|].
  unfold key_le in H. apply Z.leb_le in H. now rewrite H.
Qed.

(** Sorting leaves a list alone that is in ascending order already. *)
Lemma sort_by_key_sorted l : Sorted key_le l -> sort_by_key l = l.
Proof.
  induction 1 as [|e l Hs IH Hd]; [reflexivity|].
  change (sort_by_key (e :: l)) with (insert_by_key e (sort_by_key l)).
  rewrite IH. now apply insert_by_key_head.
Qed.

(** C1, as the code has it.  For a manifest whose keys are ASCII strings,
    the library folders are the values under the digit-string keys in the
    order in which the mapping yields them; they are in ascending order of
    the numeric key when the manifest lists them so. *)
Theorem parse_library_folders_iteration_order w data doc its :
  vdf_loads w data = Ok doc ->
  subscript doc (lit "LibraryFolders") = Ok (VDict its) ->
  ascii_keys its = true ->
  result (parse_library_folders w data) = Ok (map snd (digit_entries its)) /\
  (Sorted key_le (digit_entries its) ->
   result (parse_library_folders w data) = Ok (folders_by_numeric_key its)).
Proof.
  intros Hl Hs _. rewrite (parse_library_folders_ok _ _ _ _ Hl Hs). split.
  - reflexivity.
  - intros Hsorted. unfold folders_by_numeric_key.
    now rewrite (sort_by_key_sorted _ Hsorted).
Qed.

Lemma parse_library_folders_iteration_order_witness :
  result (parse_library_folders world_folders_0_1 (lit "<libraryfolders 0 1>"))
  = Ok [VStr (lit "/mnt/a"); VStr (lit "/mnt/b")].
Proof.
  refine (proj1 (parse_library_folders_iteration_order
                   world_folders_0_1 (lit "<libraryfolders 0 1>") folders_0_1
                   [(lit "TimeNextStatsReport", VStr (lit "1561832478"));
                    (lit "0", VStr (lit "/mnt/a"));
                    (lit "1", VStr (lit "/mnt/b"))] _ _ _));
    reflexivity.
Defined.

(** C1 as stated fails: a manifest whose mapping yields "1" before "0"
    gives the folder of "1" first, which is not the ascending order of the
    keys, and the same entries in the other order give another list. *)
Lemma parse_library_folders_not_by_numeric_key :
  result (parse_library_folders world_folders_1_0 (lit "<libraryfolders 1 0>"))
  = Ok [VStr (lit "/mnt/b"); VStr (lit "/mnt/a")] /\
  result (parse_library_folders world_folders_1_0 (lit "<libraryfolders 1 0>"))
  <> Ok (folders_by_numeric_key
           [(lit "TimeNextStatsReport", VStr (lit "1561832478"));
            (lit "1", VStr (lit "/mnt/b"));
            (lit "0", VStr (lit "/mnt/a"))]) /\
  result (parse_library_folders world_folders_0_1 (lit "<libraryfolders 0 1>"))
  <> result (parse_library_folders world_folders_1_0 (lit "<libraryfolders 1 0>")) /\
  result (get_steam_lib_paths
            (with_dirs world_folders_1_0 [lit "/steam/steamapps"]) (lit "/steam"))
  = Ok [VStr (lit "/steam"); VStr (lit "/mnt/b"); VStr (lit "/mnt/a")].
Proof.
  repeat split; try (vm_compute; discriminate); reflexivity.
Qed.

(* ================================================================== *)
(** ** Results and effects of composed computations *)

Lemma result_bind {A B} (m : M A) (f : A -> M B) :
  result (bind m f)
  = match result m with
    | Ok a => result (f a)
    | Raise e => Raise e
    end.
Proof.
  destruct m as [[a|e] t]; simpl; [|reflexivity].
  destruct (f a); reflexivity.
Qed.

Lemma effects_bind {A B} (m : M A) (f : A -> M B) :
  effects (bind m f)
  = match result m with
    | Ok a => effects m ++ effects (f a)
    | Raise e => effects m
    end.
Proof.
  destruct m as [[a|e] t]; simpl; [|reflexivity].
  destruct (f a); reflexivity.
Qed.

Lemma bind_ok {A B} (m : M A) (f : A -> M B) b :
  result (bind m f) = Ok b ->
  exists a, result m = Ok a /\ result (f a) = Ok b.
Proof.
  rewrite result_bind. destruct (result m) as [a|e]; [eauto|discriminate].
Qed.

Lemma result_catch {A} (m : M A) h :
  result (catch m h)
  = match result m with
    | Ok a => Ok (Some a)
    | Raise e => if h e then Ok None else Raise e
    end.
Proof.
  destruct m as [[a|e] t]; simpl; [reflexivity|].
  destruct (h e); reflexivity.
Qed.

Lemma result_lift {A} (r : res A) : result (lift r) = r.
Proof. reflexivity. Qed.

Lemma result_ret {A} (a : A) : result (ret a) = Ok a.
Proof. reflexivity. Qed.

(** ** Application manifests *)

Lemma dict_get_set {A} (d : list (pystr * A)) k' v k :
  dict_get (dict_set d k' v) k
  = if str_eqb k' k then Some v else dict_get d k.
Proof.
  induction d as [|[k0 v0] d IH]; simpl; [reflexivity|].
  destruct (str_eqb k0 k') eqn:E; simpl.
  - apply str_eqb_eq in E. subst k0. destruct (str_eqb k' k); reflexivity.
  - rewrite IH. destruct (str_eqb k' k) eqn:E'; [|reflexivity].
    apply str_eqb_eq in E'. subst k. now rewrite E.
Qed.

(** Looking a key up after [lower_keys] is looking it up without regard
    to case. *)
Lemma lower_keys_get (its : dict) k :
  dict_get (lower_keys its) k = get_ignoring_case its k.
Proof.
  unfold lower_keys, get_ignoring_case.
  change (@None value) with (dict_get (@nil (pystr * value)) k).
  generalize (@nil (pystr * value)) as acc.
  induction its as [|[k0 v0] its IH]; intros acc; simpl; [reflexivity|].
  rewrite IH, dict_get_set. reflexivity.
Qed.

Lemma returns_ok {A} (r : res A) : returns r -> exists a, r = Ok a.
Proof. destruct r; simpl; [eauto|tauto]. Qed.

(** One step of a composed computation: the result of a [bind] whose first
    part is a primitive. *)
Ltac mstep :=
  rewrite result_bind;
  cbn [result lift ret fst os_path_isdir os_path_exists os_environ_get
       glob_glob log].

Lemma find_appid_proton_prefix_returns w n libs :
  forallb is_str libs = true ->
  returns (result (find_appid_proton_prefix w n libs)).
Proof.
  induction libs as [|l libs IH]; intros H; [exact I|].
  simpl in H. apply andb_prop in H as [Hl Hs]. destruct l; try discriminate.
  cbn [find_appid_proton_prefix as_str].
  do 2 mstep. destruct (isdir w _); [exact I|].
  mstep. destruct (isdir w _); [exact I|]. auto.
Qed.

(** C2, as the code has it.  The subtree is taken from the top-level key
    spelled "AppState": a manifest without that key is skipped, whatever
    other spellings it has; within the subtree the fields "appid", "name"
    and "installdir" are found whatever their case, and the manifest yields
    the record of that id, name and install directory. *)
Theorem from_appmanifest_AppState w path libs content top :
  read_text w path = Ok content ->
  vdf_loads w content = Ok (VDict top) ->
  forallb is_str libs = true ->
  (dict_get top (lit "AppState") = None ->
   result (from_appmanifest w path libs) = Ok None) /\
  (forall st a n nm dir,
     dict_get top (lit "AppState") = Some (VDict st) ->
     get_ignoring_case st (lit "appid") = Some a ->
     int_of_value a = Ok n ->
     get_ignoring_case st (lit "name") = Some (VStr nm) ->
     get_ignoring_case st (lit "installdir") = Some (VStr dir) ->
     exists pfx,
       result (find_appid_proton_prefix w n libs) = Ok pfx /\
       result (from_appmanifest w path libs)
       = Ok (Some (SteamApp_init nm
                     (os_path_join (os_path_dirname path) [lit "common"; dir])
                     pfx (Some n)))).
Proof.
  intros Hr Hl Hlibs.
  split.
  - intros Hnone. unfold from_appmanifest.
    rewrite result_bind, result_catch.
    cbn [result open_read fst]. rewrite Hr.
    rewrite result_bind, result_catch, result_lift, Hl.
    rewrite result_bind, result_catch, result_lift.
    cbn [subscript]. rewrite Hnone. reflexivity.
  - intros st a n nm dir Hst Ha Hn Hnm Hdir.
    destruct (returns_ok _ (find_appid_proton_prefix_returns w n libs Hlibs))
      as [pfx Hpfx].
    exists pfx. split; [exact Hpfx|].
    unfold from_appmanifest.
    rewrite result_bind, result_catch.
    cbn [result open_read fst]. rewrite Hr.
    rewrite result_bind, result_catch, result_lift, Hl.
    rewrite result_bind, result_catch, result_lift.
    cbn [subscript]. rewrite Hst.
    mstep. cbn [items].
    mstep. cbn [subscript]. rewrite lower_keys_get, Ha.
    mstep. rewrite Hn.
    mstep. rewrite lower_keys_get, Hnm.
    mstep. cbn [as_str].
    rewrite result_bind, Hpfx.
    mstep. rewrite lower_keys_get, Hdir.
    mstep. cbn [as_str]. reflexivity.
Qed.

Lemma from_appmanifest_AppState_witness :
  result (from_appmanifest (world_manifest manifest_AppState) manifest_path
            [VStr (lit "/steam")])
  = Ok (Some {| appid := Some 440;
                name := lit "Team Fortress 2";
                prefix_path := Some (lit "/steam/steamapps/compatdata/440/pfx");
                install_path := lit "/steam/steamapps/common/Team Fortress 2" |}).
Proof.
  destruct (proj2 (from_appmanifest_AppState
                     (world_manifest manifest_AppState) manifest_path
                     [VStr (lit "/steam")] (lit "<appmanifest 440>")
                     [(lit "AppState",
                       VDict [(lit "appID", VStr (lit "440"));
                              (lit "Name", VStr (lit "Team Fortress 2"));
                              (lit "InstallDir", VStr (lit "Team Fortress 2"))])]
                     eq_refl eq_refl eq_refl)
              _ (VStr (lit "440")) 440 (lit "Team Fortress 2")
              (lit "Team Fortress 2") eq_refl eq_refl eq_refl eq_refl eq_refl)
    as (pfx & Hp & H).
  rewrite H. vm_compute in Hp. injection Hp as <-. reflexivity.
Defined.

(** C2 as stated fails: a manifest whose top-level key is spelled
    "appstate" is skipped as empty, though its subtree has every field. *)
Lemma from_appmanifest_appstate_skipped :
  from_appmanifest (world_manifest manifest_appstate) manifest_path
    [VStr (lit "/steam")]
  = (Ok None,
     [EvOpen manifest_path; EvLog Info "Skipping empty appmanifest {}"]).
Proof. reflexivity. Qed.

(* ================================================================== *)
(** ** The inventory is filtered and sorted *)

Lemma str_leb_total a b : str_leb a b = false -> str_leb b a = true.
Proof.
  unfold str_leb. rewrite negb_false_iff, negb_true_iff.
  revert b. induction a as [|x a IH]; intros [|y b]; simpl; try congruence.
  destruct (N.ltb_spec y x), (N.ltb_spec x y), (N.eqb_spec y x),
    (N.eqb_spec x y); simpl; try lia; try congruence; auto.
Qed.

Lemma str_leb_trans a b c :
  str_leb a b = true -> str_leb b c = true -> str_leb a c = true.
Proof.
  unfold str_leb. rewrite !negb_true_iff.
  revert b c. induction a as [|x a IH]; intros [|y b] [|z c]; simpl;
    try congruence.
  destruct (N.ltb_spec y x), (N.ltb_spec z y), (N.ltb_spec z x),
    (N.eqb_spec y x), (N.eqb_spec z y), (N.eqb_spec z x);
    simpl; try lia; try congruence; eauto.
Qed.

Lemma insert_by_name_perm a l : Permutation (insert_by_name a l) (a :: l).
Proof.
  induction l as [|b l IH]; simpl; [reflexivity|].
  destruct (str_leb (name a) (name b)); [reflexivity|].
  rewrite IH. apply perm_swap.
Qed.

Lemma sort_by_name_perm l : Permutation (sort_by_name l) l.
Proof.
  induction l as [|a l IH]; simpl; [reflexivity|].
  rewrite insert_by_name_perm. now constructor.
Qed.

Lemma insert_by_name_sorted a l :
  Sorted name_le l -> Sorted name_le (insert_by_name a l).
Proof.
  induction 1 as [|b l Hs IH Hd]; simpl; [repeat constructor|].
  destruct (str_leb (name a) (name b)) eqn:E.
  - repeat constructor; assumption.
  - constructor; [exact IH|].
    apply str_leb_total in E.
    destruct Hd as [|c l Hbc]; simpl.
    + constructor. exact E.
    + destruct (str_leb (name a) (name c)); constructor; assumption.
Qed.

Lemma sort_by_name_sorted l : StronglySorted name_le (sort_by_name l).
Proof.
  apply Sorted_StronglySorted.
  - intros a b c. apply str_leb_trans.
  - induction l as [|a l IH]; simpl; [constructor|].
    now apply insert_by_name_sorted.
Qed.

Lemma launched_or_proton_true w app :
  result (launched_or_proton w app) = Ok true -> launched_or_runtime w app.
Proof.
  unfold launched_or_proton, launched_or_runtime. rewrite result_bind.
  destruct (result (prefix_path_exists w app)) as [[|]|e]; try discriminate;
    auto.
Qed.

Lemma keep_launched_forall w l kept :
  result (keep_launched w l) = Ok kept ->
  Forall (launched_or_runtime w) kept /\ incl kept l.
Proof.
  revert kept. induction l as [|a l IH]; intros kept H.
  - injection H as <-. split; [constructor|apply incl_refl].
  - cbn [keep_launched] in H.
    apply bind_ok in H as (k & Hk & H).
    apply bind_ok in H as (kept' & Hkept & H).
    injection H as <-.
    destruct (IH _ Hkept) as [Hf Hi].
    destruct k.
    + split; [constructor; [now apply launched_or_proton_true|exact Hf]|].
      intros x [->|Hx]; [now left|right; auto].
    + split; [exact Hf|]. intros x Hx. right. auto.
Qed.

(** What the inventory calls a usable prefix: the path is set, the
    directory exists and so does its sibling pfx.lock. *)
Lemma prefix_path_exists_true w app :
  result (prefix_path_exists w app) = Ok true <->
  exists p, prefix_path app = Some p /\ p <> [] /\
            exists_ w p = true /\
            exists_ w (os_path_join p [lit ".."; lit "pfx.lock"]) = true.
Proof.
  unfold prefix_path_exists. destruct (prefix_path app) as [[|c p]|].
  - split; [discriminate|]. intros (p & H & Hp & _). congruence.
  - rewrite result_bind. cbn [result os_path_exists fst].
    destruct (exists_ w (c :: p)) eqn:E.
    + cbn [result os_path_exists fst]. split.
      * intros H. injection H as H. exists (c :: p).
        repeat split; auto; discriminate.
      * intros (q & Hq & _ & _ & H). injection Hq as <-. now rewrite H.
    + split; [discriminate|].
      intros (q & Hq & _ & H & _). injection Hq as <-. congruence.
  - split; [discriminate|]. intros (p & H & _). discriminate.
Qed.

(** C4.  Every record that [get_steam_apps] returns has a usable prefix or
    is a Proton installation, and the list is in ascending order of the
    names, compared code point by code point. *)
Theorem get_steam_apps_filtered_sorted w steam_root steam_path libs apps :
  result (get_steam_apps w steam_root steam_path libs) = Ok apps ->
  Forall (launched_or_runtime w) apps /\ StronglySorted name_le apps.
Proof.
  unfold get_steam_apps. intros H.
  apply bind_ok in H as (scanned & _ & H).
  apply bind_ok in H as (custom & _ & H).
  apply bind_ok in H as (shortcuts & _ & H).
  apply bind_ok in H as (kept & Hkept & H).
  injection H as <-.
  split.
  - apply keep_launched_forall in Hkept as [Hf _].
    rewrite Forall_forall in *. intros a Ha. apply Hf.
    apply (Permutation_in _ (sort_by_name_perm kept)). exact Ha.
  - apply sort_by_name_sorted.
Qed.

Lemma get_steam_apps_filtered_sorted_witness :
  Forall (launched_or_runtime world_inventory) [app_alpha; app_zeta] /\
  StronglySorted name_le [app_alpha; app_zeta].
Proof.
  apply (get_steam_apps_filtered_sorted world_inventory
           (lit "/steam") (lit "/steam") [VStr (lit "/steam")]).
  vm_compute. reflexivity.
Defined.

(* ================================================================== *)
(** ** The name of the Proton installation in use *)

Lemma bind_Ok {A B} (a : A) t (f : A -> M B) :
  bind (Ok a, t) f = after t (f a).
Proof. unfold bind, after. destruct (f a). reflexivity. Qed.

Lemma after_nil {A} (m : M A) : after [] m = m.
Proof. destruct m. reflexivity. Qed.

Lemma after_after {A} t t' (m : M A) :
  after t (after t' m) = after (t ++ t') m.
Proof. unfold after. simpl. now rewrite app_assoc. Qed.

Lemma dict_get_in {A} (d : list (pystr * A)) k v :
  dict_get d k = Some v -> exists k', In (k', v) d.
Proof.
  induction d as [|[k0 v0] d IH]; simpl; [discriminate|].
  destruct (str_eqb k0 k).
  - intros H. injection H as ->. eauto.
  - intros H. destruct (IH H) as [k' Hk]. eauto.
Qed.

Lemma mapping_name_candidate m key :
  entries_are_dicts m = true ->
  mapping_name (VDict m) key = Ok (candidate m key).
Proof.
  intros Hm. unfold mapping_name, get_or_empty, candidate, get_default.
  destruct (dict_get m key) as [v|] eqn:E; simpl; [|reflexivity].
  destruct (dict_get_in _ _ _ E) as [k' Hin].
  unfold entries_are_dicts in Hm. rewrite forallb_forall in Hm.
  specialize (Hm _ Hin). simpl in Hm.
  destruct v; try discriminate.
  destruct (dict_get d (lit "name")); reflexivity.
Qed.

Lemma first_valid_first_nonempty names :
  first_valid names = first_nonempty names.
Proof.
  unfold first_valid.
  induction names as [|[v|] names IH]; simpl; [reflexivity| |exact IH].
  destruct (truthy v); [reflexivity|exact IH].
Qed.

(** Below the subtree, a mapping that is absent reads as an empty one. *)
Lemma steam_mapping_or_empty doc steam key :
  steam_subtree doc = Ok (VDict steam) ->
  steam_mapping doc key = Ok (mapping_or_empty steam key).
Proof.
  unfold steam_subtree, steam_mapping, mapping_or_empty, rbind.
  destruct (subscript doc _) as [a|]; [|discriminate].
  destruct (subscript a _) as [b|]; [|discriminate].
  destruct (subscript b _) as [c|]; [|discriminate].
  intros ->. simpl. destruct (dict_get steam key); reflexivity.
Qed.

(** C5.  With config.vdf read and the two mappings taken from it (an
    absent one as empty), the name used is the first candidate that is
    present and not empty among new[appid].name, new["0"].name,
    legacy[appid].name and legacy["0"].name: the search of the installation
    goes on with that name, and when there is none the call returns nothing
    after the error "No Proton installation found in config.vdf". *)
Theorem find_steam_proton_app_selects_name
    w steam_path steam_apps appid content doc steam new_mapping legacy_mapping :
  read_text w (os_path_join steam_path [lit "config"; lit "config.vdf"])
  = Ok content ->
  vdf_loads w content = Ok doc ->
  steam_subtree doc = Ok (VDict steam) ->
  mapping_or_empty steam (lit "CompatToolMapping") = VDict new_mapping ->
  mapping_or_empty steam (lit "ToolMapping") = VDict legacy_mapping ->
  entries_are_dicts new_mapping = true ->
  entries_are_dicts legacy_mapping = true ->
  find_steam_proton_app w steam_path steam_apps appid
  = after [EvOpen (os_path_join steam_path [lit "config"; lit "config.vdf"])]
      match first_nonempty (runtime_candidates new_mapping legacy_mapping appid) with
      | Some compat_tool_name =>
          find_by_compat_tool_name w steam_path steam_apps compat_tool_name
      | None =>
          (Ok None, [EvLog Error "No Proton installation found in config.vdf"])
      end.
Proof.
  intros Hr Hl Hs Hnew Hleg Dn Dl.
  unfold find_steam_proton_app, open_read, lift.
  rewrite Hr, bind_Ok. f_equal.
  rewrite Hl, bind_Ok, after_nil.
  rewrite (steam_mapping_or_empty _ _ _ Hs), Hleg, bind_Ok, after_nil.
  rewrite (steam_mapping_or_empty _ _ _ Hs), Hnew, bind_Ok, after_nil.
  unfold potential_names.
  rewrite !(mapping_name_candidate _ _ Dn), !(mapping_name_candidate _ _ Dl).
  cbv beta iota delta [rbind]. rewrite bind_Ok, after_nil.
  rewrite first_valid_first_nonempty.
  fold (runtime_candidates new_mapping legacy_mapping appid).
  destruct (first_nonempty _); reflexivity.
Qed.

Lemma find_steam_proton_app_selects_name_witness :
  find_steam_proton_app (world_config steam_with_mapping) (lit "/steam")
    [app_alpha; app_proton_7] (Some 440)
  = (Ok (Some app_proton_7),
     [EvOpen (lit "/steam/config/config.vdf");
      EvLog Info "Found active custom Proton installation: {}"]) /\
  find_steam_proton_app (world_config steam_without_mapping) (lit "/steam")
    [app_alpha; app_proton_7] (Some 440)
  = (Ok None,
     [EvOpen (lit "/steam/config/config.vdf");
      EvLog Error "No Proton installation found in config.vdf"]).
Proof.
  split.
  - rewrite (find_steam_proton_app_selects_name
               (world_config steam_with_mapping) (lit "/steam")
               [app_alpha; app_proton_7] (Some 440) (lit "<config>")
               (config_of steam_with_mapping) steam_with_mapping
               _ [] eq_refl eq_refl eq_refl eq_refl eq_refl eq_refl eq_refl).
    reflexivity.
  - rewrite (find_steam_proton_app_selects_name
               (world_config steam_without_mapping) (lit "/steam")
               [app_alpha; app_proton_7] (Some 440) (lit "<config>")
               (config_of steam_without_mapping) steam_without_mapping
               [] [] eq_refl eq_refl eq_refl eq_refl eq_refl eq_refl eq_refl).
    reflexivity.
Defined.

Lemma first_nonempty_some candidates v :
  first_nonempty candidates = Some v <->
  exists before rest,
    candidates = before ++ Some v :: rest /\ truthy v = true /\
    Forall (fun c => truthy_opt c = false) before.
Proof.
  split.
  - induction candidates as [|[c|] l IH]; simpl; [discriminate| |].
    + destruct (truthy c) eqn:E.
      * intros H. injection H as ->. exists [], l. auto.
      * intros H. destruct (IH H) as (b & r & -> & Hv & Hb).
        exists (Some c :: b), r. repeat split; auto.
    + intros H. destruct (IH H) as (b & r & -> & Hv & Hb).
      exists (None :: b), r. repeat split; auto.
  - intros (b & r & -> & Hv & Hb).
    induction Hb as [|[c|] b Hc Hb IH]; simpl.
    + now rewrite Hv.
    + simpl in Hc. now rewrite Hc.
    + exact IH.
Qed.

Lemma first_nonempty_none candidates :
  first_nonempty candidates = None <->
  Forall (fun c => truthy_opt c = false) candidates.
Proof.
  induction candidates as [|[c|] l IH]; simpl.
  - split; auto.
  - destruct (truthy c) eqn:E.
    + split; [discriminate|]. intros H. inversion H. simpl in *. congruence.
    + rewrite IH. split; [auto|]. intros H. now inversion H.
  - rewrite IH. split; [auto|]. intros H. now inversion H.
Qed.

(* ================================================================== *)
(** ** Overrides from the environment *)

(** C6, as the code has it.  When PROTON_VERSION is set to a non-empty
    value, [find_proton_app] returns the first record of that name, or
    nothing after an error when there is none; it looks at the variable
    and at nothing else, so config.vdf is never consulted. *)
Theorem find_proton_app_override w steam_path steam_apps appid v :
  environ w (lit "PROTON_VERSION") = Some v ->
  v <> [] ->
  find_proton_app w steam_path steam_apps appid
  = match find (fun app => str_eqb (name app) v) steam_apps with
    | Some app =>
        (Ok (Some app),
         [EvEnviron (lit "PROTON_VERSION"); EvEnviron (lit "PROTON_VERSION");
          EvLog Info "Found requested Proton version: {}"])
    | None =>
        (Ok None,
         [EvEnviron (lit "PROTON_VERSION"); EvEnviron (lit "PROTON_VERSION");
          EvLog Error "$PROTON_VERSION was set but matching Proton installation could not be found."])
    end /\
  (forall app, result (find_proton_app w steam_path steam_apps appid)
               = Ok (Some app) -> In app steam_apps /\ name app = v) /\
  (forall app, In app steam_apps -> name app = v ->
               exists app', result (find_proton_app w steam_path steam_apps appid)
                            = Ok (Some app')) /\
  (forall p, ~ In (EvOpen p)
               (effects (find_proton_app w steam_path steam_apps appid))).
Proof.
  intros He Hv.
  assert (Heq : find_proton_app w steam_path steam_apps appid
    = match find (fun app => str_eqb (name app) v) steam_apps with
      | Some app =>
        (Ok (Some app),
         [EvEnviron (lit "PROTON_VERSION"); EvEnviron (lit "PROTON_VERSION");
          EvLog Info "Found requested Proton version: {}"])
      | None =>
        (Ok None,
         [EvEnviron (lit "PROTON_VERSION"); EvEnviron (lit "PROTON_VERSION");
          EvLog Error "$PROTON_VERSION was set but matching Proton installation could not be found."])
      end).
  { unfold find_proton_app, os_environ_get, first_app. rewrite He.
    destruct v as [|c v]; [congruence|].
    cbn [bind nonempty].
    destruct (find _ steam_apps); reflexivity. }
  rewrite Heq. split; [reflexivity|].
  destruct (find (fun app => str_eqb (name app) v) steam_apps) as [a|] eqn:F.
  - apply find_some in F as [Hin Hn]. apply str_eqb_eq in Hn.
    split; [|split].
    + intros app H. injection H as <-. split; assumption.
    + intros app _ _. exists a. reflexivity.
    + simpl. intros p [H|[H|[H|[]]]]; discriminate.
  - split; [|split].
    + discriminate.
    + intros app Hin Hn. exfalso.
      pose proof (find_none _ _ F _ Hin) as Hf. simpl in Hf.
      rewrite Hn, str_eqb_refl in Hf. discriminate.
    + simpl. intros p [H|[H|[H|[]]]]; discriminate.
Qed.

Lemma find_proton_app_override_witness :
  find_proton_app
    (with_env (world_config steam_with_mapping) (lit "PROTON_VERSION")
              (lit "Alpha"))
    (lit "/steam") [app_alpha; app_proton_7] (Some 440)
  = (Ok (Some app_alpha),
     [EvEnviron (lit "PROTON_VERSION"); EvEnviron (lit "PROTON_VERSION");
      EvLog Info "Found requested Proton version: {}"]).
Proof.
  refine (proj1 (find_proton_app_override
                   (with_env (world_config steam_with_mapping)
                             (lit "PROTON_VERSION") (lit "Alpha"))
                   (lit "/steam") [app_alpha; app_proton_7] (Some 440)
                   (lit "Alpha") eq_refl _)).
  discriminate.
Defined.

(** C6 as stated fails for the empty value: with PROTON_VERSION set to the
    empty string and no record of that name, the call does not fail; it
    reads config.vdf and returns the installation configured there. *)
Lemma find_proton_app_empty_override_falls_through :
  environ world_empty_override (lit "PROTON_VERSION") = Some [] /\
  find (fun app => str_eqb (name app) []) [app_alpha; app_proton_7] = None /\
  find_proton_app world_empty_override (lit "/steam")
    [app_alpha; app_proton_7] (Some 440)
  = (Ok (Some app_proton_7),
     [EvEnviron (lit "PROTON_VERSION");
      EvOpen (lit "/steam/config/config.vdf");
      EvLog Info "Found active custom Proton installation: {}"]).
Proof. repeat split. Qed.

(** C7, as the code has it.  When STEAM_DIR is set to a non-empty path,
    [find_steam_path] returns that path twice if it has a "steamapps" or
    "SteamApps" directory and an "ubuntu12_32" directory, and nothing
    twice otherwise; besides the marker of ~/.steam/root it looks only at
    the variable and at those three directories, so the common locations
    under the home directory are not probed. *)
Theorem find_steam_path_override w p :
  environ w (lit "STEAM_DIR") = Some p ->
  p <> [] ->
  result (find_steam_path w)
  = Ok (if valid_steam_dir w p then (Some p, Some p) else (None, None)) /\
  incl (effects (find_steam_path w)) (override_effects w p).
Proof.
  intros He Hp. destruct p as [|c p]; [congruence|].
  unfold valid_steam_dir, override_effects.
  set (root_marker := os_path_join (os_path_join (home w) _) _).
  set (p1 := os_path_join (c :: p) [lit "steamapps"]).
  set (p2 := os_path_join (c :: p) [lit "SteamApps"]).
  set (p3 := os_path_join (c :: p) [lit "ubuntu12_32"]).
  assert (Heq : find_steam_path w
    = after [EvIsdir root_marker; EvEnviron (lit "STEAM_DIR");
             EvEnviron (lit "STEAM_DIR"); EvIsdir p1]
        (if isdir w p1 then
           if isdir w p3 then
             (Ok (Some (c :: p), Some (c :: p)),
              [EvIsdir p3;
               EvLog Info "Found a valid Steam installation at %s."])
           else
             (Ok (None, None),
              [EvIsdir p3;
               EvLog Error "$STEAM_DIR was provided but didn't point to a valid Steam installation."])
         else if isdir w p2 then
           if isdir w p3 then
             (Ok (Some (c :: p), Some (c :: p)),
              [EvIsdir p2; EvIsdir p3;
               EvLog Info "Found a valid Steam installation at %s."])
           else
             (Ok (None, None),
              [EvIsdir p2; EvIsdir p3;
               EvLog Error "$STEAM_DIR was provided but didn't point to a valid Steam installation."])
         else
           (Ok (None, None),
            [EvIsdir p2;
             EvLog Error "$STEAM_DIR was provided but didn't point to a valid Steam installation."]))).
  { unfold find_steam_path, os_environ_get. rewrite He.
    unfold os_path_isdir at 1. rewrite !bind_Ok. cbn [nonempty].
    rewrite !after_after. cbn [app]. fold root_marker.
    unfold has_steamapps_dir, has_runtime_dir, os_path_isdir.
    fold p1 p2 p3.
    destruct (isdir w p1), (isdir w p2), (isdir w p3); reflexivity. }
  rewrite Heq.
  destruct (isdir w p1), (isdir w p2), (isdir w p3);
    (split; [reflexivity|]);
    intros e H; simpl in H; simpl; tauto.
Qed.

Lemma find_steam_path_override_witness :
  result (find_steam_path world_steam_dir)
  = Ok (Some (lit "/opt/steam"), Some (lit "/opt/steam")).
Proof.
  refine (proj1 (find_steam_path_override world_steam_dir (lit "/opt/steam")
                   eq_refl _)).
  discriminate.
Defined.

(** C7 as stated fails for the empty value: with STEAM_DIR set to the
    empty string the common locations are probed, and the installation at
    ~/.steam/steam is returned.  (With a valid override, the one place
    looked at under the home directory is the marker of ~/.steam/root.) *)
Lemma find_steam_path_empty_override_probes_home :
  environ world_empty_steam_dir (lit "STEAM_DIR") = Some [] /\
  find_steam_path world_empty_steam_dir
  = (Ok (Some (lit "/home/user/.steam/steam"),
         Some (lit "/home/user/.steam/steam")),
     [EvIsdir (lit "/home/user/.steam/root/ubuntu12_32");
      EvEnviron (lit "STEAM_DIR");
      EvIsdir (lit "/home/user/.steam/steam/steamapps");
      EvLog Info "Found Steam directory at {}. You can also define Steam directory manually using $STEAM_DIR"]) /\
  effects (find_steam_path world_steam_dir)
  = [EvIsdir (lit "/home/user/.steam/root/ubuntu12_32");
     EvEnviron (lit "STEAM_DIR"); EvEnviron (lit "STEAM_DIR");
     EvIsdir (lit "/opt/steam/steamapps"); EvIsdir (lit "/opt/steam/SteamApps");
     EvIsdir (lit "/opt/steam/ubuntu12_32");
     EvLog Info "Found a valid Steam installation at %s."].
Proof. repeat split. Qed.

(* ================================================================== *)
(** ** The reader of appinfo.vdf *)

Lemma skipn_length_app {A} (a l : list A) : skipn (List.length a) (a ++ l) = l.
Proof. induction a; simpl; auto. Qed.

Lemma firstn_length_app {A} (b l : list A) : firstn (List.length b) (b ++ l) = b.
Proof. induction b; simpl; [reflexivity|]. now f_equal. Qed.

(** A slice that cuts a list at the joints of three parts. *)
Lemma slice_app_mid {A} (a b c : list A) :
  slice (a ++ b ++ c) (Z.of_nat (List.length a))
        (Z.of_nat (List.length a) + Z.of_nat (List.length b)) = b.
Proof.
  unfold slice. rewrite !length_app.
  set (la := List.length a). set (lb := List.length b). set (lc := List.length c).
  destruct (Z.ltb_spec (Z.of_nat la) 0); [lia|].
  destruct (Z.ltb_spec (Z.of_nat la + Z.of_nat lb) 0); [lia|].
  rewrite !Z.min_l by lia.
  replace (Z.to_nat (Z.of_nat la + Z.of_nat lb - Z.of_nat la)) with lb by lia.
  rewrite Nat2Z.id. subst la lb.
  rewrite skipn_length_app. apply firstn_length_app.
Qed.

Lemma le_decode_nonneg bs : 0 <= le_decode bs.
Proof.
  unfold le_decode. induction bs as [|b bs IH]; cbn [fold_right]; [lia|].
  pose proof (N2Z.is_nonneg (Byte.to_N b)). lia.
Qed.

Lemma slice_short {A} (data : list A) i :
  0 <= i -> Z.of_nat (List.length data) - i < 48 ->
  List.length (slice data i (i + 48)) <> 48%nat.
Proof.
  intros Hi Hlen. unfold slice.
  destruct (Z.ltb_spec i 0); [lia|].
  destruct (Z.ltb_spec (i + 48) 0); [lia|].
  rewrite length_firstn, length_skipn. lia.
Qed.

Lemma unpack_section_entry_size h :
  List.length h = 48%nat ->
  exists f, unpack_section h = Ok f /\ entry_size f = le_decode (slice h 4 8).
Proof.
  intros Hh. unfold unpack_section. rewrite Hh. simpl Nat.eqb.
  eexists. split; reflexivity.
Qed.

Lemma unpack_section_ok bs f :
  unpack_section bs = Ok f -> List.length bs = 48%nat /\ 0 <= entry_size f.
Proof.
  unfold unpack_section.
  destruct (Nat.eqb_spec (List.length bs) 48); [|discriminate].
  intros H. injection H as <-. split; [assumption|]. apply le_decode_nonneg.
Qed.

(** One turn of the loop on an aligned record: the cursor moves over the
    48 bytes of the header and the [entry_size - 40] bytes of the blob,
    whether the blob decodes or holds invalid text. *)
Lemma read_section_aligned w pre r post sections :
  aligned_record r ->
  read_section w (pre ++ record_bytes r ++ post)
               (Z.of_nat (List.length pre)) sections
  = match vdf_binary_loads w (snd r) with
    | Ok vdf_d =>
        Ok (Z.of_nat (List.length pre) + 48 + Z.of_nat (List.length (snd r)),
            sections ++ [vdf_d])
    | Raise UnicodeDecodeError =>
        Ok (Z.of_nat (List.length pre) + 48 + Z.of_nat (List.length (snd r)),
            sections)
    | Raise e => Raise e
    end.
Proof.
  destruct r as [h blob]. intros [Hh Hes]. cbn [fst snd] in Hh, Hes.
  unfold read_section, record_bytes, section_size. cbn [fst snd].
  assert (S1 : slice (pre ++ (h ++ blob) ++ post)
                 (Z.of_nat (List.length pre)) (Z.of_nat (List.length pre) + 48)
               = h).
  { rewrite <- (app_assoc h blob post).
    replace 48 with (Z.of_nat (List.length h)) by lia.
    apply slice_app_mid. }
  rewrite S1.
  destruct (unpack_section_entry_size h Hh) as (f & -> & Hf).
  cbv beta iota zeta delta [rbind]. rewrite Hf, Hes.
  assert (S2 : slice (pre ++ (h ++ blob) ++ post)
                 (Z.of_nat (List.length pre) + 48)
                 (Z.of_nat (List.length pre) + 48
                  + (40 + Z.of_nat (List.length blob) - 40))
               = blob).
  { rewrite <- (app_assoc h blob post), (app_assoc pre h (blob ++ post)).
    replace (Z.of_nat (List.length pre) + 48)
      with (Z.of_nat (List.length (pre ++ h))) by (rewrite length_app; lia).
    replace (40 + Z.of_nat (List.length blob) - 40)
      with (Z.of_nat (List.length blob)) by lia.
    apply slice_app_mid. }
  rewrite S2.
  replace (40 + Z.of_nat (List.length blob) - 40)
    with (Z.of_nat (List.length blob)) by lia.
  destruct (vdf_binary_loads w blob) as [d|[]]; reflexivity.
Qed.

(** The loop never runs out of the fuel it is given. *)
Lemma sections_loop_fuel w fuel data i sections :
  0 <= i ->
  Z.of_nat (List.length data) - i < 8 * Z.of_nat fuel + 48 ->
  sections_loop w (S fuel) data i sections <> None.
Proof.
  revert i sections. induction fuel as [|fuel IH]; intros i sections Hi Hlen.
  - cbn [sections_loop]. unfold read_section, section_size.
    destruct (unpack_section (slice data i (i + 48))) as [f|e] eqn:E.
    + apply unpack_section_ok in E as [E _].
      exfalso. revert E. apply slice_short; lia.
    + discriminate.
  - remember (S fuel) as n. cbn [sections_loop].
    destruct (read_section w data i sections) as [[i' sections']|e] eqn:E;
      [|discriminate].
    destruct (i' =? Z.of_nat (List.length data) - 4); [discriminate|].
    subst n. apply IH.
    + unfold read_section, section_size in E.
      destruct (unpack_section _) as [f|] eqn:U; [|discriminate].
      apply unpack_section_ok in U as [_ U].
      cbv beta iota zeta delta [rbind] in E.
      destruct (vdf_binary_loads w _) as [d|[]]; try discriminate;
        injection E as <- _; lia.
    + unfold read_section, section_size in E.
      destruct (unpack_section _) as [f|] eqn:U; [|discriminate].
      apply unpack_section_ok in U as [_ U].
      cbv beta iota zeta delta [rbind] in E.
      destruct (vdf_binary_loads w _) as [d|[]]; try discriminate;
        injection E as <- _; lia.
Qed.

Lemma record_bytes_length r :
  aligned_record r ->
  List.length (record_bytes r) = (48 + List.length (snd r))%nat.
Proof.
  intros [Hh _]. unfold record_bytes. rewrite length_app. lia.
Qed.

Lemma decoded_cons w r rs sections :
  decodes_or_bad_text w r ->
  match vdf_binary_loads w (snd r) with
  | Ok vdf_d => sections ++ [vdf_d]
  | Raise _ => sections
  end ++ decoded w rs
  = sections ++ decoded w (r :: rs).
Proof.
  unfold decoded, decodes_or_bad_text. cbn [flat_map].
  destruct (vdf_binary_loads w (snd r)); intros _.
  - now rewrite <- app_assoc.
  - reflexivity.
Qed.

(** The loop over aligned records: every blob that decodes is collected,
    every blob of invalid text is passed over, and the loop ends at the
    trailer. *)
Lemma sections_loop_aligned w records :
  forall fuel pre trailer sections,
  records <> [] ->
  Forall aligned_record records ->
  Forall (decodes_or_bad_text w) records ->
  List.length trailer = 4%nat ->
  (List.length records <= fuel)%nat ->
  sections_loop w fuel (pre ++ flat_map record_bytes records ++ trailer)
                (Z.of_nat (List.length pre)) sections
  = Some (Ok (sections ++ decoded w records)).
Proof.
  induction records as [|r rs IH]; intros fuel pre trailer sections
    Hne Hal Hdec Htr Hfuel; [congruence|].
  destruct fuel as [|fuel]; [simpl in Hfuel; lia|].
  inversion Hal as [|? ? Hr Hrs]; subst.
  inversion Hdec as [|? ? Dr Drs]; subst.
  cbn [sections_loop flat_map].
  rewrite <- (app_assoc (record_bytes r)).
  rewrite (read_section_aligned w pre r _ sections Hr).
  pose proof (record_bytes_length r Hr) as Lr.
  assert (Hstep :
    match vdf_binary_loads w (snd r) with
    | Ok vdf_d =>
        Ok (Z.of_nat (List.length pre) + 48 + Z.of_nat (List.length (snd r)),
            sections ++ [vdf_d])
    | Raise UnicodeDecodeError =>
        Ok (Z.of_nat (List.length pre) + 48 + Z.of_nat (List.length (snd r)),
            sections)
    | Raise e => Raise e
    end
    = Ok (Z.of_nat (List.length (pre ++ record_bytes r)),
          match vdf_binary_loads w (snd r) with
          | Ok vdf_d => sections ++ [vdf_d]
          | Raise _ => sections
          end)).
  { rewrite length_app, Lr. unfold decodes_or_bad_text in Dr.
    destruct (vdf_binary_loads w (snd r)) as [d|e].
    - do 2 f_equal. lia.
    - subst e. do 2 f_equal. lia. }
  rewrite Hstep. clear Hstep.
  destruct rs as [|r' rs].
  - cbn [flat_map app].
    replace (Z.of_nat (List.length (pre ++ record_bytes r))
             =? Z.of_nat (List.length (pre ++ record_bytes r ++ trailer)) - 4)
      with true.
    + rewrite <- (decoded_cons w r [] sections Dr).
      change (decoded w []) with (@nil value). now rewrite app_nil_r.
    + symmetry. apply Z.eqb_eq. rewrite !length_app. lia.
  - replace (Z.of_nat (List.length (pre ++ record_bytes r))
             =? Z.of_nat (List.length
                  (pre ++ record_bytes r
                       ++ flat_map record_bytes (r' :: rs) ++ trailer)) - 4)
      with false.
    + rewrite (app_assoc pre (record_bytes r)).
      rewrite IH; try assumption; try discriminate.
      * now rewrite (decoded_cons w r (r' :: rs) sections Dr).
      * simpl in Hfuel |- *. lia.
    + symmetry. apply Z.eqb_neq.
      inversion Hrs as [|? ? Hr' _]; subst.
      pose proof (record_bytes_length r' Hr') as Lr'.
      cbn [flat_map]. rewrite !length_app. lia.
Qed.

Lemma flat_map_records_length records :
  Forall aligned_record records ->
  (List.length records <= List.length (flat_map record_bytes records))%nat.
Proof.
  induction 1 as [|r rs Hr _ IH]; simpl; [lia|].
  rewrite length_app, (record_bytes_length r Hr). lia.
Qed.

Lemma parse_appinfo_aligned w universe records trailer :
  List.length universe = 4%nat ->
  List.length trailer = 4%nat ->
  records <> [] ->
  Forall aligned_record records ->
  Forall (decodes_or_bad_text w) records ->
  parse_appinfo w (catalog universe records trailer) = Ok (decoded w records).
Proof.
  intros Hu Ht Hne Hal Hdec. unfold parse_appinfo, header_size.
  assert (S0 : slice (catalog universe records trailer) 0 8
               = appinfo_magic ++ universe).
  { unfold catalog. rewrite (app_assoc appinfo_magic universe).
    change (appinfo_magic ++ universe)
      with ([] ++ (appinfo_magic ++ universe)) at 1.
    rewrite <- (app_assoc []).
    replace 8 with (Z.of_nat (@List.length Byte.byte [])
                    + Z.of_nat (List.length (appinfo_magic ++ universe)))
      by (rewrite length_app, Hu; reflexivity).
    apply (slice_app_mid [] (appinfo_magic ++ universe)). }
  rewrite S0. unfold unpack_header.
  rewrite length_app, Hu. cbn [List.length Nat.add appinfo_magic Nat.eqb].
  cbv beta iota zeta delta [rbind].
  change (firstn 4 ([Byte.x27; Byte.x44; Byte.x56; Byte.x07] ++ universe))
    with appinfo_magic.
  unfold bytes_eqb.
  destruct (list_eq_dec Byte.byte_eq_dec appinfo_magic appinfo_magic);
    [|congruence].
  cbn [negb].
  unfold catalog. rewrite (app_assoc appinfo_magic universe).
  replace (0 + 8) with (Z.of_nat (List.length (appinfo_magic ++ universe)))
    by (rewrite length_app, Hu; reflexivity).
  rewrite (sections_loop_aligned w records _ (appinfo_magic ++ universe)
             trailer [] Hne Hal Hdec Ht).
  - reflexivity.
  - pose proof (flat_map_records_length records Hal).
    rewrite !length_app. lia.
Qed.

(** The fuel of [parse_appinfo] is enough for any file: the branch for
    fuel running out is never taken. *)
Lemma parse_appinfo_fuel w data :
  sections_loop w (S (List.length data)) data (0 + header_size) [] <> None.
Proof.
  apply sections_loop_fuel; unfold header_size; lia.
Qed.

(** C8, as the code has it.  In a catalog of aligned records whose blobs
    decode or fail with UnicodeDecodeError, a record of the second kind is
    passed over: the call returns the documents of all the other records,
    before and after it, and the turn of the loop on it moves the cursor by
    the 48 bytes of the header and the [entry_size - 40] bytes the header
    declares, leaving the sections as they were. *)
Theorem get_appinfo_sections_skips_bad_text w path universe records trailer :
  read_bytes w path = Ok (catalog universe records trailer) ->
  List.length universe = 4%nat ->
  List.length trailer = 4%nat ->
  records <> [] ->
  Forall aligned_record records ->
  Forall (decodes_or_bad_text w) records ->
  get_appinfo_sections w path = (Ok (decoded w records), [EvOpen path]) /\
  (forall before r rest sections,
     records = before ++ r :: rest ->
     vdf_binary_loads w (snd r) = Raise UnicodeDecodeError ->
     read_section w (catalog universe records trailer)
                  (offset_after before) sections
     = Ok (offset_after before + section_size
           + (le_decode (slice (fst r) 4 8) - 40),
           sections) /\
     decoded w records = decoded w before ++ decoded w rest).
Proof.
  intros Hr Hu Ht Hne Hal Hdec. split.
  - unfold get_appinfo_sections, open_read_bytes, lift. rewrite Hr, bind_Ok.
    rewrite (parse_appinfo_aligned w universe records trailer Hu Ht Hne Hal Hdec).
    reflexivity.
  - intros before r rest sections -> Hbad.
    apply Forall_app in Hal as [_ Hal].
    inversion Hal as [|? ? Har _]; subst.
    split.
    + unfold catalog. rewrite flat_map_app. cbn [flat_map].
      rewrite <- !app_assoc.
      rewrite (app_assoc universe), (app_assoc appinfo_magic).
      replace (offset_after before)
        with (Z.of_nat (List.length
                (appinfo_magic ++ universe ++ flat_map record_bytes before))).
      * rewrite (read_section_aligned w _ r _ sections Har), Hbad.
        destruct Har as [_ ->]. unfold section_size. do 2 f_equal. lia.
      * unfold offset_after. rewrite !length_app, Hu.
        cbn [List.length appinfo_magic]. lia.
    + unfold decoded. rewrite flat_map_app. cbn [flat_map].
      now rewrite Hbad.
Qed.

Lemma get_appinfo_sections_skips_bad_text_witness :
  get_appinfo_sections (world_appinfo records_bad_text)
    (lit "/steam/appcache/appinfo.vdf")
  = (Ok [VDict [(lit "appinfo", VDict [(lit "size", VInt 5)])];
         VDict [(lit "appinfo", VDict [(lit "size", VInt 2)])]],
     [EvOpen (lit "/steam/appcache/appinfo.vdf")]).
Proof.
  refine (proj1 (get_appinfo_sections_skips_bad_text
                   (world_appinfo records_bad_text)
                   (lit "/steam/appcache/appinfo.vdf")
                   example_universe records_bad_text example_trailer
                   eq_refl eq_refl eq_refl _ _ _)).
  - discriminate.
  - repeat constructor.
  - repeat constructor.
Defined.

(** C8 as stated fails for a blob that fails to decode in another way: a
    record whose blob is malformed (SyntaxError) is not passed over, the
    call fails and the record after it is never read. *)
Lemma get_appinfo_sections_malformed_blob_raises :
  Forall aligned_record records_malformed /\
  vdf_binary_loads (world_appinfo records_malformed) blob_malformed
  = Raise SyntaxError /\
  get_appinfo_sections (world_appinfo records_malformed)
    (lit "/steam/appcache/appinfo.vdf")
  = (Raise SyntaxError, [EvOpen (lit "/steam/appcache/appinfo.vdf")]).
Proof.
  split; [repeat constructor|]. split; reflexivity.
Qed.

(* ================================================================== *)
(** ** Library enumeration without an app-storage directory *)

Lemma result_try_except {A} (m : M A) h (k : M A) :
  result (try_except m h k)
  = match result m with
    | Ok a => Ok a
    | Raise e => if h e then result k else Raise e
    end.
Proof.
  destruct m as [[a|e] t]; simpl; [reflexivity|].
  destruct (h e); [destruct k|]; reflexivity.
Qed.

(** With a "steamapps" or "SteamApps" directory but no libraryfolders.vdf
    in it, the enumeration is the install path alone. *)
Lemma get_steam_lib_paths_degraded w steam_path :
  isdir w (os_path_join steam_path [lit "steamapps"]) = true ->
  read_text w (os_path_join steam_path [lit "steamapps"; lit "libraryfolders.vdf"])
  = Raise OSError ->
  result (get_steam_lib_paths w steam_path) = Ok [VStr steam_path].
Proof.
  intros Hd Hr. unfold get_steam_lib_paths.
  mstep. rewrite Hd. mstep.
  rewrite result_bind, result_try_except, result_bind.
  cbn [result open_read fst]. rewrite Hr. reflexivity.
Qed.

(** C10.  When the install path has neither a "steamapps" nor a
    "SteamApps" directory, [get_steam_lib_paths] raises UnboundLocalError
    after looking for the two directories; it does not return the list
    made of the install path alone. *)
Theorem get_steam_lib_paths_unbound w steam_path :
  isdir w (os_path_join steam_path [lit "steamapps"]) = false ->
  isdir w (os_path_join steam_path [lit "SteamApps"]) = false ->
  get_steam_lib_paths w steam_path
  = (Raise UnboundLocalError,
     [EvIsdir (os_path_join steam_path [lit "steamapps"]);
      EvIsdir (os_path_join steam_path [lit "SteamApps"])]) /\
  result (get_steam_lib_paths w steam_path) <> Ok [VStr steam_path].
Proof.
  intros H1 H2.
  assert (E : get_steam_lib_paths w steam_path
              = (Raise UnboundLocalError,
                 [EvIsdir (os_path_join steam_path [lit "steamapps"]);
                  EvIsdir (os_path_join steam_path [lit "SteamApps"])])).
  { unfold get_steam_lib_paths, os_path_isdir. rewrite H1, H2. reflexivity. }
  rewrite E. split; [reflexivity|discriminate].
Qed.

Lemma get_steam_lib_paths_unbound_witness :
  get_steam_lib_paths empty_world (lit "/steam")
  = (Raise UnboundLocalError,
     [EvIsdir (lit "/steam/steamapps"); EvIsdir (lit "/steam/SteamApps")]).
Proof.
  exact (proj1 (get_steam_lib_paths_unbound empty_world (lit "/steam")
                  eq_refl eq_refl)).
Defined.

(* ================================================================== *)
(** ** No record has the id 0 *)

Lemma SteamApp_init_nonzero nm ip pp id :
  appid (SteamApp_init nm ip pp id) <> Some 0.
Proof.
  unfold SteamApp_init. cbn [appid]. destruct id as [n|]; [|discriminate].
  destruct (Z.eqb_spec n 0); [discriminate|congruence].
Qed.

(** [inv_bind H]: from [H : result (x <- m ;; k) = Ok b], the value of [m]
    and the result of [k] on it. *)
Ltac inv_bind H :=
  let a := fresh "a" in
  let Ha := fresh "Ha" in
  apply bind_ok in H as (a & Ha & H); cbv beta in H.

(** [case_option H]: cases on the option that [H] examines. *)
Ltac case_option H :=
  match type of H with
  | result (match ?x with Some _ => _ | None => _ end) = _ =>
      let app := fresh "app" in destruct x as [app|]
  end.

Lemma for_each_inv {A St} (P : St -> Prop) (body : St -> A -> M St) :
  (forall s x s', P s -> result (body s x) = Ok s' -> P s') ->
  forall xs s r, P s -> result (for_each xs body s) = Ok r -> P r.
Proof.
  intros Hbody. induction xs as [|x xs IH]; intros s r Hs H.
  - injection H as <-. exact Hs.
  - cbn [for_each] in H. inv_bind H. eauto.
Qed.

Lemma nonzero_ids_snoc apps app :
  nonzero_ids apps -> appid app <> Some 0 -> nonzero_ids (apps ++ [app]).
Proof.
  intros Ha Hn. apply Forall_app. split; [exact Ha|]. now constructor.
Qed.

Lemma from_appmanifest_nonzero w path libs app :
  result (from_appmanifest w path libs) = Ok (Some app) ->
  appid app <> Some 0.
Proof.
  unfold from_appmanifest. intros H.
  inv_bind H. destruct a as [content|]; [|discriminate].
  inv_bind H. destruct a as [vdf_data|]; [|discriminate].
  inv_bind H. destruct a as [app_state|]; [|discriminate].
  do 8 inv_bind H.
  injection H as <-. apply SteamApp_init_nonzero.
Qed.

Lemma scan_libraries_nonzero w libs apps :
  result (scan_libraries w libs) = Ok apps -> nonzero_ids apps.
Proof.
  unfold scan_libraries.
  apply for_each_inv with (P := nonzero_ids); [|constructor].
  intros s x s' Hs H.
  do 3 inv_bind H. unfold scan_manifests in H.
  revert H. apply for_each_inv with (P := nonzero_ids); [|exact Hs].
  clear. intros s x s' Hs H.
  do 2 inv_bind H. case_option H.
  - do 2 inv_bind H. injection H as <-.
    apply nonzero_ids_snoc; [exact Hs|].
    eapply from_appmanifest_nonzero; eassumption.
  - injection H as <-. exact Hs.
Qed.

Lemma custom_proton_app_nonzero w comp_root vdf_path app :
  result (custom_proton_app w comp_root vdf_path) = Ok (Some app) ->
  appid app <> Some 0.
Proof.
  unfold custom_proton_app. intros H. do 9 inv_bind H.
  destruct (_ || _); [discriminate|].
  inv_bind H. injection H as <-. apply SteamApp_init_nonzero.
Qed.

Lemma get_custom_proton_installations_nonzero w steam_root apps :
  result (get_custom_proton_installations w steam_root) = Ok apps ->
  nonzero_ids apps.
Proof.
  unfold get_custom_proton_installations. intros H. inv_bind H.
  destruct (negb a); [injection H as <-; constructor|].
  do 2 inv_bind H.
  revert H. apply for_each_inv with (P := nonzero_ids); [|constructor].
  intros s x s' Hs H. inv_bind H. case_option H.
  - injection H as <-. apply nonzero_ids_snoc; [exact Hs|].
    eapply custom_proton_app_nonzero; eassumption.
  - injection H as <-. exact Hs.
Qed.

Lemma shortcut_app_nonzero w steam_path shortcut_id shortcut_data app :
  result (shortcut_app w steam_path shortcut_id shortcut_data) = Ok (Some app) ->
  appid app <> Some 0.
Proof.
  unfold shortcut_app. intros H. do 10 inv_bind H.
  destruct (negb _); [discriminate|].
  injection H as <-. apply SteamApp_init_nonzero.
Qed.

Lemma get_custom_windows_shortcuts_nonzero w steam_path apps :
  result (get_custom_windows_shortcuts w steam_path) = Ok apps ->
  nonzero_ids apps.
Proof.
  unfold get_custom_windows_shortcuts. intros H. do 2 inv_bind H.
  case_option H.
  - do 4 inv_bind H. injection H as <-.
    match goal with
    | F : result (for_each _ _ _) = Ok _ |- _ => revert F
    end.
    apply for_each_inv with (P := nonzero_ids); [|constructor].
    intros s x s' Hs H. inv_bind H. case_option H.
    + injection H as <-. apply nonzero_ids_snoc; [exact Hs|].
      eapply shortcut_app_nonzero; eassumption.
    + injection H as <-. exact Hs.
  - inv_bind H. injection H as <-. constructor.
Qed.

Lemma get_steam_apps_nonzero w steam_root steam_path libs apps :
  result (get_steam_apps w steam_root steam_path libs) = Ok apps ->
  nonzero_ids apps.
Proof.
  unfold get_steam_apps. intros H.
  apply bind_ok in H as (scanned & Hscan & H).
  apply bind_ok in H as (custom & Hcustom & H).
  apply bind_ok in H as (shortcuts & Hshort & H).
  apply bind_ok in H as (kept & Hkept & H).
  injection H as <-.
  apply scan_libraries_nonzero in Hscan.
  apply get_custom_proton_installations_nonzero in Hcustom.
  apply get_custom_windows_shortcuts_nonzero in Hshort.
  apply keep_launched_forall in Hkept as [_ Hincl].
  assert (Hall : nonzero_ids ((scanned ++ custom) ++ shortcuts)).
  { apply Forall_app. split; [apply Forall_app; split|]; assumption. }
  unfold nonzero_ids in *. rewrite Forall_forall in *.
  intros a Ha. apply Hall, Hincl.
  apply (Permutation_in _ (sort_by_name_perm kept)). exact Ha.
Qed.

Lemma find_by_compat_tool_name_zero w steam_path steam_apps compat_tool_name :
  first_app (name_is compat_tool_name) steam_apps = None ->
  result (get_proton_appid w compat_tool_name
            (os_path_join steam_path [lit "appcache"; lit "appinfo.vdf"]))
  = Ok (Some (VInt 0)) ->
  find_by_compat_tool_name w steam_path steam_apps compat_tool_name
  = (Ok None,
     effects (get_proton_appid w compat_tool_name
                (os_path_join steam_path [lit "appcache"; lit "appinfo.vdf"]))
     ++ [EvLog Error "Could not find Proton's App ID from appinfo.vdf"]).
Proof.
  intros Hn Hz. unfold find_by_compat_tool_name. rewrite Hn.
  destruct (get_proton_appid w compat_tool_name _) as [r t].
  simpl in Hz. subst r. reflexivity.
Qed.

(** C9.  A record built with the id 0 has no id, as one built without an
    id; no record that [get_steam_apps] returns has the id 0; and when
    appinfo.vdf gives the id 0 for the name of the Proton installation, the
    installation is reported as not found. *)
Theorem zero_appid_is_absent :
  (forall nm ip pp,
     SteamApp_init nm ip pp (Some 0) = SteamApp_init nm ip pp None /\
     appid (SteamApp_init nm ip pp (Some 0)) = None) /\
  (forall w steam_root steam_path libs apps,
     result (get_steam_apps w steam_root steam_path libs) = Ok apps ->
     nonzero_ids apps) /\
  (forall w steam_path steam_apps compat_tool_name,
     first_app (name_is compat_tool_name) steam_apps = None ->
     result (get_proton_appid w compat_tool_name
               (os_path_join steam_path [lit "appcache"; lit "appinfo.vdf"]))
     = Ok (Some (VInt 0)) ->
     find_by_compat_tool_name w steam_path steam_apps compat_tool_name
     = (Ok None,
        effects (get_proton_appid w compat_tool_name
                   (os_path_join steam_path [lit "appcache"; lit "appinfo.vdf"]))
        ++ [EvLog Error "Could not find Proton's App ID from appinfo.vdf"])).
Proof.
  split; [|split].
  - intros nm ip pp. split; reflexivity.
  - apply get_steam_apps_nonzero.
  - apply find_by_compat_tool_name_zero.
Qed.

Lemma zero_appid_is_absent_witness :
  nonzero_ids [app_alpha; app_zeta] /\
  find_by_compat_tool_name (world_catalog_id (VInt 0)) (lit "/steam")
    [app_alpha; app_zeta] (VStr (lit "proton_316_beta"))
  = (Ok None,
     [EvOpen (lit "/steam/appcache/appinfo.vdf");
      EvLog Error "Could not find Proton's App ID from appinfo.vdf"]).
Proof.
  destruct zero_appid_is_absent as (_ & Hinv & Hzero). split.
  - apply (Hinv world_inventory (lit "/steam") (lit "/steam")
             [VStr (lit "/steam")]).
    vm_compute. reflexivity.
  - rewrite (Hzero (world_catalog_id (VInt 0)) (lit "/steam")
               [app_alpha; app_zeta] (VStr (lit "proton_316_beta"))
               eq_refl eq_refl).
    reflexivity.
Defined.

(* ================================================================== *)
(** * Further properties of steam.py *)

(** ** Where the prefix of an app is looked for *)

(** X1.  The prefix of an app is the first directory that exists among
    <library>/steamapps/compatdata/<id>/pfx and
    <library>/SteamApps/compatdata/<id>/pfx, library after library in the
    order given ("steamapps" before "SteamApps" for each); there is none
    exactly when none of these is a directory. *)
Theorem find_appid_proton_prefix_first_existing w n (libs : list pystr) :
  result (find_appid_proton_prefix w n (map VStr libs))
  = Ok (find (isdir w) (prefix_candidates n libs)).
Proof.
  induction libs as [|lib libs IH]; [reflexivity|].
  cbn [map find_appid_proton_prefix as_str prefix_candidates flat_map app find].
  do 2 mstep. destruct (isdir w _); [reflexivity|].
  mstep. destruct (isdir w _); [reflexivity|].
  exact IH.
Qed.

(** ** The installation found without an override *)

Lemma probe_common_dirs_find w dirs steam_root :
  result (probe_common_dirs w dirs steam_root)
  = Ok match find (has_apps w) (map (path_div (home w)) dirs) with
       | Some p =>
           (Some p, if nonempty steam_root then steam_root else Some p)
       | None => (None, None)
       end.
Proof.
  induction dirs as [|d dirs IH]; [reflexivity|].
  cbn [probe_common_dirs map find]. unfold has_steamapps_dir, has_apps.
  rewrite !result_bind. cbn [result fst os_path_isdir].
  destruct (isdir w (os_path_join (path_div (home w) d) [lit "steamapps"])).
  - reflexivity.
  - cbn [orb result fst os_path_isdir].
    destruct (isdir w _); [reflexivity|]. exact IH.
Qed.

Lemma join2_nonempty path b : b <> [] -> join2 path b <> [].
Proof.
  intros Hb. unfold join2.
  destruct (starts_with_slash b); [exact Hb|].
  destruct path as [|c path]; [exact Hb|].
  destruct (ends_with_slash (c :: path)); discriminate.
Qed.

Lemma steam_root_nonempty h :
  nonempty (Some (os_path_join h [lit ".steam"; lit "root"])) = true.
Proof.
  unfold os_path_join. cbn [fold_left].
  destruct (join2 (join2 h (lit ".steam")) (lit "root")) eqn:E; [|reflexivity].
  exfalso. revert E. apply join2_nonempty. discriminate.
Qed.

(** X2.  Without STEAM_DIR (unset or empty), the installation is the first
    of ~/.steam/steam and ~/.local/share/Steam that has a "steamapps" or
    "SteamApps" directory, if any, the two being paths of [pathlib] under
    the home directory, hence normalised; the tool root returned with it is
    ~/.steam/root (joined as strings) when that holds "ubuntu12_32" and the
    installation path itself otherwise. *)
Theorem find_steam_path_default w :
  nonempty (environ w (lit "STEAM_DIR")) = false ->
  result (find_steam_path w)
  = Ok match find (has_apps w)
                  [path_div (home w) (lit ".steam/steam");
                   path_div (home w) (lit ".local/share/Steam")] with
       | Some p => (Some p, Some (tool_root w p))
       | None => (None, None)
       end.
Proof.
  intros He. unfold find_steam_path.
  rewrite result_bind. cbn [result fst os_path_isdir].
  rewrite result_bind. cbn [result fst os_environ_get]. rewrite He.
  rewrite probe_common_dirs_find. unfold tool_root.
  change (map (path_div (home w)) COMMON_STEAM_DIRS)
    with [path_div (home w) (lit ".steam/steam");
          path_div (home w) (lit ".local/share/Steam")].
  destruct (find _ _); [|reflexivity].
  destruct (isdir w _); [|reflexivity].
  now rewrite steam_root_nonempty.
Qed.

Lemma find_steam_path_default_witness :
  result (find_steam_path
            (with_dirs world_home_slashes
               [lit "/home/user/.local/share/Steam/SteamApps"]))
  = Ok (Some (lit "/home/user/.local/share/Steam"),
        Some (lit "/home/user/.local/share/Steam")).
Proof.
  exact (find_steam_path_default
           (with_dirs world_home_slashes
              [lit "/home/user/.local/share/Steam/SteamApps"])
           eq_refl).
Defined.

(* ================================================================== *)
(** ** The loop of [get_appinfo_sections] *)

Lemma sections_loop_more_fuel w fuel fuel' data i sections :
  sections_loop w fuel data i sections <> None ->
  (fuel <= fuel')%nat ->
  sections_loop w fuel' data i sections = sections_loop w fuel data i sections.
Proof.
  revert fuel' i sections.
  induction fuel as [|fuel IH]; intros fuel' i sections Hn Hle.
  - exfalso. apply Hn. reflexivity.
  - destruct fuel' as [|fuel']; [lia|].
    cbn [sections_loop] in *.
    destruct (read_section w data i sections) as [[i' sections']|e];
      [|reflexivity].
    destruct (i' =? Z.of_nat (List.length data) - 4); [reflexivity|].
    apply IH; [exact Hn|lia].
Qed.

(** X3.  The [while True] loop of [get_appinfo_sections] ends on every
    file: within [len(data)] turns it has returned or raised, so the
    outcome is the same for any larger number of turns allowed. *)
Theorem get_appinfo_sections_loop_ends w data fuel :
  (List.length data < fuel)%nat ->
  sections_loop w fuel data (0 + header_size) [] <> None /\
  sections_loop w fuel data (0 + header_size) []
  = sections_loop w (S (List.length data)) data (0 + header_size) [].
Proof.
  intros Hf.
  pose proof (parse_appinfo_fuel w data) as Hn.
  rewrite (sections_loop_more_fuel w _ fuel data _ [] Hn) by lia.
  split; [exact Hn|reflexivity].
Qed.

Lemma get_appinfo_sections_loop_ends_witness :
  sections_loop (world_appinfo records_bad_text) 1000
    (catalog example_universe records_bad_text example_trailer)
    (0 + header_size) [] <> None.
Proof.
  apply (get_appinfo_sections_loop_ends (world_appinfo records_bad_text)
           (catalog example_universe records_bad_text example_trailer) 1000).
  vm_compute. lia.
Defined.

Lemma slice_all_prefix {A} (data : list A) n :
  (n <= List.length data)%nat ->
  slice data 0 (Z.of_nat n) = firstn n data.
Proof.
  intros Hn. unfold slice.
  destruct (Z.ltb_spec 0 0); [lia|].
  destruct (Z.ltb_spec (Z.of_nat n) 0); [lia|].
  rewrite Z.min_l by lia. rewrite Z.min_l by lia.
  rewrite Z.sub_0_r, Nat2Z.id. reflexivity.
Qed.

Lemma slice_length_le {A} (data : list A) i j :
  (List.length (slice data i j) <= List.length data)%nat.
Proof.
  unfold slice. rewrite length_firstn, length_skipn. lia.
Qed.

(** X4.  A file shorter than the 8-byte header makes [struct.unpack] fail,
    and a file whose first four bytes are not the magic number is refused
    with SyntaxError; in both cases no section is decoded, whatever the
    rest of the file holds. *)
Theorem get_appinfo_sections_bad_header w path data :
  read_bytes w path = Ok data ->
  ((List.length data < 8)%nat ->
   get_appinfo_sections w path = (Raise StructError, [EvOpen path])) /\
  ((8 <= List.length data)%nat ->
   firstn 4 data <> appinfo_magic ->
   get_appinfo_sections w path = (Raise SyntaxError, [EvOpen path])).
Proof.
  intros Hr. unfold get_appinfo_sections, open_read_bytes, lift.
  rewrite Hr, bind_Ok. unfold after. cbn [fst snd app].
  unfold parse_appinfo, header_size. split.
  - intros Hlen. unfold unpack_header.
    pose proof (slice_length_le data 0 8) as Hs.
    destruct (Nat.eqb_spec (List.length (slice data 0 8)) 8); [lia|].
    reflexivity.
  - intros Hlen Hmagic.
    change 8 with (Z.of_nat 8). rewrite slice_all_prefix by exact Hlen.
    unfold unpack_header. rewrite length_firstn.
    replace (Nat.min 8 (List.length data)) with 8%nat by lia.
    cbn [Nat.eqb]. cbv beta iota zeta delta [rbind].
    rewrite firstn_firstn. cbn [Nat.min].
    unfold bytes_eqb.
    destruct (list_eq_dec Byte.byte_eq_dec (firstn 4 data) appinfo_magic);
      [contradiction|].
    reflexivity.
Qed.

Lemma get_appinfo_sections_bad_header_witness :
  get_appinfo_sections
    (world_appinfo_bytes [Byte.x27; Byte.x44; Byte.x56])
    (lit "/steam/appcache/appinfo.vdf")
  = (Raise StructError, [EvOpen (lit "/steam/appcache/appinfo.vdf")]) /\
  get_appinfo_sections
    (world_appinfo_bytes
       ([Byte.x28; Byte.x44; Byte.x56; Byte.x07] ++ example_universe
        ++ record_bytes (record_for 10 blob_good_5) ++ example_trailer))
    (lit "/steam/appcache/appinfo.vdf")
  = (Raise SyntaxError, [EvOpen (lit "/steam/appcache/appinfo.vdf")]).
Proof.
  split.
  - refine (proj1 (get_appinfo_sections_bad_header
                     (world_appinfo_bytes [Byte.x27; Byte.x44; Byte.x56])
                     (lit "/steam/appcache/appinfo.vdf") _ eq_refl) _).
    simpl. lia.
  - refine (proj2 (get_appinfo_sections_bad_header
                     (world_appinfo_bytes _)
                     (lit "/steam/appcache/appinfo.vdf") _ eq_refl) _ _).
    + simpl. lia.
    + discriminate.
Defined.

Lemma slice_tail_short pre (trailer : pybytes) :
  (List.length trailer < 48)%nat ->
  List.length (slice (pre ++ trailer) (Z.of_nat (List.length pre))
                     (Z.of_nat (List.length pre) + 48)) <> 48%nat.
Proof.
  intros Ht. apply slice_short; [lia|]. rewrite length_app. lia.
Qed.

(** After aligned records, a trailer that is not of 4 bytes (and too short
    to be a record) makes the loop read past the end. *)
Lemma sections_loop_bad_trailer w records :
  forall fuel pre trailer sections,
  Forall aligned_record records ->
  Forall (decodes_or_bad_text w) records ->
  (List.length trailer < 48)%nat ->
  records = [] \/ List.length trailer <> 4%nat ->
  (List.length records < fuel)%nat ->
  sections_loop w fuel (pre ++ flat_map record_bytes records ++ trailer)
                (Z.of_nat (List.length pre)) sections
  = Some (Raise StructError).
Proof.
  induction records as [|r rs IH]; intros fuel pre trailer sections
    Hal Hdec Htr Hbad Hfuel.
  - destruct fuel as [|fuel]; [simpl in Hfuel; lia|].
    cbn [sections_loop flat_map app]. unfold read_section, section_size.
    unfold unpack_section.
    destruct (Nat.eqb_spec
                (List.length (slice (pre ++ trailer)
                                (Z.of_nat (List.length pre))
                                (Z.of_nat (List.length pre) + 48))) 48)
      as [E|E]; [|reflexivity].
    exfalso. revert E. now apply slice_tail_short.
  - destruct Hbad as [Hbad|Hbad]; [discriminate|].
    destruct fuel as [|fuel]; [simpl in Hfuel; lia|].
    inversion Hal as [|? ? Hr Hrs]; subst.
    inversion Hdec as [|? ? Dr Drs]; subst.
    cbn [sections_loop flat_map].
    rewrite <- (app_assoc (record_bytes r)).
    rewrite (read_section_aligned w pre r _ sections Hr).
    pose proof (record_bytes_length r Hr) as Lr.
    pose proof (flat_map_records_length rs Hrs) as Lrs.
    unfold decodes_or_bad_text in Dr.
    assert (Hi : Z.of_nat (List.length pre) + 48
                 + Z.of_nat (List.length (snd r))
                 = Z.of_nat (List.length (pre ++ record_bytes r)))
      by (rewrite length_app, Lr; lia).
    assert (Hne : (Z.of_nat (List.length (pre ++ record_bytes r))
                   =? Z.of_nat (List.length
                        (pre ++ record_bytes r
                             ++ flat_map record_bytes rs ++ trailer)) - 4)
                  = false).
    { apply Z.eqb_neq. rewrite !length_app.
      destruct rs as [|r' rs'].
      - simpl. lia.
      - inversion Hrs as [|? ? Hr' _]; subst.
        pose proof (record_bytes_length r' Hr'). cbn [flat_map].
        rewrite !length_app. lia. }
    assert (Hrec : forall sections',
      sections_loop w fuel
        (pre ++ record_bytes r ++ flat_map record_bytes rs ++ trailer)
        (Z.of_nat (List.length (pre ++ record_bytes r))) sections'
      = Some (Raise StructError)).
    { intros sections'. rewrite (app_assoc pre (record_bytes r)).
      apply IH; try assumption.
      - right. exact Hbad.
      - simpl in Hfuel. lia. }
    destruct (vdf_binary_loads w (snd r)) as [d|e].
    + rewrite Hi, Hne. apply Hrec.
    + subst e. rewrite Hi, Hne. apply Hrec.
Qed.

(** X5.  The reader needs at least one record and a trailer of exactly 4
    bytes: on a catalog of aligned records with no record at all, or with
    a trailer of another length (shorter than a record header),
    [get_appinfo_sections] fails in [struct.unpack] instead of returning
    the sections read. *)
Theorem get_appinfo_sections_needs_trailer w path universe records trailer :
  read_bytes w path = Ok (catalog universe records trailer) ->
  List.length universe = 4%nat ->
  Forall aligned_record records ->
  Forall (decodes_or_bad_text w) records ->
  (List.length trailer < 48)%nat ->
  records = [] \/ List.length trailer <> 4%nat ->
  get_appinfo_sections w path = (Raise StructError, [EvOpen path]).
Proof.
  intros Hr Hu Hal Hdec Ht Hbad.
  unfold get_appinfo_sections, open_read_bytes, lift.
  rewrite Hr, bind_Ok. unfold after. cbn [fst snd app]. f_equal.
  unfold parse_appinfo, header_size.
  assert (S0 : slice (catalog universe records trailer) 0 8
               = appinfo_magic ++ universe).
  { unfold catalog. rewrite (app_assoc appinfo_magic universe).
    change (appinfo_magic ++ universe)
      with ([] ++ (appinfo_magic ++ universe)) at 1.
    rewrite <- (app_assoc []).
    replace 8 with (Z.of_nat (@List.length Byte.byte [])
                    + Z.of_nat (List.length (appinfo_magic ++ universe)))
      by (rewrite length_app, Hu; reflexivity).
    apply (slice_app_mid [] (appinfo_magic ++ universe)). }
  rewrite S0. unfold unpack_header.
  rewrite length_app, Hu. cbn [List.length Nat.add appinfo_magic Nat.eqb].
  cbv beta iota zeta delta [rbind].
  change (firstn 4 ([Byte.x27; Byte.x44; Byte.x56; Byte.x07] ++ universe))
    with appinfo_magic.
  unfold bytes_eqb.
  destruct (list_eq_dec Byte.byte_eq_dec appinfo_magic appinfo_magic);
    [|congruence].
  cbn [negb].
  unfold catalog. rewrite (app_assoc appinfo_magic universe).
  replace (0 + 8) with (Z.of_nat (List.length (appinfo_magic ++ universe)))
    by (rewrite length_app, Hu; reflexivity).
  rewrite (sections_loop_bad_trailer w records _ (appinfo_magic ++ universe)
             trailer [] Hal Hdec Ht Hbad).
  - reflexivity.
  - pose proof (flat_map_records_length records Hal).
    rewrite !length_app. lia.
Qed.

Lemma get_appinfo_sections_needs_trailer_witness :
  get_appinfo_sections (world_appinfo []) (lit "/steam/appcache/appinfo.vdf")
  = (Raise StructError, [EvOpen (lit "/steam/appcache/appinfo.vdf")]).
Proof.
  apply (get_appinfo_sections_needs_trailer (world_appinfo [])
           (lit "/steam/appcache/appinfo.vdf")
           example_universe [] example_trailer eq_refl eq_refl).
  - constructor.
  - constructor.
  - simpl. lia.
  - left. reflexivity.
Defined.

(* ================================================================== *)
(** ** The lookup of a tool in appinfo.vdf *)

Lemma search_compat_tools_app nm a b :
  search_compat_tools nm (a ++ b)
  = match search_compat_tools nm a with
    | Ok (Some v) => Ok (Some v)
    | Ok None => search_compat_tools nm b
    | Raise e => Raise e
    end.
Proof.
  induction a as [|[k entry] a IH]; [reflexivity|].
  cbn [app search_compat_tools]. unfold rbind.
  destruct (entry_aliases k entry) as [al|e]; [|reflexivity].
  destruct (existsb (value_eqb nm) al); [|exact IH].
  destruct (subscript entry (lit "appid")); reflexivity.
Qed.

Lemma search_sections_cons nm s rest t :
  section_tools s = Some t ->
  search_sections nm (s :: rest)
  = match search_compat_tools nm t with
    | Ok (Some v) => Ok (Some v)
    | Ok None => search_sections nm rest
    | Raise e => Raise e
    end.
Proof.
  unfold section_tools. cbn [search_sections].
  destruct s as [| |d|]; try discriminate.
  unfold get_or_empty, get_default, rbind. cbn [subscript items].
  destruct (dict_get d (lit "appinfo")) as [[| |a|]|] eqn:E1;
    try discriminate.
  - cbn [subscript].
    destruct (dict_get a (lit "extended")) as [[| |e|]|] eqn:E2;
      try discriminate.
    + cbn [subscript].
      destruct (dict_get e (lit "compat_tools")) as [[s|n|t'|l]|] eqn:E3.
      * cbn [truthy_opt]. destruct (truthy (VStr s)); [discriminate|].
        intros H. injection H as <-. reflexivity.
      * cbn [truthy_opt]. destruct (truthy (VInt n)); [discriminate|].
        intros H. injection H as <-. reflexivity.
      * intros H. injection H as <-. cbn [truthy_opt truthy].
        destruct t' as [|kv t']; [reflexivity|]. cbn [negb items].
        destruct (search_compat_tools nm (kv :: t')) as [[v|]|]; reflexivity.
      * cbn [truthy_opt]. destruct (truthy (VList l)); [discriminate|].
        intros H. injection H as <-. reflexivity.
      * intros H. injection H as <-. reflexivity.
    + intros H. injection H as <-. reflexivity.
  - intros H. injection H as <-. reflexivity.
Qed.

Lemma search_sections_all_tools nm sections tools :
  all_tools sections = Some tools ->
  search_sections nm sections = search_compat_tools nm tools.
Proof.
  revert tools. induction sections as [|s rest IH]; intros tools H.
  - injection H as <-. reflexivity.
  - cbn [all_tools] in H.
    destruct (section_tools s) as [t|] eqn:Es; [|discriminate].
    destruct (all_tools rest) as [ts|]; [|discriminate].
    injection H as <-.
    rewrite (search_sections_cons nm s rest t Es), search_compat_tools_app.
    now rewrite (IH ts eq_refl).
Qed.

Lemma tool_ok_aliases nm kv :
  tool_ok kv = true ->
  exists aliases id,
    entry_aliases (fst kv) (snd kv) = Ok aliases /\
    existsb (value_eqb nm) aliases = known_as nm kv /\
    subscript (snd kv) (lit "appid") = Ok id /\
    tool_appid kv = Some id.
Proof.
  destruct kv as [k entry]. unfold tool_ok, known_as, tool_appid, entry_aliases.
  cbn [fst snd]. destruct entry as [| |e|]; try discriminate.
  cbn [contains_key subscript]. unfold rbind.
  destruct (dict_get e (lit "appid")) as [id|]; [|discriminate].
  destruct (dict_get e (lit "aliases")) as [[a|n|d|l]|]; try discriminate;
    intros _.
  - exists [VStr k; VStr a], id. cbn [app existsb]. rewrite orb_false_r. auto.
  - exists (VStr k :: l), id. cbn [app existsb]. auto.
  - exists [VStr k], id. cbn [existsb]. auto.
Qed.

Lemma search_compat_tools_find nm tools :
  forallb tool_ok tools = true ->
  search_compat_tools nm tools
  = Ok match find (known_as nm) tools with
       | Some kv => tool_appid kv
       | None => None
       end.
Proof.
  induction tools as [|kv tools IH]; [reflexivity|].
  cbn [forallb]. intros H. apply andb_prop in H as [Hk Ht].
  destruct (tool_ok_aliases nm kv Hk) as (al & id & Ha & He & Hs & Hi).
  destruct kv as [k entry]. cbn [fst snd] in *.
  cbn [search_compat_tools find]. unfold rbind.
  rewrite Ha, He. destruct (known_as nm (k, entry)).
  - now rewrite Hs, Hi.
  - exact (IH Ht).
Qed.

(** X6.  [get_proton_appid] treats the "compat_tools" of all sections of
    appinfo.vdf as one list in file order (sections without them count for
    nothing) and returns the "appid" of the first tool whose key, whose
    "aliases" string or one of whose "aliases" list equals the name; with
    no such tool it returns None. *)
Theorem get_proton_appid_first_known w nm path sections tools :
  result (get_appinfo_sections w path) = Ok sections ->
  all_tools sections = Some tools ->
  forallb tool_ok tools = true ->
  result (get_proton_appid w nm path)
  = Ok match find (known_as nm) tools with
       | Some kv => tool_appid kv
       | None => None
       end.
Proof.
  intros Hs Ha Hok. unfold get_proton_appid.
  rewrite result_bind, Hs. rewrite result_bind, result_lift.
  rewrite (search_sections_all_tools nm sections tools Ha).
  rewrite (search_compat_tools_find nm tools Hok).
  destruct (find (known_as nm) tools) as [kv|]; [|reflexivity].
  destruct (tool_appid kv); reflexivity.
Qed.

Lemma get_proton_appid_first_known_witness :
  result (get_proton_appid (world_catalog_id (VInt 858280))
            (VStr (lit "proton_316_beta")) (lit "/steam/appcache/appinfo.vdf"))
  = Ok (Some (VInt 858280)).
Proof.
  exact (get_proton_appid_first_known (world_catalog_id (VInt 858280))
           (VStr (lit "proton_316_beta")) (lit "/steam/appcache/appinfo.vdf")
           [compat_tools_doc (VInt 858280)]
           [(lit "proton_316",
             VDict [(lit "aliases", VStr (lit "proton_316_beta"));
                    (lit "appid", VInt 858280)])]
           eq_refl eq_refl eq_refl).
Defined.

(** X7.  An "aliases" field that is neither a string nor a list makes the
    lookup fail with TypeError as soon as the loop reaches that tool, even
    when the name asked for is the key of the tool itself or of a later
    tool. *)
Theorem search_compat_tools_bad_aliases nm before key e a rest :
  forallb tool_ok before = true ->
  find (known_as nm) before = None ->
  dict_get e (lit "aliases") = Some a ->
  match a with VStr _ | VList _ => False | _ => True end ->
  search_compat_tools nm (before ++ (key, VDict e) :: rest) = Raise TypeError.
Proof.
  intros Hok Hnone Ha Hbad.
  rewrite search_compat_tools_app, (search_compat_tools_find nm before Hok),
    Hnone.
  cbn [search_compat_tools]. unfold entry_aliases, rbind.
  cbn [contains_key subscript]. rewrite Ha.
  destruct a; try contradiction; reflexivity.
Qed.

Lemma search_compat_tools_bad_aliases_witness :
  search_compat_tools (VStr (lit "proton_42"))
    [(lit "proton_316", VDict [(lit "appid", VInt 858280)]);
     (lit "proton_42",
      VDict [(lit "aliases", VDict [(lit "0", VStr (lit "proton_42_beta"))]);
             (lit "appid", VInt 1054830)])]
  = Raise TypeError.
Proof.
  exact (search_compat_tools_bad_aliases (VStr (lit "proton_42"))
           [(lit "proton_316", VDict [(lit "appid", VInt 858280)])]
           (lit "proton_42")
           [(lit "aliases", VDict [(lit "0", VStr (lit "proton_42_beta"))]);
            (lit "appid", VInt 1054830)]
           (VDict [(lit "0", VStr (lit "proton_42_beta"))])
           [] eq_refl eq_refl eq_refl I).
Defined.

(* ================================================================== *)
(** ** The resolver returns records of the inventory *)

Lemma first_app_in p apps app : first_app p apps = Some app -> In app apps.
Proof. unfold first_app. intros H. now apply find_some in H. Qed.

Lemma find_by_compat_tool_name_in w steam_path steam_apps nm app :
  result (find_by_compat_tool_name w steam_path steam_apps nm) = Ok (Some app) ->
  In app steam_apps.
Proof.
  unfold find_by_compat_tool_name.
  destruct (first_app (name_is nm) steam_apps) as [a|] eqn:F.
  - intros H. injection H as <-. eapply first_app_in; eassumption.
  - intros H. inv_bind H.
    destruct (negb (truthy_opt a)); [discriminate|].
    destruct a as [proton_appid|]; [|discriminate].
    destruct (first_app (appid_is proton_appid) steam_apps) as [a|] eqn:G;
      [|discriminate].
    injection H as <-. eapply first_app_in; eassumption.
Qed.

Lemma find_steam_proton_app_in w steam_path steam_apps appid app :
  result (find_steam_proton_app w steam_path steam_apps appid) = Ok (Some app) ->
  In app steam_apps.
Proof.
  unfold find_steam_proton_app. intros H. do 5 inv_bind H.
  destruct (first_valid _) as [nm|]; [|discriminate].
  eapply find_by_compat_tool_name_in; eassumption.
Qed.

(** X8.  Whatever the environment, config.vdf and appinfo.vdf hold, an
    app that [find_proton_app] returns is one of the apps it was given; it
    never makes up a record. *)
Theorem find_proton_app_in_inventory w steam_path steam_apps appid app :
  result (find_proton_app w steam_path steam_apps appid) = Ok (Some app) ->
  In app steam_apps.
Proof.
  unfold find_proton_app. intros H. inv_bind H.
  destruct (nonempty a).
  - inv_bind H.
    destruct (first_app _ steam_apps) as [p|] eqn:F; [|discriminate].
    injection H as <-. eapply first_app_in; eassumption.
  - inv_bind H. destruct a0 as [p|]; [|discriminate].
    injection H as <-. eapply find_steam_proton_app_in; eassumption.
Qed.

Lemma find_proton_app_in_inventory_witness :
  In app_proton_7 [app_alpha; app_proton_7].
Proof.
  apply (find_proton_app_in_inventory (world_config steam_with_mapping)
           (lit "/steam") [app_alpha; app_proton_7] (Some 440)).
  reflexivity.
Defined.

(* ================================================================== *)
(** ** What [get_steam_lib_paths] returns *)

Lemma get_steam_lib_paths_unfold w steam_path :
  has_apps w steam_path = true ->
  result (get_steam_lib_paths w steam_path)
  = match result (bind (open_read w (folders_vdf w steam_path))
                       (parse_library_folders w)) with
    | Ok folders => Ok (VStr steam_path :: folders)
    | Raise OSError => Ok [VStr steam_path]
    | Raise e => Raise e
    end.
Proof.
  unfold has_apps, folders_vdf, apps_dir, get_steam_lib_paths. intros H.
  mstep.
  destruct (isdir w (os_path_join steam_path [lit "steamapps"])).
  - mstep. rewrite result_bind, result_try_except.
    destruct (result (bind _ _)) as [f|[]]; reflexivity.
  - cbn [orb] in H. rewrite result_bind, result_bind.
    cbn [result fst os_path_isdir]. rewrite H. cbn [result fst ret].
    rewrite result_bind, result_try_except.
    destruct (result (bind _ _)) as [f|[]]; reflexivity.
Qed.

(** X9.  When [get_steam_lib_paths] returns, the installation has a
    "steamapps" or "SteamApps" directory and the first library of the
    list is the installation path itself. *)
Theorem get_steam_lib_paths_head w steam_path libs :
  result (get_steam_lib_paths w steam_path) = Ok libs ->
  has_apps w steam_path = true /\
  exists folders, libs = VStr steam_path :: folders.
Proof.
  intros H. destruct (has_apps w steam_path) eqn:Ha.
  - split; [reflexivity|].
    rewrite (get_steam_lib_paths_unfold w steam_path Ha) in H.
    destruct (result (bind _ _)) as [f|[]]; try discriminate;
      injection H as <-; eauto.
  - exfalso. unfold has_apps in Ha. apply orb_false_elim in Ha as [H1 H2].
    unfold get_steam_lib_paths, os_path_isdir in H. rewrite H1, H2 in H.
    discriminate.
Qed.

Lemma get_steam_lib_paths_head_witness :
  has_apps (with_dirs world_folders_1_0 [lit "/steam/steamapps"]) (lit "/steam")
  = true.
Proof.
  exact (proj1 (get_steam_lib_paths_head
                  (with_dirs world_folders_1_0 [lit "/steam/steamapps"])
                  (lit "/steam")
                  [VStr (lit "/steam"); VStr (lit "/mnt/b"); VStr (lit "/mnt/a")]
                  eq_refl)).
Defined.

(** X10.  A libraryfolders.vdf that cannot be opened is not a failure:
    with the app-storage directory present under either name ("steamapps"
    is taken when both exist), the list is the installation path alone. *)
Theorem get_steam_lib_paths_missing_manifest w steam_path :
  has_apps w steam_path = true ->
  read_text w (folders_vdf w steam_path) = Raise OSError ->
  result (get_steam_lib_paths w steam_path) = Ok [VStr steam_path].
Proof.
  intros Ha Hr. rewrite (get_steam_lib_paths_unfold w steam_path Ha).
  rewrite result_bind. cbn [result fst open_read]. now rewrite Hr.
Qed.

Lemma get_steam_lib_paths_missing_manifest_witness :
  result (get_steam_lib_paths
            (with_dirs empty_world [lit "/steam/SteamApps"]) (lit "/steam"))
  = Ok [VStr (lit "/steam")].
Proof.
  exact (get_steam_lib_paths_missing_manifest
           (with_dirs empty_world [lit "/steam/SteamApps"]) (lit "/steam")
           eq_refl eq_refl).
Defined.

(** X11.  Only a file that cannot be opened degrades: when
    libraryfolders.vdf is read but [vdf.loads] refuses it, or it has no
    "LibraryFolders" mapping, the exception reaches the caller. *)
Theorem get_steam_lib_paths_bad_manifest w steam_path content e :
  has_apps w steam_path = true ->
  read_text w (folders_vdf w steam_path) = Ok content ->
  result (parse_library_folders w content) = Raise e ->
  e <> OSError ->
  result (get_steam_lib_paths w steam_path) = Raise e.
Proof.
  intros Ha Hr Hp He. rewrite (get_steam_lib_paths_unfold w steam_path Ha).
  rewrite result_bind. cbn [result fst open_read]. rewrite Hr, Hp.
  destruct e; congruence.
Qed.

Lemma get_steam_lib_paths_bad_manifest_witness :
  result (get_steam_lib_paths world_bad_folders (lit "/steam"))
  = Raise SyntaxError.
Proof.
  apply (get_steam_lib_paths_bad_manifest world_bad_folders (lit "/steam")
           (lit "{") SyntaxError eq_refl eq_refl eq_refl).
  discriminate.
Defined.

(* ================================================================== *)
(** ** Custom Proton installations *)

(** X12.  Of a compatibilitytool.vdf only the first tool is looked at.  It
    gives a record exactly when its "from_oslist" is "windows" and its
    "to_oslist" is "linux"; the record has the key of the tool as name, no
    id and no prefix, and as install path the directory of the file when
    "install_path" is "." and compatibilitytools.d/<install_path>
    otherwise. *)
Theorem custom_proton_app_accepts
    w comp_root vdf_path content doc ct nm info others ip from_os to_os :
  read_text w vdf_path = Ok content ->
  vdf_loads w content = Ok doc ->
  subscript doc (lit "compatibilitytools") = Ok ct ->
  subscript ct (lit "compat_tools") = Ok (VDict ((nm, VDict info) :: others)) ->
  dict_get info (lit "install_path") = Some (VStr ip) ->
  dict_get info (lit "from_oslist") = Some from_os ->
  dict_get info (lit "to_oslist") = Some to_os ->
  result (custom_proton_app w comp_root vdf_path)
  = Ok (if value_eqb from_os (VStr (lit "windows"))
           && value_eqb to_os (VStr (lit "linux"))
        then Some (custom_app nm
                     (if str_eqb ip (lit ".") then os_path_dirname vdf_path
                      else os_path_join comp_root [ip]))
        else None).
Proof.
  intros Hr Hl Hc Ht Hi Hf Hto. unfold custom_proton_app.
  rewrite result_bind. cbn [result fst open_read]. rewrite Hr.
  mstep. rewrite Hl. mstep. rewrite Hc. mstep. rewrite Ht.
  mstep. cbn [first_key]. mstep. cbn [subscript dict_get].
  rewrite str_eqb_refl. mstep. cbn [subscript]. rewrite Hi.
  mstep. rewrite Hf. mstep. rewrite Hto.
  destruct (value_eqb from_os (VStr (lit "windows"))); [|reflexivity].
  destruct (value_eqb to_os (VStr (lit "linux"))); [|reflexivity].
  cbn [negb orb andb value_eqb].
  rewrite result_bind.
  destruct (str_eqb ip (lit ".")); reflexivity.
Qed.

Lemma custom_proton_app_accepts_witness :
  result (custom_proton_app world_custom_tools (lit "/root/compatibilitytools.d")
            (lit "/root/compatibilitytools.d/proton_ge/compatibilitytool.vdf"))
  = Ok (Some (custom_app (lit "proton_ge")
                (lit "/root/compatibilitytools.d/proton_ge"))) /\
  result (custom_proton_app world_custom_tools (lit "/root/compatibilitytools.d")
            (lit "/root/compatibilitytools.d/compatibilitytool.vdf"))
  = Ok None.
Proof.
  split.
  - exact (custom_proton_app_accepts world_custom_tools
             (lit "/root/compatibilitytools.d")
             (lit "/root/compatibilitytools.d/proton_ge/compatibilitytool.vdf")
             (lit "<proton_ge>") _ _ (lit "proton_ge") _ [] (lit ".")
             (VStr (lit "windows")) (VStr (lit "linux"))
             eq_refl eq_refl eq_refl eq_refl eq_refl eq_refl eq_refl).
  - exact (custom_proton_app_accepts world_custom_tools
             (lit "/root/compatibilitytools.d")
             (lit "/root/compatibilitytools.d/compatibilitytool.vdf")
             (lit "<wine_native>") _ _ (lit "wine_native") _ [] (lit "wine")
             (VStr (lit "windows")) (VStr (lit "windows"))
             eq_refl eq_refl eq_refl eq_refl eq_refl eq_refl eq_refl).
Defined.

Lemma custom_proton_app_shape w comp_root vdf_path app :
  result (custom_proton_app w comp_root vdf_path) = Ok (Some app) ->
  appid app = None /\ prefix_path app = None.
Proof.
  unfold custom_proton_app. intros H. do 9 inv_bind H.
  destruct (_ || _); [discriminate|].
  inv_bind H. injection H as <-. split; reflexivity.
Qed.

(** X13.  The records of [get_custom_proton_installations] have no id and
    no prefix; so the filter of the inventory keeps a custom tool exactly
    when its install directory holds a file named "proton". *)
Theorem get_custom_proton_installations_shape w steam_root apps :
  result (get_custom_proton_installations w steam_root) = Ok apps ->
  Forall (fun app =>
            appid app = None /\ prefix_path app = None /\
            usable w app
            = exists_ w (os_path_join (install_path app) [lit "proton"]))
         apps.
Proof.
  unfold get_custom_proton_installations. intros H. inv_bind H.
  destruct (negb a); [injection H as <-; constructor|].
  do 2 inv_bind H.
  revert H. apply for_each_inv; [|constructor].
  intros s x s' Hs H. inv_bind H. case_option H.
  - injection H as <-. apply Forall_app. split; [exact Hs|].
    constructor; [|constructor].
    match goal with
    | F : result (custom_proton_app _ _ _) = Ok (Some _) |- _ =>
        destruct (custom_proton_app_shape _ _ _ _ F) as [Hi Hp]
    end.
    repeat split; try assumption. unfold usable. now rewrite Hp.
  - injection H as <-. exact Hs.
Qed.

Lemma get_custom_proton_installations_shape_witness :
  Forall (fun app =>
            appid app = None /\ prefix_path app = None /\
            usable world_custom_tools app
            = exists_ world_custom_tools
                (os_path_join (install_path app) [lit "proton"]))
         [custom_app (lit "proton_ge") (lit "/root/compatibilitytools.d/proton_ge")].
Proof.
  apply (get_custom_proton_installations_shape world_custom_tools (lit "/root")).
  reflexivity.
Defined.

(* ================================================================== *)
(** ** The user who is logged in *)

Lemma max_by_timestamp_in best users u :
  max_by_timestamp best users = Ok u -> In u (best :: users).
Proof.
  revert best. induction users as [|x users IH]; intros best H.
  - injection H as <-. now left.
  - cbn [max_by_timestamp] in H. unfold rbind in H.
    destruct (value_gtb (snd x) (snd best)) as [g|]; [|discriminate].
    apply IH in H. destruct g; destruct H as [<-|H]; simpl; auto.
Qed.

Lemma login_users_in its users u :
  login_users its = Ok users -> In u users ->
  exists uid ud, In (uid, ud) its /\ to_steamid3 uid = Ok (fst (fst u)).
Proof.
  revert users. induction its as [|[uid ud] its IH]; intros users H Hin.
  - injection H as <-. destruct Hin.
  - cbn [login_users] in H. unfold rbind in H.
    destruct (to_steamid3 uid) as [sid|] eqn:Es; [|discriminate].
    destruct (subscript ud (lit "AccountName")); [|discriminate].
    destruct (get_default ud (lit "Timestamp") (Some (VInt 0)));
      [|discriminate].
    destruct (login_users its) as [us|]; [|discriminate].
    injection H as <-. destruct Hin as [<-|Hin].
    + exists uid, ud. split; [now left|exact Es].
    + destruct (IH us eq_refl Hin) as (uid' & ud' & Hi & Ht).
      exists uid', ud'. split; [now right|exact Ht].
Qed.

(** X14.  The id that [find_current_steamid3] returns is the SteamID64 of
    one of the users of loginusers.vdf reduced to its low 32 bits, so it
    lies between 0 and 2^32 - 1. *)
Theorem find_current_steamid3_is_a_user w steam_path content doc its id :
  read_text w (os_path_join steam_path [lit "config"; lit "loginusers.vdf"])
  = Ok content ->
  vdf_loads w content = Ok doc ->
  subscript doc (lit "users") = Ok (VDict its) ->
  result (find_current_steamid3 w steam_path) = Ok (Some id) ->
  0 <= id < 2 ^ 32 /\
  exists uid ud n,
    In (uid, ud) its /\ int_of_str uid = Ok n /\ id = n mod 2 ^ 32.
Proof.
  intros Hr Hl Hs H. unfold find_current_steamid3 in H.
  rewrite result_bind, result_catch, result_bind in H.
  cbn [result fst open_read] in H. rewrite Hr, result_lift, Hl in H.
  rewrite result_bind, result_lift, Hs in H.
  rewrite result_bind in H. cbn [result fst lift items] in H.
  rewrite result_bind, result_lift in H.
  destruct (login_users its) as [users|] eqn:Eu; [|discriminate].
  destruct users as [|u rest]; [discriminate|].
  rewrite result_bind, result_lift in H.
  destruct (max_by_timestamp u rest) as [user|] eqn:Em; [|discriminate].
  cbn in H. injection H as <-.
  apply max_by_timestamp_in in Em.
  destruct (login_users_in its _ user Eu Em) as (uid & ud & Hin & Ht).
  unfold to_steamid3, rbind in Ht.
  destruct (int_of_str uid) as [n|] eqn:En; [|discriminate].
  injection Ht as Ht.
  assert (Hm : fst (fst user) = n mod 2 ^ 32).
  { rewrite <- Ht. change 0xffffffff with (Z.ones 32).
    apply Z.land_ones. lia. }
  split.
  - rewrite Hm. apply Z.mod_pos_bound. lia.
  - exists uid, ud, n. auto.
Qed.

Lemma find_current_steamid3_is_a_user_witness :
  result (find_current_steamid3 (world_loginusers users_two_logins) (lit "/steam"))
  = Ok (Some 39734274) /\ 0 <= 39734274 < 2 ^ 32.
Proof.
  split; [reflexivity|].
  exact (proj1 (find_current_steamid3_is_a_user
                  (world_loginusers users_two_logins) (lit "/steam")
                  (lit "<loginusers>") _ users_two_logins 39734274
                  eq_refl eq_refl eq_refl eq_refl)).
Defined.

Lemma str_leb_refl a : str_leb a a = true.
Proof.
  destruct (str_leb a a) eqn:E; [reflexivity|].
  pose proof (str_leb_total a a E). congruence.
Qed.

Lemma str_ltb_leb a b : str_ltb a b = true -> str_leb a b = true.
Proof.
  intros H. destruct (str_leb a b) eqn:E; [reflexivity|].
  apply str_leb_total in E. unfold str_leb in E. rewrite H in E. discriminate.
Qed.

Lemma str_leb_ltb_trans a b c :
  str_leb a b = true -> str_ltb b c = true -> str_ltb a c = true.
Proof.
  intros Hab Hbc. destruct (str_ltb a c) eqn:E; [reflexivity|].
  assert (Hca : str_leb c a = true) by (unfold str_leb; now rewrite E).
  pose proof (str_leb_trans c a b Hca Hab) as Hcb.
  unfold str_leb in Hcb. rewrite Hbc in Hcb. discriminate.
Qed.

Lemma str_ltb_leb_trans a b c :
  str_ltb a b = true -> str_leb b c = true -> str_ltb a c = true.
Proof.
  intros Hab Hbc. destruct (str_ltb a c) eqn:E; [reflexivity|].
  assert (Hca : str_leb c a = true) by (unfold str_leb; now rewrite E).
  pose proof (str_leb_trans b c a Hbc Hca) as Hba.
  unfold str_leb in Hba. rewrite Hab in Hba. discriminate.
Qed.

(** X15.  Among users whose timestamps are all strings, the user chosen by
    [max(users, key=...)] is the first one with the greatest timestamp:
    every user before it has a smaller timestamp and no user after it has a
    greater one, timestamps being compared as strings, character by
    character. *)
Theorem max_by_timestamp_first_greatest best users :
  forallb has_str_timestamp (best :: users) = true ->
  exists u before after,
    max_by_timestamp best users = Ok u /\
    best :: users = before ++ u :: after /\
    Forall (fun v => str_ltb (timestamp_of v) (timestamp_of u) = true) before /\
    Forall (fun v => str_leb (timestamp_of v) (timestamp_of u) = true) after.
Proof.
  revert best. induction users as [|x users IH]; intros best H.
  - exists best, [], []. repeat split; constructor.
  - cbn [forallb] in H. apply andb_prop in H as [Hb H].
    apply andb_prop in H as [Hx Hu].
    cbn [max_by_timestamp]. unfold rbind, value_gtb.
    unfold has_str_timestamp in Hb, Hx.
    destruct (snd x) as [tx| | |] eqn:Ex; try discriminate.
    destruct (snd best) as [tb| | |] eqn:Eb; try discriminate.
    destruct (str_ltb tb tx) eqn:G.
    + destruct (IH x) as (u & before & after & Hm & Hl & Hbf & Haf).
      { cbn [forallb]. unfold has_str_timestamp. rewrite Ex. exact Hu. }
      exists u, (best :: before), after. repeat split.
      * exact Hm.
      * cbn [app]. now rewrite Hl.
      * constructor; [|exact Hbf].
        assert (Hxu : str_leb (timestamp_of x) (timestamp_of u) = true).
        { destruct before as [|b0 before'].
          - cbn [app] in Hl. injection Hl as <- _. apply str_leb_refl.
          - cbn [app] in Hl. injection Hl as <- _.
            inversion Hbf; subst. now apply str_ltb_leb. }
        apply (str_ltb_leb_trans _ (timestamp_of x)); [|exact Hxu].
        unfold timestamp_of. now rewrite Eb, Ex.
      * exact Haf.
    + destruct (IH best) as (u & before & after & Hm & Hl & Hbf & Haf).
      { cbn [forallb]. unfold has_str_timestamp. rewrite Eb. exact Hu. }
      assert (Hxb : str_leb (timestamp_of x) (timestamp_of best) = true).
      { unfold timestamp_of, str_leb. now rewrite Ex, Eb, G. }
      destruct before as [|b0 before'].
      * cbn [app] in Hl. injection Hl as <- <-.
        exists best, [], (x :: users). repeat split.
        -- exact Hm.
        -- constructor.
        -- constructor; [exact Hxb|exact Haf].
      * cbn [app] in Hl. injection Hl as <- ->.
        exists u, (best :: x :: before'), after. repeat split.
        -- exact Hm.
        -- inversion Hbf as [|? ? Hbu Hrest]; subst.
           constructor; [exact Hbu|]. constructor; [|exact Hrest].
           now apply (str_leb_ltb_trans _ (timestamp_of best)).
        -- exact Haf.
Qed.

Lemma max_by_timestamp_first_greatest_witness :
  max_by_timestamp (1, VStr (lit "alice"), VStr (lit "1561000000"))
    [(2, VStr (lit "bob"), VStr (lit "1562000000"));
     (3, VStr (lit "carol"), VStr (lit "1562000000"))]
  = Ok (2, VStr (lit "bob"), VStr (lit "1562000000")).
Proof.
  destruct (max_by_timestamp_first_greatest
              (1, VStr (lit "alice"), VStr (lit "1561000000"))
              [(2, VStr (lit "bob"), VStr (lit "1562000000"));
               (3, VStr (lit "carol"), VStr (lit "1562000000"))] eq_refl)
    as (u & _ & _ & Hm & _).
  rewrite Hm. vm_compute in Hm. injection Hm as <-. reflexivity.
Defined.

(** X16.  A user without a "Timestamp" gets the integer 0 as key while
    the others have strings: when the first two users of loginusers.vdf
    are one with a timestamp and one without, the comparison of the two
    keys raises TypeError and no user is returned. *)
Theorem find_current_steamid3_mixed_timestamps
    w steam_path content doc uid1 ud1 t uid2 ud2 rest users :
  read_text w (os_path_join steam_path [lit "config"; lit "loginusers.vdf"])
  = Ok content ->
  vdf_loads w content = Ok doc ->
  subscript doc (lit "users")
  = Ok (VDict ((uid1, VDict ud1) :: (uid2, VDict ud2) :: rest)) ->
  dict_get ud1 (lit "Timestamp") = Some (VStr t) ->
  dict_get ud2 (lit "Timestamp") = None ->
  login_users ((uid1, VDict ud1) :: (uid2, VDict ud2) :: rest) = Ok users ->
  result (find_current_steamid3 w steam_path) = Raise TypeError.
Proof.
  intros Hr Hl Hs Ht1 Ht2 Hu. unfold find_current_steamid3.
  rewrite result_bind, result_catch, result_bind.
  cbn [result fst open_read]. rewrite Hr, result_lift, Hl.
  rewrite result_bind, result_lift, Hs.
  rewrite result_bind. cbn [result fst lift items].
  rewrite result_bind, result_lift, Hu.
  cbn [login_users] in Hu. unfold rbind, get_default in Hu.
  rewrite Ht1, Ht2 in Hu.
  destruct (to_steamid3 uid1); [|discriminate].
  destruct (subscript (VDict ud1) (lit "AccountName")); [|discriminate].
  destruct (to_steamid3 uid2); [|discriminate].
  destruct (subscript (VDict ud2) (lit "AccountName")); [|discriminate].
  destruct (login_users rest); [|discriminate].
  injection Hu as <-. reflexivity.
Qed.

Lemma find_current_steamid3_mixed_timestamps_witness :
  result (find_current_steamid3
            (world_loginusers users_one_without_timestamp) (lit "/steam"))
  = Raise TypeError.
Proof.
  exact (find_current_steamid3_mixed_timestamps
           (world_loginusers users_one_without_timestamp) (lit "/steam")
           (lit "<loginusers>") _ (lit "76561198000000001") _
           (lit "1561000000") (lit "76561198000000002") _ [] _
           eq_refl eq_refl eq_refl eq_refl eq_refl eq_refl).
Defined.

(* ================================================================== *)
(** ** Non-Steam shortcuts *)

Lemma get_appid_from_shortcut_range target nm id :
  get_appid_from_shortcut target nm = Ok id -> 2 ^ 31 <= id < 2 ^ 32.
Proof.
  unfold get_appid_from_shortcut, rbind.
  destruct (str_encode_utf8 target) as [bt|]; [|discriminate].
  destruct (str_encode_utf8 nm) as [bn|]; [|discriminate].
  cbv beta zeta. intros H.
  apply (f_equal (fun r => match r with Ok x => x | Raise _ => 0 end)) in H.
  cbv beta iota in H. rewrite <- H. clear H.
  pose proof (crc32_below (bt ++ bn)) as Hc.
  rewrite (land_mask32 _ Hc).
  pose proof (high_bit_set _ Hc) as Hid.
  rewrite upper_half by lia. exact Hid.
Qed.

(** X17.  A shortcut becomes a record only if its prefix
    <steam_path>/steamapps/compatdata/<id>/pfx is a directory, [id] being
    the id derived from its "exe" and "appname" (fields found whatever
    their case); the record has that id, which lies between 2^31 and
    2^32 - 1, that prefix, and the name "Non-Steam shortcut: " followed by
    the app name. *)
Theorem shortcut_app_record w steam_path shortcut_id shortcut_data app :
  result (shortcut_app w steam_path shortcut_id shortcut_data) = Ok (Some app) ->
  exists fields target appname id,
    shortcut_data = VDict fields /\
    get_ignoring_case fields (lit "exe") = Some (VStr target) /\
    get_ignoring_case fields (lit "appname") = Some (VStr appname) /\
    get_appid_from_shortcut target appname = Ok id /\
    2 ^ 31 <= id < 2 ^ 32 /\
    appid app = Some id /\
    name app = lit "Non-Steam shortcut: " ++ appname /\
    prefix_path app
    = Some (os_path_join steam_path
              [lit "steamapps"; lit "compatdata"; str_of_int id; lit "pfx"]) /\
    isdir w (os_path_join steam_path
               [lit "steamapps"; lit "compatdata"; str_of_int id; lit "pfx"])
    = true.
Proof.
  unfold shortcut_app. intros H.
  apply bind_ok in H as (fields & Hf & H). cbv beta in H.
  apply bind_ok in H as (sid & _ & H). cbv beta in H.
  apply bind_ok in H as (exe & Hexe & H). cbv beta in H.
  apply bind_ok in H as (an & Han & H). cbv beta in H.
  apply bind_ok in H as (target & Ht & H). cbv beta in H.
  apply bind_ok in H as (appname & Hn & H). cbv beta in H.
  apply bind_ok in H as (id & Hid & H). cbv beta in H.
  apply bind_ok in H as (sd & _ & H). cbv beta in H.
  apply bind_ok in H as (startdir & _ & H). cbv beta in H.
  apply bind_ok in H as (d & Hd & H). cbv beta in H.
  cbn [result fst lift] in Hf, Hexe, Han, Ht, Hn, Hid.
  destruct shortcut_data as [| |fs|]; try discriminate.
  injection Hf as <-.
  cbn [subscript] in Hexe, Han. rewrite lower_keys_get in Hexe, Han.
  destruct (get_ignoring_case fs (lit "exe")) as [e|] eqn:Ee; [|discriminate].
  injection Hexe as <-.
  destruct (get_ignoring_case fs (lit "appname")) as [a|] eqn:Ea;
    [|discriminate].
  injection Han as <-.
  destruct e; try discriminate. injection Ht as <-.
  destruct a; try discriminate. injection Hn as <-.
  cbn [result fst os_path_isdir] in Hd. injection Hd as <-.
  destruct (isdir w _) eqn:Edir; [|discriminate].
  cbn [negb] in H. injection H as <-.
  pose proof (get_appid_from_shortcut_range _ _ _ Hid) as Hr.
  exists fs, s, s0, id. repeat split; try assumption; try lia.
  unfold SteamApp_init. cbn [appid].
  destruct (Z.eqb_spec id 0); [lia|reflexivity].
Qed.

Lemma shortcut_app_record_witness :
  result (shortcut_app world_shortcut (lit "/steam") (lit "0") shortcut_entry)
  = Ok (Some {| appid := Some 3094716427;
                name := lit "Non-Steam shortcut: Game";
                prefix_path :=
                  Some (lit "/steam/steamapps/compatdata/3094716427/pfx");
                install_path := lit "C:\games" |}) /\
  2 ^ 31 <= 3094716427 < 2 ^ 32.
Proof.
  assert (E : result (shortcut_app world_shortcut (lit "/steam") (lit "0")
                        shortcut_entry)
              = Ok (Some {| appid := Some 3094716427;
                            name := lit "Non-Steam shortcut: Game";
                            prefix_path :=
                              Some (lit "/steam/steamapps/compatdata/3094716427/pfx");
                            install_path := lit "C:\games" |}))
    by reflexivity.
  split; [exact E|].
  destruct (shortcut_app_record world_shortcut (lit "/steam") (lit "0")
              shortcut_entry _ E)
    as (fs & t & a & id & _ & _ & _ & _ & Hr & Hid & _).
  injection Hid as <-. exact Hr.
Defined.

(** X18.  A shortcuts.vdf that cannot be opened means no shortcuts, not a
    failure; this also holds when nobody is logged in, the file being
    looked for under userdata/None then. *)
Theorem get_custom_windows_shortcuts_missing_file w steam_path steamid3 :
  result (find_current_steamid3 w steam_path) = Ok steamid3 ->
  read_bytes w (os_path_join steam_path
                  [lit "userdata"; str_of_opt_int steamid3; lit "config";
                   lit "shortcuts.vdf"])
  = Raise OSError ->
  result (get_custom_windows_shortcuts w steam_path) = Ok [].
Proof.
  intros Hs Hr. unfold get_custom_windows_shortcuts.
  rewrite result_bind, Hs.
  rewrite result_bind, result_catch, result_bind.
  cbn [result fst open_read_bytes]. rewrite Hr. reflexivity.
Qed.

Lemma get_custom_windows_shortcuts_missing_file_witness :
  result (get_custom_windows_shortcuts empty_world (lit "/steam")) = Ok [].
Proof.
  exact (get_custom_windows_shortcuts_missing_file empty_world (lit "/steam")
           None eq_refl eq_refl).
Defined.

(* ================================================================== *)
(** ** Manifests that are skipped and manifests that are fatal *)

(** X19.  An appmanifest whose content is not valid text, or which
    [vdf.loads] refuses with SyntaxError, is skipped with one warning:
    nothing else is read or probed for it. *)
Theorem from_appmanifest_malformed_skipped w path libs :
  read_text w path = Raise UnicodeDecodeError \/
  (exists content, read_text w path = Ok content /\
                   vdf_loads w content = Raise SyntaxError) ->
  from_appmanifest w path libs
  = (Ok None,
     [EvOpen path; EvLog Warning "Skipping malformed appmanifest {}"]).
Proof.
  unfold from_appmanifest, open_read, lift.
  intros [Hr|(content & Hr & Hl)]; rewrite Hr.
  - reflexivity.
  - cbn [catch]. rewrite bind_Ok, Hl. reflexivity.
Qed.

Lemma from_appmanifest_malformed_skipped_witness :
  from_appmanifest world_bad_folders
    (lit "/steam/SteamApps/libraryfolders.vdf") []
  = (Ok None,
     [EvOpen (lit "/steam/SteamApps/libraryfolders.vdf");
      EvLog Warning "Skipping malformed appmanifest {}"]).
Proof.
  apply (from_appmanifest_malformed_skipped world_bad_folders).
  right. exists (lit "{"). split; reflexivity.
Defined.

Lemma from_appmanifest_missing_appid w path libs content top st :
  read_text w path = Ok content ->
  vdf_loads w content = Ok (VDict top) ->
  dict_get top (lit "AppState") = Some (VDict st) ->
  get_ignoring_case st (lit "appid") = None ->
  result (from_appmanifest w path libs) = Raise KeyError.
Proof.
  intros Hr Hl Hs Hn. unfold from_appmanifest.
  rewrite result_bind, result_catch.
  cbn [result open_read fst]. rewrite Hr.
  rewrite result_bind, result_catch, result_lift, Hl.
  rewrite result_bind, result_catch, result_lift.
  cbn [subscript]. rewrite Hs.
  mstep. cbn [items].
  mstep. cbn [subscript]. rewrite lower_keys_get, Hn. reflexivity.
Qed.

(** X20.  A manifest that has an "AppState" but no "appid" in it (under
    any case) is not skipped: the KeyError leaves [from_appmanifest], and
    when it is the first manifest of the first library it ends
    [get_steam_apps], which returns no inventory at all. *)
Theorem get_steam_apps_manifest_without_appid
    w steam_root steam_path lib libs path others content top st :
  isdir w (os_path_join lib [lit "steamapps"]) = true ->
  glob w (os_path_join lib [lit "steamapps"; lit "appmanifest_*.acf"])
  = path :: others ->
  read_text w path = Ok content ->
  vdf_loads w content = Ok (VDict top) ->
  dict_get top (lit "AppState") = Some (VDict st) ->
  get_ignoring_case st (lit "appid") = None ->
  result (from_appmanifest w path (VStr lib :: libs)) = Raise KeyError /\
  result (get_steam_apps w steam_root steam_path (VStr lib :: libs))
  = Raise KeyError.
Proof.
  intros Hd Hg Hr Hl Hs Hn.
  pose proof (from_appmanifest_missing_appid w path (VStr lib :: libs)
                content top st Hr Hl Hs Hn) as Hf.
  split; [exact Hf|].
  unfold get_steam_apps. rewrite result_bind.
  unfold scan_libraries. cbn [for_each].
  rewrite result_bind. rewrite result_bind. cbn [result fst lift as_str].
  rewrite result_bind. cbn [result fst os_path_isdir]. rewrite Hd.
  rewrite result_bind. cbn [result fst glob_glob]. rewrite Hg.
  unfold scan_manifests. cbn [for_each].
  rewrite result_bind. rewrite result_bind. cbn [result fst log].
  rewrite result_bind, Hf. reflexivity.
Qed.

Lemma get_steam_apps_manifest_without_appid_witness :
  result (get_steam_apps world_manifest_no_appid (lit "/steam") (lit "/steam")
            [VStr (lit "/steam")])
  = Raise KeyError.
Proof.
  exact (proj2 (get_steam_apps_manifest_without_appid world_manifest_no_appid
                  (lit "/steam") (lit "/steam") (lit "/steam") []
                  (lit "/steam/steamapps/appmanifest_7.acf") []
                  (lit "<appmanifest 7>") _ _
                  eq_refl eq_refl eq_refl eq_refl eq_refl eq_refl)).
Defined.

(* ================================================================== *)
(** ** The inventory keeps every usable record, in a stable order *)

Lemma launched_or_proton_usable w app :
  result (launched_or_proton w app) = Ok (usable w app).
Proof.
  unfold launched_or_proton, usable, prefix_path_exists, is_proton.
  rewrite result_bind.
  destruct (prefix_path app) as [[|c p]|].
  - reflexivity.
  - rewrite result_bind. cbn [result fst os_path_exists].
    destruct (exists_ w (c :: p)); cbn [result fst ret os_path_exists andb orb].
    + destruct (exists_ w (os_path_join (c :: p) _)); reflexivity.
    + reflexivity.
  - reflexivity.
Qed.

(** The filter never raises: it is [filter] with the test [usable]. *)
Lemma keep_launched_filter w apps :
  result (keep_launched w apps) = Ok (filter (usable w) apps).
Proof.
  induction apps as [|a apps IH]; [reflexivity|].
  cbn [keep_launched filter].
  rewrite result_bind, launched_or_proton_usable, result_bind, IH.
  destruct (usable w a); reflexivity.
Qed.

Lemma get_steam_apps_result w steam_root steam_path libs scanned custom shortcuts :
  result (scan_libraries w libs) = Ok scanned ->
  result (get_custom_proton_installations w steam_root) = Ok custom ->
  result (get_custom_windows_shortcuts w steam_path) = Ok shortcuts ->
  result (get_steam_apps w steam_root steam_path libs)
  = Ok (sort_by_name (filter (usable w) (collected scanned custom shortcuts))).
Proof.
  intros Hs Hc Hw. unfold get_steam_apps, collected.
  rewrite result_bind, Hs, result_bind, Hc, result_bind, Hw.
  rewrite result_bind, keep_launched_filter. reflexivity.
Qed.

(** X21.  When the manifests of the libraries have strings for names and
    the three scans return, [get_steam_apps] returns: the filter cannot
    fail, and the inventory holds exactly the collected records that have a
    usable prefix or are Proton installations, each as many times as it was
    collected. *)
Theorem get_steam_apps_keeps_usable
    w steam_root steam_path libs scanned custom shortcuts :
  string_names w libs = true ->
  result (scan_libraries w libs) = Ok scanned ->
  result (get_custom_proton_installations w steam_root) = Ok custom ->
  result (get_custom_windows_shortcuts w steam_path) = Ok shortcuts ->
  exists apps,
    result (get_steam_apps w steam_root steam_path libs) = Ok apps /\
    Permutation apps (filter (usable w) (collected scanned custom shortcuts)) /\
    (forall app, In app apps <->
                 In app (collected scanned custom shortcuts) /\
                 usable w app = true).
Proof.
  intros _ Hs Hc Hw.
  exists (sort_by_name (filter (usable w) (collected scanned custom shortcuts))).
  split; [now apply get_steam_apps_result|].
  split; [apply sort_by_name_perm|].
  intros app. rewrite <- filter_In. split; intros H.
  - apply (Permutation_in _ (sort_by_name_perm _)). exact H.
  - apply (Permutation_in _ (Permutation_sym (sort_by_name_perm _))). exact H.
Qed.

Lemma get_steam_apps_keeps_usable_witness :
  string_names world_inventory [VStr (lit "/steam")] = true /\
  exists apps,
    result (get_steam_apps world_inventory (lit "/steam") (lit "/steam")
              [VStr (lit "/steam")]) = Ok apps /\
    Permutation apps [app_zeta; app_alpha].
Proof.
  split; [reflexivity|].
  destruct (get_steam_apps_keeps_usable world_inventory
              (lit "/steam") (lit "/steam") [VStr (lit "/steam")]
              [app_zeta;
               {| appid := Some 30; name := lit "Beta"; prefix_path := None;
                  install_path := lit "/steam/steamapps/common/Beta" |};
               app_alpha] [] [] eq_refl eq_refl eq_refl eq_refl)
    as (apps & Hr & Hp & _).
  exists apps. split; [exact Hr|exact Hp].
Defined.

Lemma insert_by_name_named n a l :
  filter (named n) (insert_by_name a l) = filter (named n) (a :: l).
Proof.
  induction l as [|b l IH]; [reflexivity|].
  cbn [insert_by_name]. destruct (str_leb (name a) (name b)) eqn:E;
    [reflexivity|].
  cbn [filter] in *. rewrite IH.
  destruct (named n a) eqn:Na; [|reflexivity].
  destruct (named n b) eqn:Nb; [|reflexivity].
  exfalso. unfold named in Na, Nb.
  apply str_eqb_eq in Na, Nb. rewrite Na, Nb, str_leb_refl in E. discriminate.
Qed.

Lemma sort_by_name_named n l :
  filter (named n) (sort_by_name l) = filter (named n) l.
Proof.
  induction l as [|a l IH]; [reflexivity|].
  change (sort_by_name (a :: l)) with (insert_by_name a (sort_by_name l)).
  rewrite insert_by_name_named. cbn [filter]. now rewrite IH.
Qed.

(** X22.  Sorting by name keeps records of the same name in the order in
    which they were collected: in the inventory, the records of a given
    name follow one another as in the scan (manifests library by library,
    then custom tools, then shortcuts). *)
Theorem get_steam_apps_same_name_order
    w steam_root steam_path libs scanned custom shortcuts apps n :
  result (scan_libraries w libs) = Ok scanned ->
  result (get_custom_proton_installations w steam_root) = Ok custom ->
  result (get_custom_windows_shortcuts w steam_path) = Ok shortcuts ->
  result (get_steam_apps w steam_root steam_path libs) = Ok apps ->
  filter (named n) apps
  = filter (named n) (filter (usable w) (collected scanned custom shortcuts)).
Proof.
  intros Hs Hc Hw H.
  rewrite (get_steam_apps_result w steam_root steam_path libs
             scanned custom shortcuts Hs Hc Hw) in H.
  injection H as <-. apply sort_by_name_named.
Qed.

Lemma get_steam_apps_same_name_order_witness :
  result (scan_libraries world_same_name [VStr (lit "/steam")])
  = Ok [launched_app 20 "20" "Alpha"; launched_app 30 "30" "Beta";
        launched_app 10 "10" "Alpha"] /\
  result (get_steam_apps world_same_name (lit "/steam") (lit "/steam")
            [VStr (lit "/steam")])
  = Ok [launched_app 20 "20" "Alpha"; launched_app 10 "10" "Alpha";
        launched_app 30 "30" "Beta"] /\
  filter (named (lit "Alpha"))
    [launched_app 20 "20" "Alpha"; launched_app 10 "10" "Alpha";
     launched_app 30 "30" "Beta"]
  = [launched_app 20 "20" "Alpha"; launched_app 10 "10" "Alpha"].
Proof.
  split; [reflexivity|]. split; [reflexivity|].
  rewrite (get_steam_apps_same_name_order world_same_name
             (lit "/steam") (lit "/steam") [VStr (lit "/steam")]
             [launched_app 20 "20" "Alpha"; launched_app 30 "30" "Beta";
              launched_app 10 "10" "Alpha"] [] []
             [launched_app 20 "20" "Alpha"; launched_app 10 "10" "Alpha";
              launched_app 30 "30" "Beta"] (lit "Alpha")
             eq_refl eq_refl eq_refl eq_refl).
  reflexivity.
Defined.

(* ================================================================== *)
(** ** [SteamApp.name_contains] *)

Lemma normalize_str_app s t :
  normalize_str (s ++ t) = normalize_str s ++ normalize_str t.
Proof.
  unfold normalize_str, lower.
  now rewrite filter_app, map_app, filter_app.
Qed.

Lemma normalize_str_dropped c : dropped c = true -> normalize_str [c] = [].
Proof.
  unfold dropped, normalize_str, lower. cbn [filter].
  destruct (in_printable c) eqn:P; cbn [negb orb map filter].
  - intros H. apply N.eqb_eq in H. subst c. reflexivity.
  - reflexivity.
Qed.

Lemma is_upper_cases c :
  ((65 <=? c) && (c <=? 90))%N = true /\ in_printable c = true /\
  in_printable (c + 32) = true /\ lower_cp (c + 32) = (c + 32)%N
  \/ ((65 <=? c) && (c <=? 90))%N = false.
Proof.
  destruct ((65 <=? c) && (c <=? 90))%N eqn:U; [left|now right].
  apply andb_prop in U as [U1 U2].
  apply N.leb_le in U1, U2.
  assert (L1 : is_ascii_letter c = true).
  { unfold is_ascii_letter. apply orb_true_intro. left.
    apply andb_true_intro. split; apply N.leb_le; lia. }
  assert (L2 : is_ascii_letter (c + 32) = true).
  { unfold is_ascii_letter. apply orb_true_intro. right.
    apply andb_true_intro. split; apply N.leb_le; lia. }
  repeat split.
  - unfold in_printable. now rewrite L1, orb_true_r.
  - unfold in_printable. now rewrite L2, orb_true_r.
  - unfold lower_cp.
    destruct (N.leb_spec (c + 32) 90); [lia|].
    now rewrite andb_false_r.
Qed.

Lemma normalize_str_lower s : normalize_str (lower s) = normalize_str s.
Proof.
  induction s as [|c s IH]; [reflexivity|].
  change (lower (c :: s)) with ([lower_cp c] ++ lower s).
  change (c :: s) with ([c] ++ s).
  rewrite !normalize_str_app, IH. f_equal.
  unfold normalize_str, lower, lower_cp. cbn [filter map].
  destruct (is_upper_cases c) as [(U & P & P' & L)|U]; rewrite U.
  - rewrite P, P'. cbn [map]. unfold lower_cp in L. rewrite L.
    now rewrite U.
  - destruct (in_printable c); cbn [map]; [now rewrite U|reflexivity].
Qed.

(** X23.  [name_contains] does not see the spaces, the punctuation, the
    characters outside ASCII or the case of ASCII letters: a query, or a
    name, with such a character put anywhere in it, or with its letters in
    another case, gives the same answer. *)
Theorem name_contains_ignores app s t c q :
  dropped c = true ->
  name_contains app (s ++ c :: t) = name_contains app (s ++ t) /\
  name_contains (with_name app (s ++ c :: t)) q
  = name_contains (with_name app (s ++ t)) q /\
  name_contains app (lower q) = name_contains app q /\
  name_contains (with_name app (lower s)) q
  = name_contains (with_name app s) q.
Proof.
  intros Hc.
  assert (E : normalize_str (s ++ c :: t) = normalize_str (s ++ t)).
  { change (c :: t) with ([c] ++ t).
    now rewrite !normalize_str_app, (normalize_str_dropped c Hc). }
  unfold name_contains, with_name. cbn [name].
  now rewrite E, !normalize_str_lower.
Qed.

Lemma name_contains_ignores_witness :
  name_contains app_proton_7 (lit "Pro ton-7") = name_contains app_proton_7 (lit "Proton-7").
Proof.
  exact (proj1 (name_contains_ignores app_proton_7 (lit "Pro") (lit "ton-7")
                  32%N [] eq_refl)).
Defined.

Lemma is_prefix_app a y : is_prefix a (a ++ y) = true.
Proof.
  induction a as [|c a IH]; [reflexivity|].
  cbn [app is_prefix]. now rewrite N.eqb_refl, IH.
Qed.

Lemma str_contains_unfold a b :
  str_contains a b
  = is_prefix a b || match b with [] => false | _ :: b' => str_contains a b' end.
Proof. destruct b; reflexivity. Qed.

Lemma str_contains_middle a x y : str_contains a (x ++ a ++ y) = true.
Proof.
  induction x as [|c x IH].
  - cbn [app]. rewrite str_contains_unfold, is_prefix_app. reflexivity.
  - cbn [app]. rewrite str_contains_unfold, IH. apply orb_true_r.
Qed.

Lemma is_prefix_split a b : is_prefix a b = true -> exists y, b = a ++ y.
Proof.
  revert b. induction a as [|c a IH]; intros b H.
  - exists b. reflexivity.
  - destruct b as [|d b]; [discriminate|].
    cbn [is_prefix] in H. apply andb_prop in H as [Hc Ha].
    apply N.eqb_eq in Hc. subst d.
    destruct (IH b Ha) as [y ->]. exists y. reflexivity.
Qed.

Lemma str_contains_split a b :
  str_contains a b = true -> exists x y, b = x ++ a ++ y.
Proof.
  induction b as [|c b IH]; rewrite str_contains_unfold; intros H.
  - rewrite orb_false_r in H. destruct (is_prefix_split a [] H) as [y Hy].
    exists [], y. exact Hy.
  - apply orb_prop in H as [H|H].
    + destruct (is_prefix_split a (c :: b) H) as [y Hy]. exists [], y. exact Hy.
    + destruct (IH H) as (x & y & ->). exists (c :: x), y. reflexivity.
Qed.

(** X24.  [name_contains] answers True exactly when the query, once
    normalised, occurs in the normalised name as a run of consecutive
    characters.  So every part of the name is found, the name itself
    included, and a query of which nothing is left after normalisation
    (the empty query, punctuation only) is found in every name. *)
Theorem name_contains_iff app q :
  (name_contains app q = true <->
   exists x y, normalize_str (name app) = x ++ normalize_str q ++ y) /\
  (forall before after,
     name app = before ++ q ++ after -> name_contains app q = true) /\
  (normalize_str q = [] -> name_contains app q = true).
Proof.
  unfold name_contains. split; [split|split].
  - apply str_contains_split.
  - intros (x & y & ->). apply str_contains_middle.
  - intros before after ->. rewrite !normalize_str_app.
    apply str_contains_middle.
  - intros ->. rewrite str_contains_unfold. reflexivity.
Qed.

Lemma name_contains_iff_witness :
  name_contains app_proton_7 (lit "ton") = true /\
  name_contains app_proton_7 (name app_proton_7) = true /\
  name_contains app_proton_7 (lit "!?") = true.
Proof.
  destruct (name_contains_iff app_proton_7 (lit "ton")) as (_ & H1 & _).
  destruct (name_contains_iff app_proton_7 (name app_proton_7)) as (_ & H2 & _).
  destruct (name_contains_iff app_proton_7 (lit "!?")) as (_ & _ & H3).
  split; [|split].
  - exact (H1 (lit "pro") (lit "_7") eq_refl).
  - exact (H2 [] [] (eq_sym (app_nil_r _))).
  - exact (H3 eq_refl).
Defined.

(* ================================================================== *)
(** * Properties of util.py *)

(** ** The monads of the host and of the environment *)

Lemma ubind_ok {A B} (m : EnvM A) (f : A -> EnvM B) e b e' t :
  ubind m f e = (UOk b, e', t) ->
  exists a e1 t1 t2,
    m e = (UOk a, e1, t1) /\ f a e1 = (UOk b, e', t2) /\ t = t1 ++ t2.
Proof.
  unfold ubind. destruct (m e) as [[[a|x] e1] t1]; [|discriminate].
  destruct (f a e1) as [[r e2] t2] eqn:E. intros [= -> -> <-].
  now exists a, e1, t1, t2.
Qed.

Lemma environ_set_ok k v e e' t :
  environ_set k v e = (UOk tt, e', t) ->
  exists s, v = Some s /\ env_value_ok s = true /\ e' = dict_set e k s /\ t = [].
Proof.
  unfold environ_set, env_value_ok. destruct v as [s|]; [|discriminate].
  destruct (forallb fs_encodable s) eqn:E1; [|discriminate].
  destruct (existsb (N.eqb 0) s) eqn:E2; [discriminate|].
  cbn [negb andb]. intros [= <- <-]. exists s. unfold env_value_ok.
  rewrite E1, E2. repeat split.
Qed.

Lemma environ_set_value k v e :
  env_value_ok v = true ->
  environ_set k (Some v) e = (UOk tt, dict_set e k v, []).
Proof.
  unfold environ_set, env_value_ok. intros [-> E]%andb_true_iff.
  apply negb_true_iff in E. now rewrite E.
Qed.

Lemma quiet_ubind {A B} (m : EnvM A) (f : A -> EnvM B) :
  quiet m -> (forall a, quiet (f a)) -> quiet (ubind m f).
Proof.
  intros Hm Hf e. unfold ubind. specialize (Hm e).
  destruct (m e) as [[[a|x] e1] t1]; [|exact Hm].
  specialize (Hf a e1). destruct (f a e1) as [[r e2] t2].
  unfold trace in *. cbn [snd] in *.
  now rewrite existsb_app, Hm, Hf.
Qed.

Lemma quiet_environ_set k v : quiet (environ_set k v).
Proof.
  intros e. unfold environ_set. destruct v as [s|]; [|reflexivity].
  destruct (negb _); [reflexivity|]. now destruct (existsb (N.eqb 0) s).
Qed.

Lemma quiet_environ_item k : quiet (environ_item k).
Proof. intros e. unfold environ_item. now destruct (dict_get e k). Qed.

Lemma hbind_trace {A B} (m : HostM A) (f : A -> HostM B) :
  existsb late (snd m) = false ->
  (forall a, existsb late (snd (f a)) = false) ->
  existsb late (snd (hbind m f)) = false.
Proof.
  intros Hm Hf. unfold hbind. destruct m as [[a|x] t]; [|exact Hm].
  specialize (Hf a). destruct (f a) as [r t']. cbn [snd] in *.
  now rewrite existsb_app, Hm, Hf.
Qed.

Lemma write_scripts_quiet h l dir bin_path binaries :
  existsb late (snd (write_scripts h l dir bin_path binaries)) = false.
Proof.
  induction binaries as [|b rest IH]; [reflexivity|].
  cbn [write_scripts]. apply hbind_trace; [|intros _; exact IH].
  unfold write_script. apply hbind_trace.
  - now destruct (str_encode_utf8 _).
  - intros content. apply hbind_trace; [reflexivity|]. intros _. reflexivity.
Qed.

Lemma create_wine_bin_dir_quiet h srp proton_app :
  existsb late (snd (create_wine_bin_dir h srp proton_app)) = false.
Proof.
  unfold create_wine_bin_dir, get_runtime_library_path.
  repeat first [ apply write_scripts_quiet | reflexivity
               | apply hbind_trace; [|intros ?] ].
Qed.

Lemma prepare_environment_quiet h wt proton_app steam_app srp :
  quiet (prepare_environment h wt proton_app steam_app srp).
Proof.
  unfold prepare_environment, unset_or_empty.
  repeat first
    [ apply quiet_environ_set | apply quiet_environ_item
    | apply quiet_ubind; [|intros ?]
    | match goal with
      | |- quiet (if ?b then _ else _) => destruct b
      | |- quiet (match ?o with Some _ => _ | None => _ end) => destruct o
      end
    | (intros ?; reflexivity)
    | (intros ?; apply create_wine_bin_dir_quiet) ].
Qed.

Lemma set_if_ok (b : bool) msg k v e e' t :
  (if b then ubind (ulog Info msg) (fun _ => environ_set k (Some v))
   else uret tt) e = (UOk tt, e', t) ->
  e' = if b then dict_set e k v else e.
Proof.
  destruct b.
  - intros H. apply ubind_ok in H as (? & ? & ? & ? & Hm & H & ->).
    injection Hm as <- <- <-. apply environ_set_ok in H as (s & [= <-] & _ & -> & _).
    reflexivity.
  - now intros [= <- <-].
Qed.

Lemma environ_item_ok k e v e' t :
  environ_item k e = (UOk v, e', t) -> dict_get e k = Some v /\ e' = e.
Proof.
  unfold environ_item. destruct (dict_get e k); [|discriminate].
  now intros [= <- <-].
Qed.

Lemma dict_get_pop {A} (d : list (pystr * A)) k' k :
  dict_get (filter (fun kv => negb (str_eqb (fst kv) k')) d) k
  = if str_eqb k' k then None else dict_get d k.
Proof.
  induction d as [|[k0 v0] d IH]; cbn [filter dict_get fst].
  - now destruct (str_eqb k' k).
  - destruct (str_eqb k0 k') eqn:E; cbn [negb dict_get].
    + rewrite IH. apply str_eqb_eq in E. subst k0.
      now destruct (str_eqb k' k).
    + rewrite IH. destruct (str_eqb k' k) eqn:E'; [|reflexivity].
      apply str_eqb_eq in E'. subst k. now rewrite E.
Qed.

Lemma with_default_other e k v k' :
  str_eqb k k' = false ->
  dict_get (with_default e k v) k' = dict_get e k'.
Proof.
  intros E. unfold with_default. destruct (nonempty _); [reflexivity|].
  now rewrite dict_get_set, E.
Qed.

Ltac keys :=
  repeat match goal with
         | |- context [str_eqb (lit ?a) (lit ?b)] =>
             let v := eval vm_compute in (str_eqb (lit a) (lit b)) in
             change (str_eqb (lit a) (lit b)) with v
         end;
  cbv beta iota.

(** The environment that the statements before the [try] leave when none
    of them raises. *)
Lemma prepare_environment_ok h wt proton_app steam_app srp environ d e' t :
  prepare_environment h wt proton_app steam_app srp environ = (UOk d, e', t) ->
  exists p w old,
    prefix_path steam_app = Some p /\
    dict_get (with_default environ (lit "WINE")
                (os_path_join (install_path proton_app)
                   [lit "dist"; lit "bin"; lit "wine"])) (lit "WINE")
    = Some w /\
    dict_get environ (lit "PATH") = Some old /\
    let e2 := with_default
                (with_default environ (lit "WINE")
                   (os_path_join (install_path proton_app)
                      [lit "dist"; lit "bin"; lit "wine"]))
                (lit "WINESERVER")
                (os_path_join (install_path proton_app)
                   [lit "dist"; lit "bin"; lit "wineserver"]) in
    let e6 := dict_set
                (dict_set
                   (dict_set (dict_set e2 (lit "WINETRICKS") wt)
                      (lit "WINEPREFIX") p)
                   (lit "WINELOADER") w)
                (lit "WINEDLLPATH")
                (os_path_join (install_path proton_app)
                   [lit "dist"; lit "lib64"; lit "wine"]
                 ++ colon ::
                 os_path_join (install_path proton_app)
                   [lit "dist"; lit "lib"; lit "wine"]) in
    let e8 := filter (fun kv => negb (str_eqb (fst kv) (lit "WINEARCH")))
                (dict_set e6 (lit "PATH")
                   (proton_bin proton_app ++ colon :: old)) in
    match d with
    | None => nonempty srp = false /\ e' = e8
    | Some dd =>
        exists s, srp = Some s /\ nonempty srp = true /\
          fst (create_wine_bin_dir h s proton_app) = UOk dd /\
          e' = dict_set e8 (lit "PATH")
                 (dd ++ colon :: proton_bin proton_app ++ colon :: old)
    end.
Proof.
  unfold prepare_environment. intros H.
  apply ubind_ok in H as (no_wine & e1 & ? & ? & Hm & H & ->).
  unfold unset_or_empty in Hm.
  apply ubind_ok in Hm as (? & ? & ? & ? & Hm & Hm' & ->).
  injection Hm as <- <- <-. injection Hm' as <- <- <-.
  apply ubind_ok in H as ([] & e2 & ? & ? & Hm & H & ->).
  apply set_if_ok in Hm.
  apply ubind_ok in H as (no_ws & ? & ? & ? & Hm2 & H & ->).
  unfold unset_or_empty in Hm2.
  apply ubind_ok in Hm2 as (? & ? & ? & ? & Hm2 & Hm' & ->).
  injection Hm2 as <- <- <-. injection Hm' as <- <- <-.
  apply ubind_ok in H as ([] & e3 & ? & ? & Hm3 & H & ->).
  apply set_if_ok in Hm3.
  apply ubind_ok in H as ([] & e4 & ? & ? & Hm4 & H & ->).
  apply environ_set_ok in Hm4 as (? & [= <-] & _ & -> & _).
  apply ubind_ok in H as ([] & e5 & ? & ? & Hm5 & H & ->).
  apply environ_set_ok in Hm5 as (p & Hp & _ & -> & _).
  apply ubind_ok in H as (w & ? & ? & ? & Hm6 & H & ->).
  apply environ_item_ok in Hm6 as [Hw ->].
  apply ubind_ok in H as ([] & e6 & ? & ? & Hm6 & H & ->).
  apply environ_set_ok in Hm6 as (? & [= <-] & _ & -> & _).
  apply ubind_ok in H as ([] & e7 & ? & ? & Hm7 & H & ->).
  apply environ_set_ok in Hm7 as (? & [= <-] & _ & -> & _).
  apply ubind_ok in H as (old & ? & ? & ? & Hm8 & H & ->).
  apply environ_item_ok in Hm8 as [Hold ->].
  apply ubind_ok in H as ([] & e8 & ? & ? & Hm8 & H & ->).
  apply environ_set_ok in Hm8 as (? & [= <-] & _ & -> & _).
  apply ubind_ok in H as ([] & e9 & ? & ? & Hm9 & H & ->).
  injection Hm9 as <- <-.
  apply ubind_ok in H as (d' & e10 & ? & ? & Hm10 & H & ->).
  apply ubind_ok in H as ([] & ? & ? & ? & Hlog & H & ->).
  injection Hlog as <- <-. injection H as <- <- <-.
  assert (E2 : e2 = with_default environ (lit "WINE")
                (os_path_join (install_path proton_app)
                   [lit "dist"; lit "bin"; lit "wine"])).
  { subst e2. unfold with_default.
    destruct (nonempty (dict_get environ (lit "WINE"))); reflexivity. }
  assert (E3 : e3 = with_default e2 (lit "WINESERVER")
                (os_path_join (install_path proton_app)
                   [lit "dist"; lit "bin"; lit "wineserver"])).
  { subst e3. unfold with_default.
    destruct (nonempty (dict_get e2 (lit "WINESERVER"))); reflexivity. }
  clear Hm Hm3.
  repeat rewrite dict_get_set in Hw. repeat rewrite dict_get_set in Hold.
  revert Hw Hold. keys. intros Hw Hold.
  rewrite E3, with_default_other in Hw by reflexivity.
  rewrite E3, E2 in Hold. rewrite !with_default_other in Hold by reflexivity.
  exists p, w, old. rewrite <- E2, <- E3.
  repeat split; try assumption.
  destruct (nonempty srp) eqn:Esrp.
  - destruct srp as [s|]; [|discriminate].
    apply ubind_ok in Hm10 as (dd & ? & ? & ? & Hc & Hm10 & ->).
    unfold ulift in Hc. injection Hc as Hc <- <-.
    apply ubind_ok in Hm10 as (path & ? & ? & ? & Hpath & Hm10 & ->).
    apply environ_item_ok in Hpath as [Hpath ->].
    apply ubind_ok in Hm10 as ([] & ? & ? & ? & Hset & Hm10 & ->).
    apply environ_set_ok in Hset as (? & [= <-] & _ & -> & _).
    injection Hm10 as <- <- <-.
    rewrite dict_get_pop, dict_get_set in Hpath. revert Hpath. keys.
    intros [= <-]. exists s. repeat split. exact Hc.
  - injection Hm10 as <- <- <-. split; reflexivity.
Qed.


(** [run_command] after its preparation: the command, then the [finally]
    block. *)
Lemma run_command_unfold h wt proton_app steam_app srp environ :
  run_command h wt proton_app steam_app srp environ =
  match prepare_environment h wt proton_app steam_app srp environ with
  | (UOk d, e', t) =>
      (match d with
       | Some dd => match rmtree h dd with
                    | UOk _ => run h e'
                    | URaise x => URaise x
                    end
       | None => run h e'
       end,
       environ,
       t ++ URun e' :: match d with Some dd => [URmtree dd] | None => [] end)
  | (URaise x, e', t) => (URaise x, e', t)
  end.
Proof.
  unfold run_command, ubind.
  destruct (prepare_environment h wt proton_app steam_app srp environ)
    as [[[d|x] e'] t]; [|reflexivity].
  unfold try_finally, environ_restore, ulift, uret. cbn [fst snd app].
  destruct d as [dd|]; [destruct (rmtree h dd)|]; reflexivity.
Qed.

Lemma late_run t e : existsb late t = false -> ~ In (URun e) t.
Proof.
  intros E HIn. assert (existsb late t = true); [|congruence].
  apply existsb_exists. now exists (URun e).
Qed.

(** The command is started only when the preparation went through, and
    then with the environment that it left. *)
Lemma run_command_started h wt proton_app steam_app srp environ e :
  In (URun e) (trace (run_command h wt proton_app steam_app srp environ)) ->
  exists d t,
    prepare_environment h wt proton_app steam_app srp environ = (UOk d, e, t).
Proof.
  rewrite run_command_unfold.
  pose proof (prepare_environment_quiet h wt proton_app steam_app srp environ)
    as Q. unfold trace in Q.
  destruct (prepare_environment h wt proton_app steam_app srp environ)
    as [[[d|x] e'] t]; cbn [snd] in *; intros HIn.
  - apply in_app_or in HIn as [HIn|[HIn|HIn]].
    + now apply late_run in HIn.
    + injection HIn as <-. now exists d, t.
    + destruct d; [destruct HIn as [HIn|[]]; discriminate|destruct HIn].
  - now apply late_run in HIn.
Qed.

Lemma command_ran_In t :
  command_ran t = true -> exists e, In (URun e) t.
Proof.
  intros (ev & HIn & E)%existsb_exists. destruct ev; try discriminate.
  now exists e.
Qed.

Lemma hbind_ok {A B} (m : HostM A) (f : A -> HostM B) b :
  fst (hbind m f) = UOk b ->
  exists a, fst m = UOk a /\ fst (f a) = UOk b /\
            snd (hbind m f) = snd m ++ snd (f a).
Proof.
  unfold hbind. destruct m as [[a|x] t]; [|discriminate].
  destruct (f a) as [r t'] eqn:E. cbn [fst snd]. intros ->.
  exists a. now rewrite E.
Qed.

Lemma create_wine_bin_dir_tmp h s proton_app dd :
  fst (create_wine_bin_dir h s proton_app) = UOk dd ->
  exists tmp,
    mkdtemp h (lit "protontricks_wine_") = UOk tmp /\ dd = path_str tmp.
Proof.
  unfold create_wine_bin_dir. intros H.
  apply hbind_ok in H as (ld & _ & H & _).
  apply hbind_ok in H as (names & _ & H & _).
  apply hbind_ok in H as (tmp & Htmp & H & _).
  apply hbind_ok in H as ([] & _ & H & _).
  apply hbind_ok in H as ([] & _ & H & _).
  injection H as <-. now exists tmp.
Qed.

(** X25.  [run_command], the [finally] block: once the command has been
    started, the call leaves [os.environ] exactly as it found it, whether
    the command returns or raises, and whether removing the helper
    directory succeeds or not. *)
Theorem run_command_restores_environment h wt proton_app steam_app srp
    environ :
  command_ran (trace (run_command h wt proton_app steam_app srp environ))
  = true ->
  environ_after (run_command h wt proton_app steam_app srp environ)
  = environ.
Proof.
  intros (e & HIn)%command_ran_In.
  apply run_command_started in HIn as (d & t & Hp).
  now rewrite run_command_unfold, Hp.
Qed.

Lemma run_command_restores_environment_witness :
  command_ran
    (trace (run_command host_example (lit "/usr/bin/winetricks")
              proton_example game_example (Some (lit "/rt")) environ_example))
  = true /\
  outcome (run_command host_example (lit "/usr/bin/winetricks")
             proton_example game_example (Some (lit "/rt")) environ_example)
  = URaise SubprocessError /\
  environ_after
    (run_command host_example (lit "/usr/bin/winetricks")
       proton_example game_example (Some (lit "/rt")) environ_example)
  = environ_example.
Proof.
  split; [reflexivity|]. split; [reflexivity|].
  apply (run_command_restores_environment host_example
           (lit "/usr/bin/winetricks") proton_example game_example
           (Some (lit "/rt")) environ_example).
  reflexivity.
Defined.

Lemma not_wine_variable k :
  ~ In k wine_variables ->
  Forall (fun k' => str_eqb k' k = false) wine_variables.
Proof.
  intros HIn. apply Forall_forall. intros k' Hk'.
  apply str_eqb_neq. intros <-. now apply HIn.
Qed.

(** X26.  [run_command]: the environment under which the command is
    started.  WINETRICKS and WINEPREFIX are the ones given (a prefix there
    is); WINE and WINESERVER keep a value of the user that is not empty and
    are Proton's binaries otherwise; WINELOADER is WINE; WINEDLLPATH is
    Proton's; WINEARCH is not set; every variable other than these and PATH
    is what it was. *)
Theorem run_command_environment h wt proton_app steam_app srp environ e :
  In (URun e) (trace (run_command h wt proton_app steam_app srp environ)) ->
  dict_get e (lit "WINETRICKS") = Some wt /\
  (exists p, prefix_path steam_app = Some p /\
             dict_get e (lit "WINEPREFIX") = Some p) /\
  dict_get e (lit "WINE")
  = (if nonempty (dict_get environ (lit "WINE"))
     then dict_get environ (lit "WINE")
     else Some (os_path_join (install_path proton_app)
                  [lit "dist"; lit "bin"; lit "wine"])) /\
  dict_get e (lit "WINESERVER")
  = (if nonempty (dict_get environ (lit "WINESERVER"))
     then dict_get environ (lit "WINESERVER")
     else Some (os_path_join (install_path proton_app)
                  [lit "dist"; lit "bin"; lit "wineserver"])) /\
  dict_get e (lit "WINELOADER") = dict_get e (lit "WINE") /\
  dict_get e (lit "WINEDLLPATH")
  = Some (os_path_join (install_path proton_app)
            [lit "dist"; lit "lib64"; lit "wine"]
          ++ colon ::
          os_path_join (install_path proton_app)
            [lit "dist"; lit "lib"; lit "wine"]) /\
  dict_get e (lit "WINEARCH") = None /\
  (forall k, ~ In k wine_variables -> dict_get e k = dict_get environ k).
Proof.
  intros HIn. apply run_command_started in HIn as (d & t & Hp).
  apply prepare_environment_ok in Hp as (p & w & old & Hpre & Hw & Hold & He).
  cbv zeta in He.
  assert (G : forall k,
    dict_get e k =
    if str_eqb (lit "PATH") k then dict_get e k
    else if str_eqb (lit "WINEARCH") k then None
    else if str_eqb (lit "WINEDLLPATH") k
         then Some (os_path_join (install_path proton_app)
                      [lit "dist"; lit "lib64"; lit "wine"]
                    ++ colon ::
                    os_path_join (install_path proton_app)
                      [lit "dist"; lit "lib"; lit "wine"])
    else if str_eqb (lit "WINELOADER") k then Some w
    else if str_eqb (lit "WINEPREFIX") k then Some p
    else if str_eqb (lit "WINETRICKS") k then Some wt
    else dict_get
           (with_default
              (with_default environ (lit "WINE")
                 (os_path_join (install_path proton_app)
                    [lit "dist"; lit "bin"; lit "wine"]))
              (lit "WINESERVER")
              (os_path_join (install_path proton_app)
                 [lit "dist"; lit "bin"; lit "wineserver"])) k).
  { intros k. destruct (str_eqb (lit "PATH") k) eqn:EP; [reflexivity|].
    destruct d as [dd|].
    - destruct He as (s & _ & _ & _ & ->).
      now rewrite dict_get_set, EP, dict_get_pop, !dict_get_set, EP.
    - destruct He as [_ ->].
      now rewrite dict_get_pop, !dict_get_set, EP. }
  assert (W : dict_get e (lit "WINE") = Some w).
  { rewrite G. keys. now rewrite with_default_other by reflexivity. }
  repeat split.
  - rewrite G. now keys.
  - exists p. split; [exact Hpre|]. rewrite G. now keys.
  - rewrite W, <- Hw. unfold with_default.
    destruct (nonempty (dict_get environ (lit "WINE"))); [reflexivity|].
    rewrite dict_get_set. now keys.
  - rewrite G. keys. unfold with_default at 1.
    rewrite with_default_other by reflexivity.
    destruct (nonempty (dict_get environ (lit "WINESERVER")));
      [now rewrite with_default_other by reflexivity|].
    rewrite dict_get_set. now keys.
  - rewrite W, G. now keys.
  - rewrite G. now keys.
  - rewrite G. now keys.
  - intros k Hk. apply not_wine_variable in Hk.
    unfold wine_variables in Hk.
    repeat match goal with
           | H : Forall _ (_ :: _) |- _ => inversion H; subst; clear H
           end.
    rewrite G.
    repeat match goal with
           | H : str_eqb _ k = false |- _ => rewrite H
           end.
    now rewrite !with_default_other by assumption.
Qed.

Lemma run_command_environment_witness :
  In (URun command_environ_example)
     (trace (run_command host_example (lit "/usr/bin/winetricks")
               proton_example game_example (Some (lit "/rt"))
               environ_example)) /\
  dict_get command_environ_example (lit "WINE") = Some (lit "/opt/wine") /\
  dict_get command_environ_example (lit "WINELOADER")
  = Some (lit "/opt/wine") /\
  dict_get command_environ_example (lit "WINEARCH") = None /\
  dict_get command_environ_example (lit "HOME") = Some (lit "/home/u").
Proof.
  assert (HIn : In (URun command_environ_example)
     (trace (run_command host_example (lit "/usr/bin/winetricks")
               proton_example game_example (Some (lit "/rt"))
               environ_example))).
  { vm_compute. repeat first [left; reflexivity | right]. }
  split; [exact HIn|].
  pose proof (run_command_environment host_example
                (lit "/usr/bin/winetricks") proton_example game_example
                (Some (lit "/rt")) environ_example command_environ_example
                HIn) as (_ & _ & W & _ & L & _ & A & O).
  split; [exact W|]. split; [rewrite L; exact W|]. split; [exact A|].
  rewrite O; [reflexivity|]. vm_compute. intuition discriminate.
Defined.

(** X27.  [run_command]: the PATH under which the command is started.
    PATH must be set beforehand; Proton's [dist/bin] is put in front of it,
    and, when a Steam Runtime path is given, the directory of helper
    scripts made by [tempfile.mkdtemp] in front of that. *)
Theorem run_command_path h wt proton_app steam_app srp environ e :
  In (URun e) (trace (run_command h wt proton_app steam_app srp environ)) ->
  exists old,
    dict_get environ (lit "PATH") = Some old /\
    if nonempty srp then
      exists tmp,
        mkdtemp h (lit "protontricks_wine_") = UOk tmp /\
        dict_get e (lit "PATH")
        = Some (path_str tmp ++ colon ::
                proton_bin proton_app ++ colon :: old)
    else
      dict_get e (lit "PATH")
      = Some (proton_bin proton_app ++ colon :: old).
Proof.
  intros HIn. apply run_command_started in HIn as (d & t & Hp).
  apply prepare_environment_ok in Hp as (p & w & old & _ & _ & Hold & He).
  cbv zeta in He. exists old. split; [exact Hold|].
  destruct d as [dd|].
  - destruct He as (s & _ & -> & Hc & ->).
    apply create_wine_bin_dir_tmp in Hc as (tmp & Htmp & ->).
    exists tmp. split; [exact Htmp|].
    rewrite dict_get_set. now keys.
  - destruct He as [-> ->].
    rewrite dict_get_pop, dict_get_set. now keys.
Qed.

Lemma run_command_path_witness :
  In (URun command_environ_example)
     (trace (run_command host_example (lit "/usr/bin/winetricks")
               proton_example game_example (Some (lit "/rt"))
               environ_example)) /\
  exists old,
    dict_get environ_example (lit "PATH") = Some old /\
    exists tmp,
      mkdtemp host_example (lit "protontricks_wine_") = UOk tmp /\
      dict_get command_environ_example (lit "PATH")
      = Some (path_str tmp ++ colon ::
              proton_bin proton_example ++ colon :: old).
Proof.
  assert (HIn : In (URun command_environ_example)
     (trace (run_command host_example (lit "/usr/bin/winetricks")
               proton_example game_example (Some (lit "/rt"))
               environ_example))).
  { vm_compute. repeat first [left; reflexivity | right]. }
  split; [exact HIn|].
  exact (run_command_path host_example (lit "/usr/bin/winetricks")
           proton_example game_example (Some (lit "/rt")) environ_example
           command_environ_example HIn).
Defined.

(** X28.  [run_command]: what happens from the [try] on.  The command is
    started once, after everything else.  Without a Steam Runtime path
    nothing follows it and the call ends as the command does.  With one,
    the directory of helper scripts is removed right after the command,
    also when the command raised; the call then ends as the command does,
    unless the removal raises, in which case it ends with that exception. *)
Theorem run_command_finally h wt proton_app steam_app srp environ :
  command_ran (trace (run_command h wt proton_app steam_app srp environ))
  = true ->
  exists t e,
    existsb late t = false /\
    if nonempty srp then
      exists tmp,
        mkdtemp h (lit "protontricks_wine_") = UOk tmp /\
        trace (run_command h wt proton_app steam_app srp environ)
        = t ++ [URun e; URmtree (path_str tmp)] /\
        outcome (run_command h wt proton_app steam_app srp environ)
        = match rmtree h (path_str tmp) with
          | UOk _ => run h e
          | URaise x => URaise x
          end
    else
      trace (run_command h wt proton_app steam_app srp environ)
      = t ++ [URun e] /\
      outcome (run_command h wt proton_app steam_app srp environ)
      = run h e.
Proof.
  intros (e & HIn)%command_ran_In.
  apply run_command_started in HIn as (d & t & Hp).
  pose proof (prepare_environment_quiet h wt proton_app steam_app srp environ)
    as Q. rewrite Hp in Q. cbn [trace snd] in Q.
  exists t, e. split; [exact Q|].
  rewrite run_command_unfold, Hp.
  apply prepare_environment_ok in Hp as (p & w & old & _ & _ & _ & He).
  cbv zeta in He. destruct d as [dd|].
  - destruct He as (s & _ & -> & Hc & _).
    apply create_wine_bin_dir_tmp in Hc as (tmp & Htmp & ->).
    exists tmp. repeat split. exact Htmp.
  - destruct He as [-> _]. split; reflexivity.
Qed.

Lemma run_command_finally_witness :
  command_ran
    (trace (run_command host_example (lit "/usr/bin/winetricks")
              proton_example game_example (Some (lit "/rt")) environ_example))
  = true /\
  exists t e,
    existsb late t = false /\
    exists tmp,
      mkdtemp host_example (lit "protontricks_wine_") = UOk tmp /\
      trace (run_command host_example (lit "/usr/bin/winetricks")
               proton_example game_example (Some (lit "/rt"))
               environ_example)
      = t ++ [URun e; URmtree (path_str tmp)] /\
      outcome (run_command host_example (lit "/usr/bin/winetricks")
                 proton_example game_example (Some (lit "/rt"))
                 environ_example)
      = match rmtree host_example (path_str tmp) with
        | UOk _ => run host_example e
        | URaise x => URaise x
        end.
Proof.
  split; [reflexivity|].
  apply (run_command_finally host_example (lit "/usr/bin/winetricks")
           proton_example game_example (Some (lit "/rt")) environ_example).
  reflexivity.
Defined.

Lemma env_value_ok_app a b :
  env_value_ok (a ++ b) = env_value_ok a && env_value_ok b.
Proof.
  unfold env_value_ok. rewrite forallb_app, existsb_app.
  destruct (forallb fs_encodable a), (forallb fs_encodable b),
    (existsb (N.eqb 0) a), (existsb (N.eqb 0) b); reflexivity.
Qed.

Lemma env_value_ok_join2 a b :
  env_value_ok a = true -> env_value_ok b = true ->
  env_value_ok (join2 a b) = true.
Proof.
  intros Ha Hb. unfold join2. destruct (starts_with_slash b); [exact Hb|].
  destruct (match a with [] => true | _ => ends_with_slash a end).
  - now rewrite env_value_ok_app, Ha, Hb.
  - change (slash :: b) with ([slash] ++ b).
    now rewrite !env_value_ok_app, Ha, Hb.
Qed.

Lemma env_value_ok_join a ps :
  env_value_ok a = true -> forallb env_value_ok ps = true ->
  env_value_ok (os_path_join a ps) = true.
Proof.
  unfold os_path_join. revert a.
  induction ps as [|p ps IH]; intros a Ha Hps; [exact Ha|].
  cbn [fold_left forallb] in *. apply andb_true_iff in Hps as [Hp Hps].
  apply IH; [|exact Hps]. now apply env_value_ok_join2.
Qed.

(** X29.  [run_command] with an app that has no prefix: assigning [None]
    to WINEPREFIX raises TypeError before the [try], so the command is not
    started and nothing is restored: WINE and WINESERVER (if they were
    unset or empty) and WINETRICKS stay set as the call set them. *)
Theorem run_command_without_prefix h wt proton_app steam_app srp environ :
  prefix_path steam_app = None ->
  env_value_ok wt = true ->
  env_value_ok (install_path proton_app) = true ->
  outcome (run_command h wt proton_app steam_app srp environ)
  = URaise (Builtin TypeError) /\
  command_ran (trace (run_command h wt proton_app steam_app srp environ))
  = false /\
  environ_after (run_command h wt proton_app steam_app srp environ)
  = dict_set
      (with_default
         (with_default environ (lit "WINE")
            (os_path_join (install_path proton_app)
               [lit "dist"; lit "bin"; lit "wine"]))
         (lit "WINESERVER")
         (os_path_join (install_path proton_app)
            [lit "dist"; lit "bin"; lit "wineserver"]))
      (lit "WINETRICKS") wt /\
  dict_get (environ_after (run_command h wt proton_app steam_app srp environ))
    (lit "WINETRICKS") = Some wt.
Proof.
  intros Hpre Hwt Hinst.
  assert (P : exists t,
    prepare_environment h wt proton_app steam_app srp environ
    = (URaise (Builtin TypeError),
       dict_set
         (with_default
            (with_default environ (lit "WINE")
               (os_path_join (install_path proton_app)
                  [lit "dist"; lit "bin"; lit "wine"]))
            (lit "WINESERVER")
            (os_path_join (install_path proton_app)
               [lit "dist"; lit "bin"; lit "wineserver"]))
         (lit "WINETRICKS") wt, t) /\ command_ran t = false).
  { unfold with_default.
    cbv beta iota zeta delta
      [prepare_environment ubind unset_or_empty environ_get uret ulog].
    rewrite Hpre.
    destruct (nonempty (dict_get environ (lit "WINE")));
      cbn [negb]; cbv beta iota.
    all: try rewrite (environ_set_value (lit "WINE"))
           by (apply env_value_ok_join; [exact Hinst|reflexivity]).
    all: cbv beta iota.
    all: match goal with
         | |- context [nonempty (dict_get ?e (lit "WINESERVER"))] =>
             destruct (nonempty (dict_get e (lit "WINESERVER")));
             cbn [negb]; cbv beta iota
         end.
    all: try rewrite (environ_set_value (lit "WINESERVER"))
           by (apply env_value_ok_join; [exact Hinst|reflexivity]).
    all: cbv beta iota.
    all: rewrite (environ_set_value (lit "WINETRICKS")) by exact Hwt.
    all: cbv beta iota; cbn [environ_set app]; eexists; split; reflexivity. }
  destruct P as (t & P & Q).
  rewrite run_command_unfold, P. cbn [outcome environ_after trace fst snd].
  repeat split; [exact Q|]. rewrite dict_get_set. now keys.
Qed.

Lemma run_command_without_prefix_witness :
  outcome (run_command host_example (lit "/usr/bin/winetricks")
             proton_example game_without_prefix None environ_example)
  = URaise (Builtin TypeError) /\
  dict_get
    (environ_after
       (run_command host_example (lit "/usr/bin/winetricks")
          proton_example game_without_prefix None environ_example))
    (lit "WINETRICKS") = Some (lit "/usr/bin/winetricks") /\
  dict_get environ_example (lit "WINETRICKS") = None.
Proof.
  pose proof (run_command_without_prefix host_example
                (lit "/usr/bin/winetricks") proton_example
                game_without_prefix None environ_example
                eq_refl eq_refl eq_refl) as (O & _ & _ & W).
  split; [exact O|]. split; [exact W|]. reflexivity.
Defined.

Lemma write_scripts_ok h ld dir bin_path names :
  fst (write_scripts h ld dir bin_path names) = UOk tt ->
  exists contents,
    Forall2 (fun n c => str_encode_utf8 (script_of ld dir n) = Ok c)
            names contents /\
    snd (write_scripts h ld dir bin_path names)
    = flat_map (fun nc => [UWrite (path_div bin_path (fst nc)) (snd nc);
                           UChmod (path_div bin_path (fst nc)) mode_700])
               (combine names contents).
Proof.
  induction names as [|n names IH]; cbn [write_scripts].
  - intros _. exists []. split; [constructor|reflexivity].
  - intros H. apply hbind_ok in H as ([] & H1 & H2 & ->).
    destruct (IH H2) as (contents & HF & ->).
    unfold write_script in *. fold (script_of ld dir n) in *.
    destruct (str_encode_utf8 (script_of ld dir n)) as [c|x] eqn:E;
      [|discriminate].
    cbn [of_res hbind] in *.
    destruct (write_bytes h (path_div bin_path n) c); [|discriminate].
    cbn [fst snd app] in *.
    exists (c :: contents). split; [now constructor|reflexivity].
Qed.

Lemma get_runtime_library_path_ok h srp proton_app ld :
  fst (get_runtime_library_path h srp proton_app) = UOk ld ->
  exists paths,
    check_output_text h [os_path_join srp [lit "run.sh"];
                         lit "--print-steam-runtime-library-paths"]
    = UOk paths /\
    ld = os_path_join (install_path proton_app) [lit "dist"; lit "lib"]
         ++ colon ::
         os_path_join (install_path proton_app) [lit "dist"; lit "lib64"]
         ++ colon :: paths /\
    snd (get_runtime_library_path h srp proton_app)
    = [UCheckOutput [os_path_join srp [lit "run.sh"];
                     lit "--print-steam-runtime-library-paths"]].
Proof.
  unfold get_runtime_library_path, hbind, hret. cbv zeta.
  destruct (check_output_text h _) as [paths|x]; [|discriminate].
  cbn [fst snd app]. intros [= <-]. now exists paths.
Qed.

(** X30.  [create_wine_bin_dir], when it returns: [run.sh] was asked for
    the library paths, Proton's [dist/bin] was listed, and the directory
    returned is the one [tempfile.mkdtemp] made; after that, and in the
    order of the listing, one script per entry was written into that
    directory under the entry's name and given mode 0o700, and nothing else
    was done.  Each script exports an LD_LIBRARY_PATH that starts with
    Proton's [dist/lib] and [dist/lib64] and runs the entry. *)
Theorem create_wine_bin_dir_scripts h srp proton_app d :
  fst (create_wine_bin_dir h srp proton_app) = UOk d ->
  let argv := [os_path_join srp [lit "run.sh"];
               lit "--print-steam-runtime-library-paths"] in
  let dir := path_div (path_div (install_path proton_app) (lit "dist"))
                      (lit "bin") in
  exists paths names tmp contents,
    check_output_text h argv = UOk paths /\
    iterdir_names h dir = UOk names /\
    mkdtemp h (lit "protontricks_wine_") = UOk tmp /\
    d = path_str tmp /\
    Forall2
      (fun n c =>
         str_encode_utf8
           (script_of
              (os_path_join (install_path proton_app) [lit "dist"; lit "lib"]
               ++ colon ::
               os_path_join (install_path proton_app)
                 [lit "dist"; lit "lib64"]
               ++ colon :: paths) dir n) = Ok c)
      names contents /\
    snd (create_wine_bin_dir h srp proton_app)
    = [UCheckOutput argv; UIterdir dir;
       UMkdtemp (lit "protontricks_wine_");
       ULog Info "Created temporary Wine binary directory at %s"]
      ++ flat_map (fun nc => [UWrite (path_div d (fst nc)) (snd nc);
                              UChmod (path_div d (fst nc)) mode_700])
           (combine names contents).
Proof.
  intros H argv dir. unfold create_wine_bin_dir in *.
  apply hbind_ok in H as (ld & Hld & H & ->).
  apply get_runtime_library_path_ok in Hld as (paths & Hpaths & -> & ->).
  apply hbind_ok in H as (names & Hnames & H & ->).
  apply hbind_ok in H as (tmp & Htmp & H & ->).
  apply hbind_ok in H as ([] & _ & H & ->).
  apply hbind_ok in H as ([] & Hw & H & ->).
  injection H as <-.
  apply write_scripts_ok in Hw as (contents & HF & ->).
  exists paths, names, tmp, contents. cbn [fst snd app] in *.
  repeat split; try assumption.
  now rewrite app_nil_r.
Qed.

Lemma create_wine_bin_dir_scripts_witness :
  fst (create_wine_bin_dir host_example (lit "/rt") proton_example)
  = UOk (lit "/tmp/protontricks_wine_x1") /\
  exists paths names tmp contents,
    check_output_text host_example
      [os_path_join (lit "/rt") [lit "run.sh"];
       lit "--print-steam-runtime-library-paths"] = UOk paths /\
    iterdir_names host_example
      (path_div (path_div (install_path proton_example) (lit "dist"))
         (lit "bin")) = UOk names /\
    mkdtemp host_example (lit "protontricks_wine_") = UOk tmp /\
    lit "/tmp/protontricks_wine_x1" = path_str tmp /\
    Forall2
      (fun n c =>
         str_encode_utf8
           (script_of
              (os_path_join (install_path proton_example)
                 [lit "dist"; lit "lib"]
               ++ colon ::
               os_path_join (install_path proton_example)
                 [lit "dist"; lit "lib64"]
               ++ colon :: paths)
              (path_div (path_div (install_path proton_example) (lit "dist"))
                 (lit "bin")) n) = Ok c)
      names contents /\
    snd (create_wine_bin_dir host_example (lit "/rt") proton_example)
    = [UCheckOutput [os_path_join (lit "/rt") [lit "run.sh"];
                     lit "--print-steam-runtime-library-paths"];
       UIterdir (path_div (path_div (install_path proton_example)
                             (lit "dist")) (lit "bin"));
       UMkdtemp (lit "protontricks_wine_");
       ULog Info "Created temporary Wine binary directory at %s"]
      ++ flat_map (fun nc => [UWrite (path_div (lit "/tmp/protontricks_wine_x1")
                                        (fst nc)) (snd nc);
                              UChmod (path_div (lit "/tmp/protontricks_wine_x1")
                                        (fst nc)) mode_700])
           (combine names contents).
Proof.
  split; [reflexivity|].
  apply (create_wine_bin_dir_scripts host_example (lit "/rt") proton_example
           (lit "/tmp/protontricks_wine_x1")).
  reflexivity.
Defined.
